(** * Swapr info: the pair data context (src/contexts/PairData.jsx)

    A shallow embedding of the pair cache reducer, the bulk pair fetcher with
    its metric derivation, the hourly rate candles and the daily chart
    gap-fill, followed by the properties proved about them.  The reducer of
    the later revision of the context, the list hook and the token logo hook
    of the same source file are embedded as well.

    Conventions of the embedding.
    - A JS number is an IEEE double, here a primitive [float]; integers that
      the code only adds and compares (unix timestamps, block numbers, swap
      fees) are kept in [Z].
    - The subgraph serialises BigDecimal and BigInt fields as non-empty
      decimal strings.  A record of the embedding stores, for such a field,
      the number [parseFloat] (equally [ToNumber]) reads from it; the string
      being non-empty, the field itself is truthy.
    - An awaited call either resolves or rejects: [Fetch].  A service (a
      subgraph query, the multicall contract, a block resolver) is a function
      of its arguments: asked the same twice, it answers the same.
    - Property lookups ignore the members inherited from [Object.prototype]
      (no cache key is called [constructor] or [toString]). *)

From Stdlib Require Import ZArith Lia.
From Stdlib Require Import Floats.PrimFloat Numbers.Cyclic.Int63.Uint63.
From Stdlib Require Import Strings.Ascii.
From stdpp Require Import gmap strings list fin_maps pretty sorting.

Set Warnings "-register-all".
#[local] Open Scope Z_scope.

(** ** JS numbers and values *)

Module Js.

(** [parseFloat(x)] for [x] already a number: the number is printed and read
    back, which gives the same double, except that [-0] prints as ["0"]. *)
Definition parseFloat_num (x : float) : float :=
  if PrimFloat.eqb x 0%float then 0%float else x.

(** SameValueZero, the equality of [Array.prototype.includes]: [NaN] equals
    itself and the two zeros are equal. *)
Definition sameValueZero (x y : float) : bool :=
  PrimFloat.eqb x y || (PrimFloat.is_nan x && PrimFloat.is_nan y).

Inductive JsVal : Type :=
  | JUndef
  | JNull
  | JBool (b : bool)
  | JNum (x : float)
  | JStr (s : string)
  | JArr (l : list JsVal)
  | JObj (m : gmap string JsVal).

(** ToBoolean. *)
Definition truthy (v : JsVal) : bool :=
  match v with
  | JUndef | JNull => false
  | JBool b => b
  | JNum x => negb (PrimFloat.eqb x 0%float || PrimFloat.is_nan x)
  | JStr s => negb (bool_decide (s = ""%string))
  | JArr _ | JObj _ => true
  end.

Definition indexKeys {A} (f : A → JsVal) (l : list A) : gmap string JsVal :=
  list_to_map (imap (λ i x, (pretty i, f x)) l).

Definition charVal (c : Ascii.ascii) : JsVal := JStr (String c EmptyString).

(** The own enumerable properties, what an object spread [{...v}] copies. *)
Definition ownProps (v : JsVal) : gmap string JsVal :=
  match v with
  | JObj m => m
  | JArr l => indexKeys id l
  | JStr s => indexKeys charVal (String.list_ascii_of_string s)
  | _ => ∅
  end.

Definition lengthVal (n : nat) : JsVal :=
  JNum (PrimFloat.of_uint63 (Uint63.of_Z (Z.of_nat n))).

(** [v?.[k]]: [undefined] on [undefined] and [null], the property otherwise. *)
Definition getProp (v : JsVal) (k : string) : JsVal :=
  match ownProps v !! k with
  | Some x => x
  | None =>
      match v with
      | JArr l => if bool_decide (k = "length"%string) then lengthVal (length l) else JUndef
      | JStr s => if bool_decide (k = "length"%string) then lengthVal (String.length s) else JUndef
      | _ => JUndef
      end
  end.

(** [!x] for [x] an object or [undefined]. *)
Definition absent {A} (x : option A) : bool :=
  match x with
  | Some _ => false
  | None => true
  end.

(** [a || b]. *)
Definition orElse (a b : JsVal) : JsVal := if truthy a then a else b.

(** [{...a, ...b}]: the later spread wins. *)
Definition spread2 (a b : JsVal) : gmap string JsVal := ownProps b ∪ ownProps a.

End Js.

Export Js.

(** ** The cache store: [reducer] *)

Module Cache.

(** The state of the context is always an object: it starts as
    [INITIAL_STATE] and every case of [reducer] returns an object literal. *)
Abbreviation State := (gmap string JsVal).

Definition INITIAL_STATE : State := {[ "topPairs"%string := JObj ∅ ]}.

(** [safeAccess(object, path)]. *)
Definition safeAccess (object : JsVal) (path : list string) : JsVal :=
  if truthy object then
    foldl (λ accumulator currentValue,
             if truthy accumulator && truthy (getProp accumulator currentValue)
             then getProp accumulator currentValue else JNull)
          object path
  else JNull.

Inductive Action : Type :=
  | UPDATE (pairAddress : string) (data : JsVal)
  | UPDATE_MINING_DATA (status : string) (liquidityMiningData : JsVal)
  | UPDATE_TOP_PAIRS (topPairs : option (list JsVal)) (network : string)
  | UPDATE_PAIR_TXNS (address : string) (transactions : JsVal)
  | UPDATE_CHART_DATA (address : string) (chartData : JsVal)
  | UPDATE_HOURLY_DATA (address : string) (data : JsVal) (timeWindow : string) (interval : Z)
  | RESET
  | Unexpected (type : string).

(** The key [pair.id] files a top pair under.  Pair ids are GraphQL IDs,
    strings; a record without an id is filed under ["undefined"]. *)
Definition pairKey (pair : JsVal) : string :=
  match getProp pair "id" with
  | JStr s => s
  | _ => "undefined"
  end.

(** [reducer(state, {type, payload})]; [None] is the thrown error of the
    default case. *)
Definition reducer (state : State) (action : Action) : option State :=
  match action with
  | UPDATE pairAddress data =>
      Some (<[pairAddress := JObj (spread2 (getProp (JObj state) pairAddress) data)]> state)
  | UPDATE_MINING_DATA status liquidityMiningData =>
      Some (<[status := liquidityMiningData]> state)
  | UPDATE_TOP_PAIRS topPairs network =>
      let newTopPairs : gmap string JsVal :=
        match topPairs with
        | Some pairs => foldl (λ reducedPairs pair, <[pairKey pair := pair]> reducedPairs) ∅ pairs
        | None => ∅
        end in
      Some (<["topPairs"%string :=
               JObj (<[network := JObj newTopPairs]> (ownProps (getProp (JObj state) "topPairs")))]>
              state)
  | UPDATE_PAIR_TXNS address transactions =>
      Some (<[address :=
               JObj (<["txns"%string := transactions]>
                       (ownProps (orElse (safeAccess (JObj state) [address]) (JObj ∅))))]>
              state)
  | UPDATE_CHART_DATA address chartData =>
      Some (<[address :=
               JObj (<["chartData"%string := chartData]>
                       (ownProps (orElse (safeAccess (JObj state) [address]) (JObj ∅))))]>
              state)
  | UPDATE_HOURLY_DATA address data timeWindow interval =>
      let entry := getProp (JObj state) address in
      Some (<[address :=
               JObj (<[timeWindow :=
                        JObj (<[pretty interval := data]> (ownProps (getProp entry timeWindow)))]>
                       (ownProps entry))]>
              state)
  | RESET =>
      Some {[ "topPairs"%string := getProp (JObj state) "topPairs" ]}
  | Unexpected _ => None
  end.

(** What a consumer hook reads: [state?.[key]]. *)
Definition read (state : State) (key : string) : JsVal := getProp (JObj state) key.

(** The key a single-entry mutation writes. *)
Definition putTarget (action : Action) : option string :=
  match action with
  | UPDATE pairAddress _ => Some pairAddress
  | UPDATE_PAIR_TXNS address _ => Some address
  | UPDATE_CHART_DATA address _ => Some address
  | UPDATE_HOURLY_DATA address _ _ _ => Some address
  | _ => None
  end.

(** A record with transactions and a derived volume. *)
Definition sampleRecord : gmap string JsVal :=
  {[ "txns"%string := JArr [JStr "swap"]; "oneDayVolumeUSD"%string := JNum 60 ]}.

End Cache.

(** ** Awaited calls *)

Inductive Fetch (A : Type) : Type :=
  | Resolved (a : A)
  | Rejected (error : string).
Arguments Resolved {A} a.
Arguments Rejected {A} error.

#[global] Instance Fetch_ret : MRet Fetch := λ A a, Resolved a.
#[global] Instance Fetch_bind : MBind Fetch := λ A B k m,
  match m with
  | Resolved a => k a
  | Rejected error => Rejected error
  end.

#[global] Instance Fetch_fmap : FMap Fetch := λ A B f m,
  match m with
  | Resolved a => Resolved (f a)
  | Rejected error => Rejected error
  end.

(** [await Promise.all(l.map(f))]: the results in order, or a rejection. *)
Fixpoint awaitAll {A B} (f : A → Fetch B) (l : list A) : Fetch (list B) :=
  match l with
  | [] => Resolved []
  | x :: l' => y ← f x; ys ← awaitAll f l'; mret (y :: ys)
  end.

Record Block := { timestamp : Z; number : Z }.

(** ** The bulk pair fetcher: [getPairsSwapFee], [getBulkPairData], [parseData] *)

Module Bulk.

Record Token := { tokenId : string; symbol : string; name : string }.

(** A pair entity as the subgraph returns it at some block. *)
Record Pair := {
  id : string;
  token0 : Token;
  token1 : Token;
  volumeUSD : float;
  untrackedVolumeUSD : float;
  reserveUSD : float;
  trackedReserveNativeCurrency : float;
  createdAtBlockNumber : Z;
}.

(** The pair entity after [parseData] and [getBulkPairData] have written the
    derived fields on it. *)
Record PairData := {
  pair : Pair;
  oneDayVolumeUSD : float;
  oneWeekVolumeUSD : float;
  volumeChangeUSD : float;
  oneDayVolumeUntracked : float;
  volumeChangeUntracked : float;
  trackedReserveUSD : float;
  liquidityChangeUSD : float;
  swapFee : option Z;
}.

Definition set_oneDayVolumeUSD (v : float) (d : PairData) : PairData :=
  {| pair := pair d; oneDayVolumeUSD := v; oneWeekVolumeUSD := oneWeekVolumeUSD d;
     volumeChangeUSD := volumeChangeUSD d; oneDayVolumeUntracked := oneDayVolumeUntracked d;
     volumeChangeUntracked := volumeChangeUntracked d; trackedReserveUSD := trackedReserveUSD d;
     liquidityChangeUSD := liquidityChangeUSD d; swapFee := swapFee d |}.

Definition set_oneWeekVolumeUSD (v : float) (d : PairData) : PairData :=
  {| pair := pair d; oneDayVolumeUSD := oneDayVolumeUSD d; oneWeekVolumeUSD := v;
     volumeChangeUSD := volumeChangeUSD d; oneDayVolumeUntracked := oneDayVolumeUntracked d;
     volumeChangeUntracked := volumeChangeUntracked d; trackedReserveUSD := trackedReserveUSD d;
     liquidityChangeUSD := liquidityChangeUSD d; swapFee := swapFee d |}.

Definition set_swapFee (fee : Z) (d : PairData) : PairData :=
  {| pair := pair d; oneDayVolumeUSD := oneDayVolumeUSD d; oneWeekVolumeUSD := oneWeekVolumeUSD d;
     volumeChangeUSD := volumeChangeUSD d; oneDayVolumeUntracked := oneDayVolumeUntracked d;
     volumeChangeUntracked := volumeChangeUntracked d; trackedReserveUSD := trackedReserveUSD d;
     liquidityChangeUSD := liquidityChangeUSD d; swapFee := Some fee |}.

Definition set_tokens (t0 t1 : Token) (d : PairData) : PairData :=
  {| pair := {| id := id (pair d); token0 := t0; token1 := t1;
                volumeUSD := volumeUSD (pair d);
                untrackedVolumeUSD := untrackedVolumeUSD (pair d);
                reserveUSD := reserveUSD (pair d);
                trackedReserveNativeCurrency := trackedReserveNativeCurrency (pair d);
                createdAtBlockNumber := createdAtBlockNumber (pair d) |};
     oneDayVolumeUSD := oneDayVolumeUSD d; oneWeekVolumeUSD := oneWeekVolumeUSD d;
     volumeChangeUSD := volumeChangeUSD d; oneDayVolumeUntracked := oneDayVolumeUntracked d;
     volumeChangeUntracked := volumeChangeUntracked d; trackedReserveUSD := trackedReserveUSD d;
     liquidityChangeUSD := liquidityChangeUSD d; swapFee := swapFee d |}.

(** The shape of a query result [r], as the code probes it. *)
Inductive QueryResult : Type :=
  | NoData                       (* [r] or [r.data] is undefined *)
  | NoPairs                      (* [r.data] has no [pairs] *)
  | Pairs (pairs : list Pair).   (* [r.data.pairs] *)

(** What the module imports and calls: the subgraph clients, the multicall
    contract and the helpers of [utils]. *)
Record Services := {
  getTimestampsForChanges : Z * Z * Z;
  getBlocksFromTimestamps : list Z → Fetch (list Block);
  query_PAIRS_BULK : list string → Fetch QueryResult;
  query_PAIRS_HISTORICAL_BULK : Z → list string → Fetch QueryResult;
  query_PAIR_DATA : string → Z → Fetch QueryResult;
  (* [multicall.aggregate(calls)], resolving to [result.returnData] *)
  multicall_aggregate : list (string * string) → Fetch (list string);
  (* [PAIR_INTERFACE.decodeFunctionResult('swapFee()', blob)[0]] *)
  decodeSwapFee : string → Fetch Z;
  (* [updateNameData(data)], "format incorrect names": rewrites the names of
     the two tokens *)
  updateNameData : Token → Token → Token * Token;
}.

(** [PAIR_INTERFACE.encodeFunctionData('swapFee()')]: the call data of the ABI
    encoder, named here by the signature it encodes. *)
Definition encodedSwapFeeCall : string := "swapFee()".

(** The calls [getPairsSwapFee] hands to the multicall contract. *)
Definition swapFeeCalls (pairIds : list string) : list (string * string) :=
  map (λ pairId, (pairId, encodedSwapFeeCall)) pairIds.

(** The [for] loop of [getPairsSwapFee] from index [i] on, [rest] being the
    return data not yet decoded.  A decoding error leaves the loop with the
    fees written so far. *)
Fixpoint decodeFees (decode : string → Fetch Z) (pairIds rest : list string) (i : nat)
    (fees : gmap string Z) : gmap string Z :=
  match rest with
  | [] => fees
  | blob :: rest' =>
      match decode blob with
      | Resolved fee =>
          decodeFees decode pairIds rest' (S i) (<[default "undefined"%string (pairIds !! i) := fee]> fees)
      | Rejected _ => fees
      end
  end.

(** [getPairsSwapFee(selectedNetwork, pairIds)]: every error is caught inside,
    the fees gathered until then are returned. *)
Definition getPairsSwapFee (env : Services) (pairIds : list string) : gmap string Z :=
  match multicall_aggregate env (swapFeeCalls pairIds) with
  | Rejected _ => ∅
  | Resolved returnData =>
      if bool_decide (length pairIds ≠ length returnData) then ∅
      else decodeFees (decodeSwapFee env) pairIds returnData 0 ∅
  end.

(** Modelled from the spec: [get2DayPercentChange] of [utils] is not among the
    sources.  "The one-day delta is current − t1d and the percent change is
    computed against the previous one-day delta (t1d − t2d), guarding division
    by zero by returning 0% when the denominator is 0." *)
Definition get2DayPercentChange (valueNow value24HoursAgo value48HoursAgo : float)
    : float * float :=
  let currentChange := (valueNow - value24HoursAgo)%float in
  let previousChange := (value24HoursAgo - value48HoursAgo)%float in
  (currentChange,
   if PrimFloat.eqb previousChange 0%float then 0%float
   else ((currentChange - previousChange) / previousChange * 100)%float).

(** Modelled from the spec: [getPercentChange] of [utils] is not among the
    sources.  "Simple percent change between current reserve and the
    1-day-ago reserve; 0% if the 1-day-ago value is absent." *)
Definition getPercentChange (valueNow : float) (value24HoursAgo : option float) : float :=
  match value24HoursAgo with
  | Some before => ((valueNow - before) / before * 100)%float
  | None => 0%float
  end.

(** [snapshot?.field ? snapshot.field : 0]. *)
Definition fieldOrZero (snapshot : option Pair) (field : Pair → float) : float :=
  match snapshot with
  | Some s => field s
  | None => 0%float
  end.

(** [parseData(data, oneDayData, twoDayData, oneWeekData, nativeCurrencyPrice,
    oneDayBlock)].  [data] is the pair being mapped over, never null. *)
Definition parseData (env : Services) (data : Pair)
    (oneDayData twoDayData oneWeekData : option Pair)
    (nativeCurrencyPrice : float) (oneDayBlock : Z) : PairData :=
  (* get volume changes *)
  let '(oneDayVolumeUSD, volumeChangeUSD) :=
    get2DayPercentChange (volumeUSD data)
      (fieldOrZero oneDayData volumeUSD) (fieldOrZero twoDayData volumeUSD) in
  let '(oneDayVolumeUntracked, volumeChangeUntracked) :=
    get2DayPercentChange (untrackedVolumeUSD data)
      (fieldOrZero oneDayData untrackedVolumeUSD) (fieldOrZero twoDayData untrackedVolumeUSD) in
  let oneWeekVolumeUSD :=
    match oneWeekData with
    | Some week => parseFloat_num (volumeUSD data - volumeUSD week)%float
    | None => volumeUSD data
    end in
  (* set volume and liquidity properties *)
  let data1 :=
    {| pair := data;
       oneDayVolumeUSD := parseFloat_num oneDayVolumeUSD;
       oneWeekVolumeUSD := oneWeekVolumeUSD;
       volumeChangeUSD := volumeChangeUSD;
       oneDayVolumeUntracked := oneDayVolumeUntracked;
       volumeChangeUntracked := volumeChangeUntracked;
       trackedReserveUSD := (trackedReserveNativeCurrency data * nativeCurrencyPrice)%float;
       liquidityChangeUSD := getPercentChange (reserveUSD data) (reserveUSD <$> oneDayData);
       swapFee := None |} in
  (* format if pair hasnt existed for a day or a week *)
  let data2 :=
    if absent oneDayData && (createdAtBlockNumber data >? oneDayBlock)
    then set_oneDayVolumeUSD (volumeUSD data) data1 else data1 in
  let data3 :=
    if absent oneDayData
    then set_oneDayVolumeUSD (volumeUSD data) data2 else data2 in
  let data4 :=
    if absent oneWeekData
    then set_oneWeekVolumeUSD (volumeUSD data) data3 else data3 in
  (* format incorrect names *)
  let '(t0, t1) := updateNameData env (token0 data) (token1 data) in
  set_tokens t0 t1 data4.

(** [result?.data?.pairs.reduce((obj, cur) => ({...obj, [cur.id]: cur}), {})] *)
Definition indexById (result : QueryResult) : Fetch (option (gmap string Pair)) :=
  match result with
  | NoData => Resolved None
  | NoPairs => Rejected "TypeError"
  | Pairs pairs => Resolved (Some (foldl (λ obj cur, <[id cur := cur]> obj) ∅ pairs))
  end.

(** [history = historical?.[pair.id]] and, when that is missing, the query
    [PAIR_DATA(pair.id, block)] with [newData.data.pairs[0]]. *)
Definition historyAt (env : Services) (historical : option (gmap string Pair))
    (pairId : string) (block : Z) : Fetch (option Pair) :=
  match historical ≫= (λ byId, byId !! pairId) with
  | Some history => Resolved (Some history)
  | None =>
      newData ← query_PAIR_DATA env pairId block;
      match newData with
      | Pairs pairs => Resolved (head pairs)
      | _ => Rejected "TypeError"
      end
  end.

(** [swapFees[pair.id] || 25]: 25 bips is the default swap fee. *)
Definition feeOrDefault (swapFees : gmap string Z) (pairId : string) : Z :=
  match swapFees !! pairId with
  | Some fee => if fee =? 0 then 25 else fee
  | None => 25
  end.

(** The callback mapped over [current.data.pairs]. *)
Definition derivePair (env : Services) (swapFees : gmap string Z)
    (oneDayData twoDayData oneWeekData : option (gmap string Pair))
    (nativeCurrencyPrice : float) (b1 b2 bWeek : Z) (pair : Pair) : Fetch PairData :=
  oneDayHistory ← historyAt env oneDayData (id pair) b1;
  twoDayHistory ← historyAt env twoDayData (id pair) b2;
  oneWeekHistory ← historyAt env oneWeekData (id pair) bWeek;
  let data := parseData env pair oneDayHistory twoDayHistory oneWeekHistory
                nativeCurrencyPrice b1 in
  mret (set_swapFee (feeOrDefault swapFees (id pair)) data).

(** The body of the [try] block of [getBulkPairData]. *)
Definition bulkBody (env : Services) (pairList : list string) (nativeCurrencyPrice : float)
    (b1 b2 bWeek : Z) : Fetch (list PairData) :=
  current ← query_PAIRS_BULK env pairList;
  let swapFees := getPairsSwapFee env pairList in
  (* the three historical queries under one [Promise.all] *)
  oneDayResult ← query_PAIRS_HISTORICAL_BULK env b1 pairList;
  twoDayResult ← query_PAIRS_HISTORICAL_BULK env b2 pairList;
  oneWeekResult ← query_PAIRS_HISTORICAL_BULK env bWeek pairList;
  oneDayData ← indexById oneDayResult;
  twoDayData ← indexById twoDayResult;
  oneWeekData ← indexById oneWeekResult;
  match current with
  | Pairs pairs =>
      awaitAll (derivePair env swapFees oneDayData twoDayData oneWeekData
                  nativeCurrencyPrice b1 b2 bWeek) pairs
  | _ => Rejected "TypeError"
  end.

(** [getBulkPairData(client, blockClient, pairList, nativeCurrencyPrice,
    selectedNetwork, overrideBlocks)].  The blocks are resolved before the
    [try]; the [catch] logs and falls through, and the call resolves to
    [undefined], here [None]. *)
Definition getBulkPairData (env : Services) (pairList : list string)
    (nativeCurrencyPrice : float) (overrideBlocks : option (list Z))
    : Fetch (option (list PairData)) :=
  let '(t1, t2, tWeek) := getTimestampsForChanges env in
  blocks ← match overrideBlocks with
           | Some [b1; b2; bWeek] => Resolved (b1, b2, bWeek)
           | _ =>
               resolved ← getBlocksFromTimestamps env [t1; t2; tWeek];
               match resolved with
               | x :: y :: z :: _ => Resolved (number x, number y, number z)
               | _ => Rejected "TypeError"
               end
           end;
  let '(b1, b2, bWeek) := blocks in
  match bulkBody env pairList nativeCurrencyPrice b1 b2 bWeek with
  | Resolved pairData => Resolved (Some pairData)
  | Rejected _ => Resolved None
  end.

(** The same services with another multicall contract and fee decoder. *)
Definition withFeeServices (aggregate : list (string * string) → Fetch (list string))
    (decode : string → Fetch Z) (env : Services) : Services :=
  {| getTimestampsForChanges := getTimestampsForChanges env;
     getBlocksFromTimestamps := getBlocksFromTimestamps env;
     query_PAIRS_BULK := query_PAIRS_BULK env;
     query_PAIRS_HISTORICAL_BULK := query_PAIRS_HISTORICAL_BULK env;
     query_PAIR_DATA := query_PAIR_DATA env;
     multicall_aggregate := aggregate;
     decodeSwapFee := decode;
     updateNameData := updateNameData env |}.

(** The same services with another block resolver. *)
Definition withBlockResolver (resolver : list Z → Fetch (list Block)) (env : Services)
    : Services :=
  {| getTimestampsForChanges := getTimestampsForChanges env;
     getBlocksFromTimestamps := resolver;
     query_PAIRS_BULK := query_PAIRS_BULK env;
     query_PAIRS_HISTORICAL_BULK := query_PAIRS_HISTORICAL_BULK env;
     query_PAIR_DATA := query_PAIR_DATA env;
     multicall_aggregate := multicall_aggregate env;
     decodeSwapFee := decodeSwapFee env;
     updateNameData := updateNameData env |}.

(** Two derived records that differ in their swap fee at most. *)
Definition sameButFee (a b : PairData) : Prop := set_swapFee 25 a = set_swapFee 25 b.

(** *** A small deployment to run the fetcher on *)

Definition sampleToken (s : string) : Token := {| tokenId := s; symbol := s; name := s |}.

(** Pair ["0xabc"]: created at block 95, lifetime volume 100. *)
Definition samplePair : Pair :=
  {| id := "0xabc"; token0 := sampleToken "DXD"; token1 := sampleToken "WETH";
     volumeUSD := 100; untrackedVolumeUSD := 100; reserveUSD := 500;
     trackedReserveNativeCurrency := 2; createdAtBlockNumber := 95 |}.

(** The same pair one day earlier: volume 40. *)
Definition sampleDayAgo : Pair :=
  {| id := "0xabc"; token0 := sampleToken "DXD"; token1 := sampleToken "WETH";
     volumeUSD := 40; untrackedVolumeUSD := 40; reserveUSD := 400;
     trackedReserveNativeCurrency := 2; createdAtBlockNumber := 95 |}.

(** Blocks 100, 90 and 10 for one day, two days and one week ago; the pair is
    known now and at block 100 only; its fee is 30 bips. *)
Definition sampleServices : Services :=
  {| getTimestampsForChanges := (1000000 - 86400, 1000000 - 172800, 1000000 - 604800);
     getBlocksFromTimestamps := λ timestamps,
       Resolved (zip_with (λ t n, {| timestamp := t; number := n |}) timestamps [100; 90; 10]);
     query_PAIRS_BULK := λ _, Resolved (Pairs [samplePair]);
     query_PAIRS_HISTORICAL_BULK := λ block _,
       Resolved (Pairs (if block =? 100 then [sampleDayAgo] else []));
     query_PAIR_DATA := λ _ _, Resolved (Pairs []);
     multicall_aggregate := λ calls, Resolved (map (λ _, "0x1e"%string) calls);
     decodeSwapFee := λ blob,
       if bool_decide (blob = "0x1e"%string) then Resolved 30 else Rejected "data out-of-bounds";
     updateNameData := λ t0 t1, (t0, t1) |}.

End Bulk.

(** ** Hourly rate candles: [getPairRateData], [getHourlyRateData] *)

Module Value.
(** An entry of [values]: [{timestamp, rate0, rate1}]. *)
Record t := { timestamp : string; rate0 : float; rate1 : float }.
End Value.

Module Candle.
(** An entry of a formatted history: [{timestamp, open, close}]. *)
Record t := { timestamp : string; open : float; close : float }.
End Candle.

Module Rates.

(** A row of the [HOURLY_PAIR_RATES] result. *)
Record Rate := { token0Price : float; token1Price : float }.

(** What the two functions return: the bare [[]] of the early exits, or the
    two histories [[formattedHistoryRate0, formattedHistoryRate1]]. *)
Inductive RateData : Type :=
  | NoSeries
  | Series (formattedHistoryRate0 formattedHistoryRate1 : list Candle.t).

Record Services := {
  (* [dayjs.utc().unix()] *)
  utcEndTime : Z;
  (* [getBlocksForTimestamps(blockClient, timestamps)]; [None] when the
     answer is falsy *)
  getBlocksForTimestamps : list Z → Fetch (option (list Block));
  (* [getBlocksFromTimestamps(blockClient, timestamps, skipCount)] *)
  getBlocksFromTimestamps : list Z → Z → Fetch (option (list Block));
  (* [splitQuery(HOURLY_PAIR_RATES, client, vars, blocks, skipCount)]: the
     keys of the resolved object in enumeration order, each with its row,
     [None] for a [null] row *)
  splitQuery_HOURLY_PAIR_RATES :
    list string → list Block → Z → Fetch (list (string * option Rate));
}.

(** The loop that collects the hour starts: [while (time <= endTime)
    { timestamps.push(time); time += interval }].  [None] when [fuel] rounds
    do not reach the end of the loop. *)
Fixpoint hourStarts (fuel : nat) (time endTime interval : Z) : option (list Z) :=
  if time <=? endTime then
    match fuel with
    | O => None
    | S fuel' => cons time <$> hourStarts fuel' (time + interval) endTime interval
    end
  else Some [].

(** Rounds that suffice for any positive interval; with an interval of zero or
    less the loop does not end once entered. *)
Definition enoughRounds (time endTime : Z) : nat := Z.to_nat (endTime - time + 1).

(** The hour starts from [startTime] up to [endTime]. *)
Definition hourStartsUntil (endTime startTime interval : Z) : option (list Z) :=
  hourStarts (enoughRounds startTime endTime) startTime endTime interval.

(** [s.split(sep)] for a one-character separator. *)
Fixpoint split (sep : Ascii.ascii) (s : string) : list string :=
  match s with
  | EmptyString => [EmptyString]
  | String c s' =>
      if Ascii.eqb c sep then EmptyString :: split sep s'
      else match split sep s' with
           | piece :: pieces => String c piece :: pieces
           | [] => [String c EmptyString]
           end
  end.

(** One round of [for (var row in result)]: the value pushed, if any. *)
Definition rowValue (entry : string * option Rate) : option Value.t :=
  let '(row, rate) := entry in
  match split ("t" : Ascii.ascii) row !! 1%nat with
  | Some timestamp =>
      if bool_decide (timestamp = ""%string) then None
      else Some {| Value.timestamp := timestamp;
                   Value.rate0 := from_option token0Price PrimFloat.nan rate;
                   Value.rate1 := from_option token1Price PrimFloat.nan rate |}
  | None => None
  end.

Definition rateValues (result : list (string * option Rate)) : list Value.t :=
  omap rowValue result.

Definition candle (rate : Value.t → float) (v w : Value.t) : Candle.t :=
  {| Candle.timestamp := Value.timestamp v;
     Candle.open := parseFloat_num (rate v);
     Candle.close := parseFloat_num (rate w) |}.

(** One round of the loop [for (let i = 0; i < values.length - 1; i++)]: a
    candle is pushed on each history. *)
Definition pushCandles (values : list Value.t) (histories : list Candle.t * list Candle.t)
    (i : nat) : list Candle.t * list Candle.t :=
  match values !! i, values !! S i with
  | Some v, Some w =>
      (histories.1 ++ [candle Value.rate0 v w], histories.2 ++ [candle Value.rate1 v w])
  | _, _ => histories (* not reached: i + 1 < values.length *)
  end.

Definition formatHistoryRates (values : list Value.t) : list Candle.t * list Candle.t :=
  foldl (pushCandles values) ([], []) (seq 0 (length values - 1)).

(** [if (latestBlock) blocks = blocks.filter(b => parseFloat(b.number) <=
    parseFloat(latestBlock))]; [latestBlock] is a number or [undefined]. *)
Definition syncedBlocks (latestBlock : option Z) (blocks : list Block) : list Block :=
  match latestBlock with
  | Some latest =>
      if latest =? 0 then blocks
      else filter (λ b, number b ≤ latest) blocks
  | None => blocks
  end.

(** From the answer of [splitQuery] to the returned histories. *)
Definition ratesFrom (result : list (string * option Rate)) : RateData :=
  let '(formattedHistoryRate0, formattedHistoryRate1) := formatHistoryRates (rateValues result) in
  Series formattedHistoryRate0 formattedHistoryRate1.

(** The two functions share their text from "backout if invalid timestamp
    format" on, but for the block resolver they call: [resolve]. *)
Definition ratesBody (env : Services) (resolve : list Z → Fetch (option (list Block)))
    (pairAddress : string) (latestBlock : option Z) (timestamps : list Z) : Fetch RateData :=
  if bool_decide (length timestamps = 0%nat) then Resolved NoSeries
  else
    blocks ← resolve timestamps;
    match blocks with
    | None | Some [] => Resolved NoSeries
    | Some blocks =>
        result ← splitQuery_HOURLY_PAIR_RATES env [pairAddress]
                   (syncedBlocks latestBlock blocks) 100;
        mret (ratesFrom result)
    end.

(** [try { ... } catch (e) { console.log(e); return [[], []] }] *)
Definition orEmptySeries (body : Fetch RateData) : RateData :=
  match body with
  | Resolved data => data
  | Rejected _ => Series [] []
  end.

(** [getPairRateData(client, blockClient, pairAddress, startTime, interval,
    latestBlock)]; [None] when the call does not return. *)
Definition getPairRateData (env : Services) (pairAddress : string)
    (startTime interval : Z) (latestBlock : option Z) : option RateData :=
  timestamps ← hourStartsUntil (utcEndTime env) startTime interval;
  Some (orEmptySeries (ratesBody env (getBlocksForTimestamps env)
                         pairAddress latestBlock timestamps)).

(** [getHourlyRateData(client, blockClient, pairAddress, startTime,
    latestBlock)], the earlier form with its fixed interval of an hour. *)
Definition getHourlyRateData (env : Services) (pairAddress : string)
    (startTime : Z) (latestBlock : option Z) : option RateData :=
  timestamps ← hourStartsUntil (utcEndTime env - 3600) startTime 3600;
  Some (orEmptySeries (ratesBody env (λ ts, getBlocksFromTimestamps env ts 100)
                         pairAddress latestBlock timestamps)).

(** A history pairs consecutive samples: one candle fewer than samples, the
    candle at [i] opening at sample [i] and closing at sample [i + 1]. *)
Definition pairsConsecutive (rate : Value.t → float) (values : list Value.t)
    (history : list Candle.t) : Prop :=
  length history = (length values - 1)%nat
  ∧ ∀ (i : nat) (v w : Value.t),
      values !! i = Some v → values !! S i = Some w →
      ∃ c, history !! i = Some c
           ∧ Candle.timestamp c = Value.timestamp v
           ∧ Candle.open c = parseFloat_num (rate v)
           ∧ Candle.close c = parseFloat_num (rate w)
           ∧ sameValueZero (rate v) (Candle.open c) = true
           ∧ sameValueZero (rate w) (Candle.close c) = true.

(** What C10 asks of two returned histories built from the samples [values]. *)
Definition alignedHistories (values : list Value.t) (history0 history1 : list Candle.t) : Prop :=
  length history0 = length history1
  ∧ ∀ (i : nat) (c0 c1 : Candle.t),
      history0 !! i = Some c0 → history1 !! i = Some c1 →
      Candle.timestamp c0 = Candle.timestamp c1
      ∧ ∃ v, values !! i = Some v ∧ Candle.timestamp c0 = Value.timestamp v.

(** The samples [values] were read from the rate query of a run over the hour
    starts [timestamps]. *)
Definition sampledBy (env : Services) (resolve : list Z → Fetch (option (list Block)))
    (pairAddress : string) (latestBlock : option Z) (timestamps : list Z)
    (values : list Value.t) : Prop :=
  ∃ (blocks : list Block) (result : list (string * option Rate)),
    resolve timestamps = Resolved (Some blocks)
    ∧ splitQuery_HOURLY_PAIR_RATES env [pairAddress] (syncedBlocks latestBlock blocks) 100
      = Resolved result
    ∧ values = rateValues result.

(** *** A pair with three hourly samples *)

Definition sampleBlocks : list Block :=
  [ {| timestamp := 3600; number := 10 |};
    {| timestamp := 7200; number := 20 |};
    {| timestamp := 10800; number := 30 |};
    {| timestamp := 14400; number := 40 |} ].

(** The rate at a block is its number, and its inverse scaled by 100. *)
Definition sampleRates (blocks : list Block) : list (string * option Rate) :=
  map (λ b, ("t" +:+ pretty (timestamp b),
             Some {| token0Price := PrimFloat.of_uint63 (Uint63.of_Z (number b));
                     token1Price := (100 / PrimFloat.of_uint63 (Uint63.of_Z (number b)))%float |}))
      blocks.

Definition sampleServices : Services :=
  {| utcEndTime := 15000;
     getBlocksForTimestamps := λ _, Resolved (Some sampleBlocks);
     getBlocksFromTimestamps := λ _ _, Resolved (Some sampleBlocks);
     splitQuery_HOURLY_PAIR_RATES := λ _ blocks _, Resolved (sampleRates blocks) |}.

(** A history over the first three sample hours, from its opens and closes. *)
Definition sampleHistory (rates : list (float * float)) : list Candle.t :=
  zip_with (λ t oc, {| Candle.timestamp := t; Candle.open := oc.1; Candle.close := oc.2 |})
    ["3600"; "7200"; "10800"]%string rates.

End Rates.

(** ** The daily chart series: [getPairChartData] *)

Module Chart.

(** A row of [result.data.pairDayDatas]. *)
Record PairDayData := {
  rowDate : Z;
  rowDailyVolumeUSD : float;
  rowReserveUSD : float;
}.

(** An element of [data].  A fetched row has no [dayString], and no
    [utilization] before the [forEach] writes it. *)
Record DayData := {
  date : Z;
  dayString : option Z;
  dailyVolumeUSD : float;
  reserveUSD : float;
  utilization : option float;
}.

Record Services := {
  (* [utcEndTime.unix()] *)
  utcEndTime : Z;
  (* [utcEndTime.subtract(1, 'year').startOf('minute').unix()] *)
  utcStartTime : Z;
  (* the query [PAIR_CHART] with the variables [pairAddress] and [skip],
     resolving to [result.data.pairDayDatas] *)
  query_PAIR_CHART : string → Z → Fetch (list PairDayData);
}.

(** How a [try] block is left, with the value of [data] at that point. *)
Inductive Step : Type :=
  | Done (data : list DayData)
  | Threw (data : list DayData).

Definition oneDay : Z := 24 * 60 * 60.

Definition fetched (row : PairDayData) : DayData :=
  {| date := rowDate row; dayString := None; dailyVolumeUSD := rowDailyVolumeUSD row;
     reserveUSD := rowReserveUSD row; utilization := None |}.

(** The paging loop [while (!allFound)], at most [maxPages] rounds of it;
    [None] when the rounds do not reach a short page. *)
Fixpoint fetchPages (maxPages : nat) (env : Services) (pairAddress : string) (skip : Z)
    (data : list DayData) : option Step :=
  match maxPages with
  | O => None
  | S maxPages' =>
      match query_PAIR_CHART env pairAddress skip with
      | Rejected _ => Some (Threw data)
      | Resolved pairDayDatas =>
          let data := data ++ (fetched <$> pairDayDatas) in
          if (Z.of_nat (length pairDayDatas) <? 1000) then Some (Done data)
          else fetchPages maxPages' env pairAddress (skip + 1000) data
      end
  end.

(** The integer closest to [n / d], the larger one of two. *)
Definition roundHalfUp (n d : Z) : Z := (2 * n + d) / (2 * d).

(** [(n / d).toFixed(0)] for integers [n] and [d > 0] with a quotient below
    [10^21]: the sign, then the digits of the rounded magnitude. *)
Definition toFixed0 (n d : Z) : string :=
  if n <? 0 then "-" +:+ pretty (roundHalfUp (- n) d) else pretty (roundHalfUp n d).

(** The body of [data.forEach]: the numbers are parsed in place (they are
    stored parsed here) and the utilization is written. *)
Definition withUtilization (dayData : DayData) : DayData :=
  {| date := date dayData; dayString := dayString dayData;
     dailyVolumeUSD := dailyVolumeUSD dayData; reserveUSD := reserveUSD dayData;
     utilization :=
       Some (parseFloat_num
               (if PrimFloat.eqb (reserveUSD dayData) 0%float then 0%float
                else (dailyVolumeUSD dayData / reserveUSD dayData)%float) * 100)%float |}.

(** The object pushed for an empty day. *)
Definition emptyDay (nextDay : Z) (latestLiquidityUSD : float) : DayData :=
  {| date := nextDay; dayString := Some nextDay; dailyVolumeUSD := 0%float;
     reserveUSD := latestLiquidityUSD; utilization := Some 0%float |}.

(** The loop [while (timestamp < utcEndTime.unix() - oneDay)] that fills in
    the empty days, at most [fuel] rounds of it.  [dayIndexArray[index]] being
    undefined, reading its [reserveUSD] throws. *)
Fixpoint fillDays (fuel : nat) (endTime : Z) (dayIndexSet : gset string)
    (dayIndexArray : list DayData) (timestamp : Z) (latestLiquidityUSD : float)
    (index : nat) (data : list DayData) : option Step :=
  if timestamp <? endTime - oneDay then
    match fuel with
    | O => None
    | S fuel' =>
        let nextDay := timestamp + oneDay in
        let currentDayIndex := toFixed0 nextDay oneDay in
        if bool_decide (currentDayIndex ∉ dayIndexSet) then
          fillDays fuel' endTime dayIndexSet dayIndexArray nextDay latestLiquidityUSD index
            (data ++ [emptyDay nextDay latestLiquidityUSD])
        else
          match dayIndexArray !! index with
          | Some known =>
              fillDays fuel' endTime dayIndexSet dayIndexArray nextDay (reserveUSD known)
                (S index) data
          | None => Some (Threw data)
          end
    end
  else Some (Done data).

(** The comparator [(a, b) => (parseInt(a.date) > parseInt(b.date) ? 1 : -1)];
    [parseInt] of an integer is the integer. *)
Definition byDate (a b : DayData) : Z := if date a >? date b then 1 else -1.

(** [Array.prototype.sort], a stable sort, as the insertion sort: an element is
    put before the first one the comparator places after it.  A comparator
    that orders the elements gives the same array with any sorting method. *)
Fixpoint insertSorted {A} (compareFn : A → A → Z) (x : A) (sorted : list A) : list A :=
  match sorted with
  | [] => [x]
  | y :: sorted' =>
      if compareFn y x >? 0 then x :: y :: sorted'
      else y :: insertSorted compareFn x sorted'
  end.

Definition sort {A} (compareFn : A → A → Z) (l : list A) : list A :=
  foldl (λ sorted x, insertSorted compareFn x sorted) [] l.

(** The rest of the [try] block once all pages are in [data]: the [forEach],
    the filling of the empty days and the sort. *)
Definition normalizeDays (env : Services) (data : list DayData) : option (list DayData) :=
  let startTime := utcStartTime env - 1 in
  let dayIndexSet : gset string :=
    list_to_set ((λ dayData, toFixed0 (date dayData) oneDay) <$> data) in
  let data := withUtilization <$> data in
  let dayIndexArray := data in
  match data with
  | first :: _ =>
      (* fill in empty days *)
      let timestamp := if date first =? 0 then startTime else date first in
      filled ← fillDays (Z.to_nat (utcEndTime env - oneDay - timestamp))
                  (utcEndTime env) dayIndexSet dayIndexArray
                  timestamp (reserveUSD first) 1 data;
      match filled with
      | Done data => Some (sort byDate data)
      | Threw data => Some data
      end
  | [] => Some (sort byDate data)
  end.

(** [getPairChartData(client, pairAddress)]; [None] when the call does not
    return within [maxPages] pages.  When a page is rejected the [catch] logs
    and the rows gathered so far are returned as they are. *)
Definition getPairChartData (maxPages : nat) (env : Services) (pairAddress : string)
    : option (list DayData) :=
  pages ← fetchPages maxPages env pairAddress 0 [];
  match pages with
  | Threw data => Some data
  | Done data => normalizeDays env data
  end.

(** The calendar-day index of a timestamp, the number [toFixed0] prints. *)
Definition dayIndex (timestamp : Z) : Z := roundHalfUp timestamp oneDay.

(** *** The orders and the walk the properties are stated with *)

(** By date, loosely and strictly. *)
Definition dateLe (a b : DayData) : Prop := date a ≤ date b.
Definition dateLt (a b : DayData) : Prop := date a < date b.

(** By calendar-day index. *)
Definition idxOf (d : DayData) : Z := dayIndex (date d).
Definition idxLt (a b : DayData) : Prop := idxOf a < idxOf b.

(** The reserve of the last day of [known] before day index [i], [latest] if
    there is none: what [latestLiquidityUSD] holds when the walk is at [i]. *)
Definition carried (latest : float) (known : list DayData) (i : Z) : float :=
  foldl (λ acc q, if idxOf q <? i then reserveUSD q else acc) latest known.

(** The days pushed by a walk over the fetched days [arr] that starts after
    [ts] with [latest] in hand and the fetched days [known] still ahead. *)
Definition filledFrom (endTime : Z) (arr : list DayData) (ts : Z) (latest : float)
    (known filled : list DayData) : Prop :=
  Forall (λ d, ∃ m, 1 ≤ m ∧ ts + m * oneDay < endTime
                    ∧ d = emptyDay (ts + m * oneDay) (carried latest known (dayIndex ts + m))
                    ∧ dayIndex ts + m ∉ idxOf <$> arr) filled
  ∧ (∀ m, 1 ≤ m → ts + m * oneDay < endTime →
       dayIndex ts + m ∈ idxOf <$> arr ∨ ∃ d, d ∈ filled ∧ date d = ts + m * oneDay)
  ∧ StronglySorted dateLt filled.

(** A fetched row as the series holds it. *)
Definition dayOf (row : PairDayData) : DayData := withUtilization (fetched row).

Definition rowIdxLt (a b : PairDayData) : Prop := dayIndex (rowDate a) < dayIndex (rowDate b).

(** *** A pair with rows for three days out of six *)

Definition sampleRow (day : Z) (reserve : float) : PairDayData :=
  {| rowDate := day * oneDay; rowDailyVolumeUSD := 50; rowReserveUSD := reserve |}.

(** The clock reads half past day 15; the rows arrive as one short page. *)
Definition sampleServices (rows : list PairDayData) : Services :=
  {| utcEndTime := 15 * oneDay + 43200;
     utcStartTime := 15 * oneDay + 43200 - 365 * oneDay;
     query_PAIR_CHART := λ _ skip, Resolved (if skip =? 0 then rows else []) |}.

(** The series [getPairChartData] returns for the rows of days 14 and 10, in
    this order, at half past day 15. *)
Definition unorderedSeries : list DayData :=
  [dayOf (sampleRow 10 100); dayOf (sampleRow 14 200); emptyDay (15 * oneDay) 200].

End Chart.

(** ** Reading the cache: the tests of the series hooks *)

Module Hooks.
Import Cache.

(** The own property [k] of [v], [undefined] when [v] has none: what a spread
    of [v] contributes under [k]. *)
Definition ownProp (v : JsVal) (k : string) : JsVal := default JUndef (ownProps v !! k).

(** The last pair of [pairs] filed under [key] by [UPDATE_TOP_PAIRS]. *)
Definition lastFiled (pairs : list JsVal) (key : string) : JsVal :=
  default JUndef (last (filter (λ pair, pairKey pair = key) pairs)).

(** [usePairChartData]: [!state?.[pairAddress]?.chartData]. *)
Definition chartDataMissing (state : State) (pairAddress : string) : bool :=
  negb (truthy (getProp (getProp (JObj state) pairAddress) "chartData")).

(** [usePairTransactions]: [!state?.[pairAddress]?.txns]. *)
Definition txnsMissing (state : State) (pairAddress : string) : bool :=
  negb (truthy (getProp (getProp (JObj state) pairAddress) "txns")).

(** [usePairRateData]: [!state?.[pairAddress]?.[timeWindow]?.[interval]]. *)
Definition rateDataMissing (state : State) (pairAddress timeWindow : string) (interval : Z)
    : bool :=
  negb (truthy (getProp (getProp (getProp (JObj state) pairAddress) timeWindow)
                  (pretty interval))).

End Hooks.

(** ** The bulk fetcher: what its properties are stated with *)

Module BulkTerms.
Import Bulk.

(** The fees decoded from the return data up to the first blob that does not
    decode. *)
Fixpoint decodedPrefix (decode : string → Fetch Z) (returnData : list string) : list Z :=
  match returnData with
  | [] => []
  | blob :: returnData' =>
      match decode blob with
      | Resolved fee => fee :: decodedPrefix decode returnData'
      | Rejected _ => []
      end
  end.

(** The timestamps handed to the block resolver: [[t1, t2, tWeek]]. *)
Definition changeTimestamps (env : Services) : list Z :=
  let '(t1, t2, tWeek) := getTimestampsForChanges env in [t1; t2; tWeek].

(** A record carries the fields of the pair it was derived from. *)
Definition derivedFrom (p : Pair) (r : PairData) : Prop :=
  id (pair r) = id p
  ∧ volumeUSD (pair r) = volumeUSD p
  ∧ untrackedVolumeUSD (pair r) = untrackedVolumeUSD p
  ∧ reserveUSD (pair r) = reserveUSD p
  ∧ createdAtBlockNumber (pair r) = createdAtBlockNumber p
  ∧ is_Some (swapFee r).

(** The sample services with a fee decoder that fails on the second pair. *)
Definition twoPairIds : list string := ["0xabc"; "0xdef"]%string.

Definition halfDecodingServices : Services :=
  withFeeServices (λ _, Resolved ["0x1e"; "0x"]%string) (decodeSwapFee sampleServices)
    sampleServices.

End BulkTerms.

(** ** The rate fetchers: what their properties are stated with *)

Module RatesTerms.
Import Rates.

(** Whether the character [c] does not occur in [s]. *)
Fixpoint lacks (c : Ascii.ascii) (s : string) : bool :=
  match s with
  | EmptyString => true
  | String a s' => negb (Ascii.eqb a c) && lacks c s'
  end.

(** The sample read from a row with the timestamp [timestamp]. *)
Definition sampleOf (timestamp : string) (rate : option Rate) : Value.t :=
  {| Value.timestamp := timestamp;
     Value.rate0 := from_option token0Price PrimFloat.nan rate;
     Value.rate1 := from_option token1Price PrimFloat.nan rate |}.

(** A result row keyed [t<timestamp>], the form of key the loop reads a
    timestamp from. *)
Definition stamped (row : string * option Rate) : string * option Rate :=
  ("t" +:+ row.1, row.2).

(** The boundaries [startTime], [startTime + interval], ... up to [endTime]. *)
Definition boundaryTimestamps (startTime endTime interval : Z) : list Z :=
  (λ k, startTime + k * interval) <$> seqZ 0 ((endTime - startTime) / interval + 1).

(** The samples of the rows of a rate query result, one per row. *)
Definition samplesOf (rows : list (string * option Rate)) : list Value.t :=
  (λ row, sampleOf row.1 row.2) <$> rows.

(** The same services with another rate query. *)
Definition withRateQuery
    (query : list string → list Block → Z → Fetch (list (string * option Rate)))
    (env : Services) : Services :=
  {| utcEndTime := utcEndTime env;
     getBlocksForTimestamps := getBlocksForTimestamps env;
     getBlocksFromTimestamps := getBlocksFromTimestamps env;
     splitQuery_HOURLY_PAIR_RATES := query |}.

(** The rows the sample rate query answers for the four sample blocks. *)
Definition sampleRows : list (string * option Rate) :=
  [ ("3600"%string, Some {| token0Price := 10; token1Price := 10 |});
    ("7200"%string, Some {| token0Price := 20; token1Price := 5 |});
    ("10800"%string, Some {| token0Price := 30; token1Price := 100 / 30 |});
    ("14400"%string, Some {| token0Price := 40; token1Price := 2.5 |}) ].

End RatesTerms.

(** ** The chart fetcher: what its properties are stated with *)

Module ChartTerms.
Import Chart.

(** The empty days pushed by a walk that starts after [ts] over the fetched
    days [arr]: each is a day [ts + m * oneDay] before [endTime] whose day
    index no fetched day has, with the reserve of a fetched day; every such day
    is there, and they are in ascending order. *)
Definition emptyDaysFrom (endTime : Z) (arr : list DayData) (ts : Z)
    (filled : list DayData) : Prop :=
  Forall (λ d, ∃ m latest, 1 ≤ m ∧ ts + m * oneDay < endTime
                           ∧ d = emptyDay (ts + m * oneDay) latest
                           ∧ latest ∈ reserveUSD <$> arr
                           ∧ dayIndex ts + m ∉ idxOf <$> arr) filled
  ∧ (∀ m, 1 ≤ m → ts + m * oneDay < endTime →
       dayIndex ts + m ∈ idxOf <$> arr ∨ ∃ d, d ∈ filled ∧ date d = ts + m * oneDay)
  ∧ StronglySorted dateLt filled.

(** A subgraph that holds [rows] and answers with those from [skip] on, a
    thousand at most. *)
Definition pagedServices (rows : list PairDayData) : Services :=
  {| utcEndTime := 15 * oneDay + 43200;
     utcStartTime := 15 * oneDay + 43200 - 365 * oneDay;
     query_PAIR_CHART := λ _ skip, Resolved (take 1000 (drop (Z.to_nat skip) rows)) |}.

(** A client whose second page is rejected, after a full first page. *)
Definition brokenSecondPage : Services :=
  {| utcEndTime := 15 * oneDay + 43200;
     utcStartTime := 15 * oneDay + 43200 - 365 * oneDay;
     query_PAIR_CHART := λ _ skip,
       if skip =? 0 then Resolved (replicate 1000 (sampleRow 10 100))
       else Rejected "Network error" |}.

End ChartTerms.

(** ** The cache store of the later revision *)

Module CacheV2.
Import Cache.

(** The later revision of the store starts empty. *)
Definition INITIAL_STATE : State := ∅.

(** Its actions: [UPDATE_TOP_PAIRS] carries no network, [UPDATE_HOURLY_DATA]
    no interval. *)
Inductive Action : Type :=
  | UPDATE (pairAddress : string) (data : JsVal)
  | UPDATE_MINING_DATA (status : string) (liquidityMiningData : JsVal)
  | UPDATE_TOP_PAIRS (topPairs : option (list JsVal))
  | UPDATE_PAIR_TXNS (address : string) (transactions : JsVal)
  | UPDATE_CHART_DATA (address : string) (chartData : JsVal)
  | UPDATE_HOURLY_DATA (address : string) (hourlyData : JsVal) (timeWindow : string)
  | RESET
  | Unexpected (type : string).

(** [reducer(state, {type, payload})] of the later revision; [None] is the
    thrown error of the default case. *)
Definition reducer (state : State) (action : Action) : option State :=
  match action with
  | UPDATE pairAddress data =>
      Some (<[pairAddress := JObj (spread2 (getProp (JObj state) pairAddress) data)]> state)
  | UPDATE_MINING_DATA status liquidityMiningData =>
      Some (<[status := JObj (ownProps liquidityMiningData)]> state)
  | UPDATE_TOP_PAIRS topPairs =>
      let newTopPairs : gmap string JsVal :=
        match topPairs with
        | Some pairs => foldl (λ reducedPairs pair, <[pairKey pair := pair]> reducedPairs) ∅ pairs
        | None => ∅
        end in
      Some newTopPairs
  | UPDATE_PAIR_TXNS address transactions =>
      Some (<[address :=
               JObj (<["txns"%string := transactions]>
                       (ownProps (orElse (safeAccess (JObj state) [address]) (JObj ∅))))]>
              state)
  | UPDATE_CHART_DATA address chartData =>
      Some (<[address :=
               JObj (<["chartData"%string := chartData]>
                       (ownProps (orElse (safeAccess (JObj state) [address]) (JObj ∅))))]>
              state)
  | UPDATE_HOURLY_DATA address hourlyData timeWindow =>
      let entry := getProp (JObj state) address in
      Some (<[address :=
               JObj (<["hourlyData"%string :=
                        JObj (<[timeWindow := hourlyData]>
                                (ownProps (getProp entry "hourlyData")))]>
                       (ownProps entry))]>
              state)
  | RESET => Some INITIAL_STATE
  | Unexpected _ => None
  end.

(** [useHourlyRateData]: [!state?.[pairAddress]?.hourlyData?.[timeWindow]]. *)
Definition hourlyDataMissing (state : State) (pairAddress timeWindow : string) : bool :=
  negb (truthy (getProp (getProp (getProp (JObj state) pairAddress) "hourlyData") timeWindow)).

End CacheV2.

(** ** Token logos: [useTokenIcon] *)

Module TokenIcon.

(** The keys of [CACHE]: the members of [SupportedNetwork]. *)
Inductive Network : Type := MAINNET | XDAI | ARBITRUM_ONE.

#[global] Instance Network_eq_dec : EqDecision Network := ltac:(solve_decision).

(** An entry of a token list. *)
Record TokenInfo := { chainId : Z; address : string; logoURI : string }.

(** What [fetch] resolves to: [response.ok] and [await response.json()], the
    [tokens] of the list. *)
Record Response := { ok : bool; json : Fetch (list TokenInfo) }.

Record Services := {
  (* [String.prototype.toLowerCase] *)
  toLowerCase : string → string;
  (* [ChainIdForSupportedNetwork[network]] *)
  chainIdFor : Network → Z;
  (* [fetch(tokenListURL)] *)
  fetch : string → Fetch Response;
}.

(** The module-level [CACHE]: per network, logo URIs by lower-case address. *)
Definition Cache : Type := Network → gmap string string.

Definition tokenListURL (selectedNetwork : Network) : string :=
  match selectedNetwork with
  | MAINNET => "https://tokens.coingecko.com/uniswap/all.json"
  | XDAI => "https://tokens.honeyswap.org"
  | ARBITRUM_ONE => "https://ipfs.io/ipfs/QmPQcxPxytZEGBdNSj1gu9QNQScXVVZNat3VcqzdDyR8QU"
  end.

(** The callback of [tokens.reduce]. *)
Definition cacheToken (env : Services) (selectedNetworkChainId : Z)
    (cache : gmap string string) (token : TokenInfo) : gmap string string :=
  if bool_decide (chainId token ≠ selectedNetworkChainId) then cache
  else <[toLowerCase env (address token) := logoURI token]> cache.

(** How [fetchTokenLogo] ends: [setUri] is called with a URI or [undefined],
    or it returns without a call, or the rejection of [response.json()]
    leaves it. *)
Inductive Outcome : Type :=
  | SetUri (uri : option string)
  | Returned
  | Escaped (error : string).

(** [CACHE[selectedNetwork] = list] *)
Definition store (CACHE : Cache) (selectedNetwork : Network) (list : gmap string string)
    : Cache :=
  λ network, if bool_decide (network = selectedNetwork) then list else CACHE network.

(** The last statement: [if (!cancelled) setUri(CACHE[selectedNetwork][address.toLowerCase()])]. *)
Definition lookUp (env : Services) (CACHE : Cache) (selectedNetwork : Network)
    (address : string) (cancelled : bool) : Outcome :=
  if cancelled then Returned
  else SetUri (CACHE selectedNetwork !! toLowerCase env address).

(** [fetchTokenLogo()] of [useTokenIcon(address)] on a supported network:
    the cache afterwards and how the call ended.  [cancelled] is the flag as
    the last statement reads it. *)
Definition fetchTokenLogo (env : Services) (CACHE : Cache) (address : string)
    (selectedNetwork : Network) (cancelled : bool) : Cache * Outcome :=
  if bool_decide (address = ""%string) then (CACHE, Returned)
  else if bool_decide (CACHE selectedNetwork = ∅) then
    match fetch env (tokenListURL selectedNetwork) with
    | Rejected _ => (CACHE, Returned)
    | Resolved response =>
        if negb (ok response) then (CACHE, Returned)
        else
          match json response with
          | Rejected error => (CACHE, Escaped error)
          | Resolved tokens =>
              let CACHE :=
                store CACHE selectedNetwork
                  (foldl (cacheToken env (chainIdFor env selectedNetwork)) ∅ tokens) in
              (CACHE, lookUp env CACHE selectedNetwork address cancelled)
          end
    end
  else (CACHE, lookUp env CACHE selectedNetwork address cancelled).

(** The logo of the last token of the list that is on the chain and has the
    address, up to case. *)
Definition lastLogo (env : Services) (selectedNetworkChainId : Z) (tokens : list TokenInfo)
    (wanted : string) : option string :=
  logoURI <$> last (filter (λ token, chainId token = selectedNetworkChainId
                                     ∧ toLowerCase env (address token) = toLowerCase env wanted)
                      tokens).

(** ASCII lower case, for the hexadecimal addresses of the samples. *)
Definition lowerAscii (c : Ascii.ascii) : Ascii.ascii :=
  let n := Ascii.nat_of_ascii c in
  if (65 <=? n)%nat && (n <=? 90)%nat then Ascii.ascii_of_nat (n + 32) else c.

Fixpoint lowerCase (s : string) : string :=
  match s with
  | EmptyString => EmptyString
  | String c s' => String (lowerAscii c) (lowerCase s')
  end.

(** A list with a token on two chains; chain 100 is xDai. *)
Definition sampleTokens : list TokenInfo :=
  [ {| chainId := 1; address := "0xAB"; logoURI := "https://logos/ab-mainnet.png" |};
    {| chainId := 100; address := "0xAB"; logoURI := "https://logos/ab-xdai.png" |} ].

Definition sampleServices : Services :=
  {| toLowerCase := lowerCase;
     chainIdFor := λ network,
       match network with MAINNET => 1 | XDAI => 100 | ARBITRUM_ONE => 42161 end;
     fetch := λ _, Resolved {| ok := true; json := Resolved sampleTokens |} |}.

End TokenIcon.

(** ** The list hook: [useDataForList] *)

Module ListData.
Import Cache Bulk.

(** An element of [fetched]: a record read from the state, a record of
    [getBulkPairData], or the [undefined] that [concat] appends when the
    fetcher resolved to [undefined]. *)
Inductive Entry : Type :=
  | Cached (currentData : JsVal)
  | Fetched (record : PairData)
  | Missing.

(** The key [cur?.id] files an entry under. *)
Definition entryKey (cur : Entry) : string :=
  match cur with
  | Cached currentData => pairKey currentData
  | Fetched record => id (pair record)
  | Missing => "undefined"
  end.

(** The ids pushed on [unfetched]: the pairs without a truthy entry.  The
    pairs of the list carry their id, a string. *)
Definition unfetched (state : State) (pairList : list JsVal) : list string :=
  pairKey <$> filter (λ pair, truthy (read state (pairKey pair)) = false) pairList.

(** The entries pushed on [newFetched]. *)
Definition newFetched (state : State) (pairList : list JsVal) : list Entry :=
  omap (λ pair, let currentData := read state (pairKey pair) in
                if truthy currentData then Some (Cached currentData) else None) pairList.

(** [fetchNewPairData()] of [useDataForList(pairList)]: what [setFetched] is
    called with; a rejection leaves the function before the call. *)
Definition fetchNewPairData (env : Services) (state : State) (pairList : list JsVal)
    (nativeCurrencyPrice : float) : Fetch (list Entry) :=
  newPairData ← getBulkPairData env (unfetched state pairList) nativeCurrencyPrice None;
  mret (newFetched state pairList
          ++ match newPairData with
             | Some records => Fetched <$> records
             | None => [Missing]
             end).

(** [fetched.reduce((obj, cur) => ({...obj, [cur?.id]: cur}), {})] *)
Definition formattedFetch (fetched : list Entry) : gmap string Entry :=
  foldl (λ obj cur, <[entryKey cur := cur]> obj) ∅ fetched.

End ListData.

(** * Properties *)

(** ** The cache store *)

Module CacheSpec.
Import Cache.

Lemma read_lookup (state : State) (key : string) :
  read state key = default JUndef (state !! key).
Proof. unfold read, getProp; simpl. by destruct (state !! key). Qed.

Lemma getProp_obj (m : gmap string JsVal) (k : string) :
  getProp (JObj m) k = default JUndef (m !! k).
Proof. unfold getProp; simpl. by destruct (m !! k). Qed.

Lemma safeAccess_object (state : State) (address : string) (record : gmap string JsVal) :
  state !! address = Some (JObj record) →
  orElse (safeAccess (JObj state) [address]) (JObj ∅) = JObj record.
Proof.
  intros Hrec. unfold safeAccess; simpl.
  rewrite getProp_obj, Hrec. reflexivity.
Qed.

(** C5.  A mutation that writes the entry of one key ([UPDATE],
    [UPDATE_PAIR_TXNS], [UPDATE_CHART_DATA], [UPDATE_HOURLY_DATA]) returns a
    state in which every other key holds what it held before. *)
Theorem put_isolated (state : State) (action : Action) (X Y : string) :
  putTarget action = Some X →
  X ≠ Y →
  ∃ state', reducer state action = Some state'
            ∧ state' !! Y = state !! Y
            ∧ read state' Y = read state Y.
Proof.
  intros Htarget Hne.
  destruct action; simpl in Htarget; try discriminate;
    injection Htarget as ->; simpl; eexists; (split; [reflexivity|]);
    rewrite !read_lookup, lookup_insert_ne by done; done.
Qed.

Lemma put_isolated_witness :
  ∃ state', reducer {[ "0xb" := JObj {[ "txns" := JNum 1 ]} ]}%string
                    (UPDATE_CHART_DATA "0xa" (JArr [])) = Some state'
            ∧ state' !! "0xb"%string
              = ({[ "0xb" := JObj {[ "txns" := JNum 1 ]} ]}%string : State) !! "0xb"%string
            ∧ read state' "0xb" = read {[ "0xb" := JObj {[ "txns" := JNum 1 ]} ]}%string "0xb".
Proof.
  apply (put_isolated _ (UPDATE_CHART_DATA "0xa" (JArr [])) "0xa" "0xb");
    [reflexivity | discriminate].
Defined.

Example reset_sample :
  reducer {[ "topPairs"%string := JObj {[ "xdai"%string := JObj ∅ ]};
             "0xa"%string := JObj sampleRecord;
             "active"%string := JArr [] ]} RESET
  = Some {[ "topPairs"%string := JObj {[ "xdai"%string := JObj ∅ ]} ]}.
Proof. reflexivity. Qed.

(** C6.  After [RESET] the [topPairs] partition reads as before, and every
    other key (a pair address with its record, txns, chart and hourly series,
    or a mining campaign status) reads as [undefined]. *)
Theorem reset_keeps_only_topPairs (state : State) :
  ∃ state', reducer state RESET = Some state'
            ∧ read state' "topPairs" = read state "topPairs"
            ∧ ∀ key : string, key ≠ "topPairs"%string →
                state' !! key = None
                ∧ read state' key = JUndef
                ∧ ∀ field : string, getProp (read state' key) field = JUndef.
Proof.
  simpl. eexists; split; [reflexivity|]. split.
  - rewrite read_lookup, lookup_singleton_eq. reflexivity.
  - intros key Hkey.
    assert (({[ "topPairs"%string := getProp (JObj state) "topPairs" ]} : State) !! key = None)
      as Hnone by (by apply lookup_singleton_ne).
    rewrite read_lookup, Hnone. done.
Qed.

(** C8.  [UPDATE_CHART_DATA] (and likewise [UPDATE_PAIR_TXNS]) on an address
    that holds a record stores that record with the one field replaced; every
    other field of the record reads as before. *)
Theorem chart_update_preserves_fields
    (state : State) (address : string) (record : gmap string JsVal) (payload : JsVal) :
  state !! address = Some (JObj record) →
  (∃ state', reducer state (UPDATE_CHART_DATA address payload) = Some state'
             ∧ state' !! address = Some (JObj (<["chartData"%string := payload]> record))
             ∧ getProp (read state' address) "chartData" = payload
             ∧ ∀ field : string, field ≠ "chartData"%string →
                 getProp (read state' address) field = getProp (read state address) field)
  ∧ (∃ state', reducer state (UPDATE_PAIR_TXNS address payload) = Some state'
               ∧ state' !! address = Some (JObj (<["txns"%string := payload]> record))
               ∧ getProp (read state' address) "txns" = payload
               ∧ ∀ field : string, field ≠ "txns"%string →
                   getProp (read state' address) field = getProp (read state address) field).
Proof.
  intros Hrec. split; simpl; rewrite (safeAccess_object _ _ _ Hrec); simpl;
    (eexists; split; [reflexivity|]);
    rewrite !read_lookup, lookup_insert_eq, Hrec; simpl;
    (split; [reflexivity|]);
    (split; [by rewrite getProp_obj, lookup_insert_eq|]);
    intros field Hfield; by rewrite !getProp_obj, lookup_insert_ne.
Qed.

Lemma chart_update_preserves_fields_witness :
  ∃ state', reducer {[ "0xa"%string := JObj sampleRecord ]} (UPDATE_CHART_DATA "0xa" (JArr []))
            = Some state'
            ∧ getProp (read state' "0xa") "txns" = JArr [JStr "swap"]
            ∧ getProp (read state' "0xa") "oneDayVolumeUSD" = JNum 60.
Proof.
  destruct (chart_update_preserves_fields {[ "0xa"%string := JObj sampleRecord ]}
              "0xa" sampleRecord (JArr []) (lookup_singleton_eq _ _))
    as [[state' (Hred & _ & _ & Hframe)] _].
  exists state'. split; [exact Hred|]. split.
  - rewrite (Hframe "txns"%string) by discriminate. reflexivity.
  - rewrite (Hframe "oneDayVolumeUSD"%string) by discriminate. reflexivity.
Defined.

End CacheSpec.

(** ** The bulk pair fetcher *)

Module BulkSpec.
Import Bulk.

Lemma float_neq_by_eqb (x y : float) : PrimFloat.eqb x y = false → PrimFloat.eqb x x = true → x ≠ y.
Proof. intros Hxy Hxx Heq. rewrite <- Heq in Hxy. congruence. Qed.

Lemma parseData_pair_id env data d1 d2 dw price blk :
  id (pair (parseData env data d1 d2 dw price blk)) = id data.
Proof.
  unfold parseData.
  destruct (get2DayPercentChange _ _ _), (get2DayPercentChange _ _ _), (updateNameData _ _ _).
  by destruct d1, dw, (createdAtBlockNumber data >? blk).
Qed.

(** C3, as the code has it.  The one-day volume [parseData] returns is the
    lifetime volume exactly when there is no one-day snapshot, whatever the
    creation block; with a one-day snapshot it is the two-window delta, also
    for a pair created after the reference block. *)
Theorem parseData_oneDayVolumeUSD (env : Services) (data : Pair)
    (oneDayData twoDayData oneWeekData : option Pair)
    (nativeCurrencyPrice : float) (oneDayBlock : Z) :
  oneDayVolumeUSD
    (parseData env data oneDayData twoDayData oneWeekData nativeCurrencyPrice oneDayBlock)
  = match oneDayData with
    | None => volumeUSD data
    | Some dayAgo =>
        parseFloat_num
          (fst (get2DayPercentChange (volumeUSD data) (volumeUSD dayAgo)
                  (fieldOrZero twoDayData volumeUSD)))
    end.
Proof.
  unfold parseData.
  destruct oneDayData as [dayAgo|]; unfold fieldOrZero at 1.
  - destruct (get2DayPercentChange (volumeUSD data) _ _) as [delta change].
    destruct (get2DayPercentChange (untrackedVolumeUSD data) _ _) as [? ?].
    destruct (updateNameData env _ _) as [t0 t1].
    by destruct oneWeekData.
  - destruct (get2DayPercentChange (volumeUSD data) _ _) as [delta change].
    destruct (get2DayPercentChange (untrackedVolumeUSD data) _ _) as [? ?].
    destruct (updateNameData env _ _) as [t0 t1].
    by destruct (createdAtBlockNumber data >? oneDayBlock), oneWeekData.
Qed.

(** The record for pair ["0xabc"], created at block 95, against the blocks
    100, 90 and 10: the one-day volume is the delta to the snapshot at block
    100, the one-week volume falls back to the lifetime volume. *)
Example getBulkPairData_sample :
  match getBulkPairData sampleServices ["0xabc"%string] 2000%float None with
  | Resolved (Some [r]) =>
      (oneDayVolumeUSD r, oneWeekVolumeUSD r, swapFee r) = (60%float, 100%float, Some 30)
  | _ => False
  end.
Proof. reflexivity. Qed.

(** C3, as the claim states it, fails: pair ["0xabc"], created at block 95
    with lifetime volume 100, has a snapshot of volume 40 at the reference
    block 90; its one-day volume is 60. *)
Lemma parseData_created_after_reference_counterexample :
  ¬ (∀ (env : Services) (data : Pair) (oneDayData twoDayData oneWeekData : option Pair)
       (nativeCurrencyPrice : float) (oneDayBlock : Z),
       createdAtBlockNumber data > oneDayBlock →
       oneDayVolumeUSD
         (parseData env data oneDayData twoDayData oneWeekData nativeCurrencyPrice oneDayBlock)
       = volumeUSD data).
Proof.
  intros Hclaim.
  specialize (Hclaim sampleServices samplePair (Some sampleDayAgo) None None 2000%float 90).
  assert (oneDayVolumeUSD (parseData sampleServices samplePair (Some sampleDayAgo) None None
                             2000%float 90) = 60%float) as Hsixty by reflexivity.
  rewrite Hsixty in Hclaim.
  refine (float_neq_by_eqb 60 100 _ _ (Hclaim _)); [reflexivity | reflexivity |].
  simpl. lia.
Qed.

Lemma awaitAll_resolved {A B} (f : A → Fetch B) (l : list A) (ys : list B) :
  awaitAll f l = Resolved ys → Forall2 (λ x y, f x = Resolved y) l ys.
Proof.
  revert ys. induction l as [|x l IH]; intros ys Hall; simpl in Hall.
  - injection Hall as <-. constructor.
  - unfold mbind, Fetch_bind in Hall.
    destruct (f x) as [y|] eqn:Hfx; [|discriminate].
    destruct (awaitAll f l) as [ys'|]; [|discriminate].
    injection Hall as <-. constructor; auto.
Qed.

Lemma decodeFees_provenance (decode : string → Fetch Z) (pairIds returnData : list string)
    (P := λ (key : string) (fee : Z),
            ∃ (i : nat) (blob : string),
              default "undefined"%string (pairIds !! i) = key
              ∧ returnData !! i = Some blob ∧ decode blob = Resolved fee) :
  ∀ (rest : list string) (i : nat) (fees : gmap string Z),
    drop i returnData = rest →
    (∀ key fee, fees !! key = Some fee → P key fee) →
    ∀ key fee, decodeFees decode pairIds rest i fees !! key = Some fee → P key fee.
Proof.
  induction rest as [|blob rest IH]; intros i fees Hdrop Hfees key fee; simpl; [by auto|].
  destruct (decode blob) as [decoded|] eqn:Hdecode; [|by auto].
  assert (returnData !! i = Some blob) as Hblob.
  { rewrite <- (Nat.add_0_r i), <- lookup_drop, Hdrop. reflexivity. }
  apply IH.
  - replace (S i) with (i + 1)%nat by lia. rewrite <- drop_drop, Hdrop. reflexivity.
  - intros key' fee'. rewrite lookup_insert. case_decide as Hkey.
    + intros [= <-]. exists i, blob. by subst.
    + by auto.
Qed.

Lemma getPairsSwapFee_provenance (env : Services) (pairIds : list string) (key : string) (fee : Z) :
  getPairsSwapFee env pairIds !! key = Some fee →
  ∃ (i : nat) (returnData : list string) (blob : string),
    pairIds !! i = Some key
    ∧ multicall_aggregate env (swapFeeCalls pairIds) = Resolved returnData
    ∧ returnData !! i = Some blob
    ∧ decodeSwapFee env blob = Resolved fee.
Proof.
  unfold getPairsSwapFee.
  destruct (multicall_aggregate env _) as [returnData|]; [|by rewrite lookup_empty].
  case_bool_decide as Hlen; [by rewrite lookup_empty|].
  intros Hfee.
  apply (decodeFees_provenance _ pairIds returnData returnData 0 ∅) in Hfee;
    [|done|by intros ? ?; rewrite lookup_empty].
  destruct Hfee as (i & blob & Hkey & Hblob & Hdecode).
  exists i, returnData, blob. repeat split; try done.
  destruct (pairIds !! i) as [k|] eqn:Hi; [by simpl in Hkey; subst|].
  apply lookup_ge_None in Hi. apply lookup_lt_Some in Hblob.
  lia.
Qed.

Lemma derivePair_swapFee env fees d1 d2 dw price b1 b2 bWeek p r :
  derivePair env fees d1 d2 dw price b1 b2 bWeek p = Resolved r →
  id (pair r) = id p ∧ swapFee r = Some (feeOrDefault fees (id p)).
Proof.
  unfold derivePair, mbind, Fetch_bind, mret, Fetch_ret.
  destruct (historyAt env d1 _ _); [|discriminate].
  destruct (historyAt env d2 _ _); [|discriminate].
  destruct (historyAt env dw _ _); [|discriminate].
  intros [= <-]. simpl. by rewrite parseData_pair_id.
Qed.

Lemma derivePair_fee_independent env aggregate decode fees fees' d1 d2 dw price b1 b2 bWeek p :
  match derivePair env fees d1 d2 dw price b1 b2 bWeek p with
  | Resolved r =>
      ∃ r', derivePair (withFeeServices aggregate decode env) fees' d1 d2 dw price b1 b2 bWeek p
            = Resolved r' ∧ sameButFee r' r
  | Rejected e =>
      derivePair (withFeeServices aggregate decode env) fees' d1 d2 dw price b1 b2 bWeek p
      = Rejected e
  end.
Proof.
  unfold derivePair, mbind, Fetch_bind, mret, Fetch_ret.
  change (historyAt (withFeeServices aggregate decode env)) with (historyAt env).
  change (parseData (withFeeServices aggregate decode env)) with (parseData env).
  destruct (historyAt env d1 _ _); [|done].
  destruct (historyAt env d2 _ _); [|done].
  destruct (historyAt env dw _ _); [|done].
  eexists; split; reflexivity.
Qed.

Lemma awaitAll_fee_independent env aggregate decode fees fees' d1 d2 dw price b1 b2 bWeek pairs :
  match awaitAll (derivePair env fees d1 d2 dw price b1 b2 bWeek) pairs with
  | Resolved rs =>
      ∃ rs', awaitAll (derivePair (withFeeServices aggregate decode env) fees'
                         d1 d2 dw price b1 b2 bWeek) pairs = Resolved rs'
             ∧ Forall2 sameButFee rs' rs
  | Rejected e =>
      awaitAll (derivePair (withFeeServices aggregate decode env) fees'
                  d1 d2 dw price b1 b2 bWeek) pairs = Rejected e
  end.
Proof.
  induction pairs as [|p pairs IH]; simpl.
  - eexists; split; [reflexivity | constructor].
  - pose proof (derivePair_fee_independent env aggregate decode fees fees'
                  d1 d2 dw price b1 b2 bWeek p) as Hp.
    unfold mbind, Fetch_bind, mret, Fetch_ret in *.
    destruct (derivePair env fees _ _ _ _ _ _ _ p) as [r|e].
    + destruct Hp as (r' & -> & Hr).
      destruct (awaitAll (derivePair env fees _ _ _ _ _ _ _) pairs) as [rs|e].
      * destruct IH as (rs' & -> & Hrs). eexists; split; [reflexivity | by constructor].
      * by rewrite IH.
    + by rewrite Hp.
Qed.

Lemma bulkBody_fee_independent env aggregate decode pairList price b1 b2 bWeek :
  match bulkBody env pairList price b1 b2 bWeek with
  | Resolved rs =>
      ∃ rs', bulkBody (withFeeServices aggregate decode env) pairList price b1 b2 bWeek
             = Resolved rs' ∧ Forall2 sameButFee rs' rs
  | Rejected e =>
      bulkBody (withFeeServices aggregate decode env) pairList price b1 b2 bWeek = Rejected e
  end.
Proof.
  unfold bulkBody, mbind, Fetch_bind. simpl.
  destruct (query_PAIRS_BULK env pairList) as [current|]; [|done].
  destruct (query_PAIRS_HISTORICAL_BULK env b1 pairList) as [r1|]; [|done].
  destruct (query_PAIRS_HISTORICAL_BULK env b2 pairList) as [r2|]; [|done].
  destruct (query_PAIRS_HISTORICAL_BULK env bWeek pairList) as [r3|]; [|done].
  destruct (indexById r1) as [d1|]; [|done].
  destruct (indexById r2) as [d2|]; [|done].
  destruct (indexById r3) as [dw|]; [|done].
  destruct current as [| |pairs]; [done|done|].
  apply awaitAll_fee_independent.
Qed.

(** The blocks [getBulkPairData] works with, once they are known. *)
Lemma getBulkPairData_blocks env pairList price overrideBlocks :
  (∃ e, getBulkPairData env pairList price overrideBlocks = Rejected e)
  ∨ ∃ b1 b2 bWeek,
      getBulkPairData env pairList price overrideBlocks
      = match bulkBody env pairList price b1 b2 bWeek with
        | Resolved pairData => Resolved (Some pairData)
        | Rejected _ => Resolved None
        end
      ∧ ∀ aggregate decode,
          getBulkPairData (withFeeServices aggregate decode env) pairList price overrideBlocks
          = match bulkBody (withFeeServices aggregate decode env) pairList price b1 b2 bWeek with
            | Resolved pairData => Resolved (Some pairData)
            | Rejected _ => Resolved None
            end.
Proof.
  unfold getBulkPairData. simpl.
  destruct (getTimestampsForChanges env) as [[t1 t2] tWeek].
  assert (∀ A (x : Fetch A), (∃ e, x = Rejected e) ∨ ∃ a, x = Resolved a) as Hcases.
  { intros A [a|e]; eauto. }
  destruct overrideBlocks as [[|o1 [|o2 [|o3 [|o4 os]]]]|];
    try (right; exists o1, o2, o3; split; [reflexivity | intros; reflexivity]);
    unfold mbind, Fetch_bind;
    (destruct (getBlocksFromTimestamps env [t1; t2; tWeek]) as [[|x1 [|x2 [|x3 rest]]]|e];
     [left; eauto | left; eauto | left; eauto | | left; eauto]);
    right; exists (number x1), (number x2), (number x3);
    (split; [reflexivity | intros; reflexivity]).
Qed.

(** C7.  Every record [getBulkPairData] returns carries the default fee 25 or
    a fee decoded from the multicall return data at the position of its pair
    id; and with any other multicall contract or decoder, failing ones
    included, the call returns the same records up to their fee. *)
Theorem swapFee_fetched_or_default (env : Services) (pairList : list string)
    (nativeCurrencyPrice : float) (overrideBlocks : option (list Z))
    (records : list PairData) :
  getBulkPairData env pairList nativeCurrencyPrice overrideBlocks = Resolved (Some records) →
  Forall (λ r, swapFee r = Some 25
               ∨ ∃ (i : nat) (returnData : list string) (blob : string) (fee : Z),
                   pairList !! i = Some (id (pair r))
                   ∧ multicall_aggregate env (swapFeeCalls pairList) = Resolved returnData
                   ∧ returnData !! i = Some blob
                   ∧ decodeSwapFee env blob = Resolved fee
                   ∧ swapFee r = Some fee) records
  ∧ ∀ (aggregate : list (string * string) → Fetch (list string)) (decode : string → Fetch Z),
      ∃ records',
        getBulkPairData (withFeeServices aggregate decode env) pairList nativeCurrencyPrice
          overrideBlocks = Resolved (Some records')
        ∧ Forall2 sameButFee records' records.
Proof.
  intros Hrun.
  destruct (getBulkPairData_blocks env pairList nativeCurrencyPrice overrideBlocks)
    as [[e He]|(b1 & b2 & bWeek & Hbody & Hother)]; [congruence|].
  rewrite Hrun in Hbody.
  destruct (bulkBody env pairList nativeCurrencyPrice b1 b2 bWeek) as [rs|] eqn:Hrs;
    [|discriminate].
  injection Hbody as ->. split.
  - clear Hother Hrun. revert Hrs. unfold bulkBody, mbind, Fetch_bind.
    destruct (query_PAIRS_BULK env pairList) as [current|]; [|discriminate].
    destruct (query_PAIRS_HISTORICAL_BULK env b1 pairList) as [r1|]; [|discriminate].
    destruct (query_PAIRS_HISTORICAL_BULK env b2 pairList) as [r2|]; [|discriminate].
    destruct (query_PAIRS_HISTORICAL_BULK env bWeek pairList) as [r3|]; [|discriminate].
    destruct (indexById r1) as [d1|]; [|discriminate].
    destruct (indexById r2) as [d2|]; [|discriminate].
    destruct (indexById r3) as [dw|]; [|discriminate].
    destruct current as [| |pairs]; [discriminate|discriminate|].
    intros Hall. apply awaitAll_resolved in Hall.
    induction Hall as [|p r pairs rs Hp _ IH]; constructor; [|exact IH].
    apply derivePair_swapFee in Hp as [Hid Hfee]. rewrite Hfee, Hid.
    unfold feeOrDefault.
    destruct (getPairsSwapFee env pairList !! id p) as [fee|] eqn:Hlookup; [|by left].
    destruct (fee =? 0); [by left|]. right.
    apply getPairsSwapFee_provenance in Hlookup as (i & returnData & blob & ? & ? & ? & ?).
    by exists i, returnData, blob, fee.
  - intros aggregate decode. rewrite Hother.
    pose proof (bulkBody_fee_independent env aggregate decode pairList nativeCurrencyPrice
                  b1 b2 bWeek) as Hindep.
    rewrite Hrs in Hindep. destruct Hindep as (rs' & -> & Hsame). by exists rs'.
Qed.

Lemma swapFee_fetched_or_default_witness :
  Forall (λ r, swapFee r = Some 25
               ∨ ∃ (i : nat) (returnData : list string) (blob : string) (fee : Z),
                   ["0xabc"%string] !! i = Some (id (pair r))
                   ∧ multicall_aggregate sampleServices (swapFeeCalls ["0xabc"%string])
                     = Resolved returnData
                   ∧ returnData !! i = Some blob
                   ∧ decodeSwapFee sampleServices blob = Resolved fee
                   ∧ swapFee r = Some fee)
         [set_swapFee 30 (parseData sampleServices samplePair (Some sampleDayAgo) None None
                            2000%float 100)]
  ∧ ∀ aggregate decode,
      ∃ records',
        getBulkPairData (withFeeServices aggregate decode sampleServices) ["0xabc"%string]
          2000%float None = Resolved (Some records')
        ∧ Forall2 sameButFee records'
            [set_swapFee 30 (parseData sampleServices samplePair (Some sampleDayAgo) None None
                               2000%float 100)].
Proof.
  apply (swapFee_fetched_or_default sampleServices ["0xabc"%string] 2000%float None).
  reflexivity.
Defined.

(** C4, where the code departs from it.  Unless three override blocks are
    passed, a rejection of the block resolver is the outcome of
    [getBulkPairData] itself: the resolver is awaited before the [try]. *)
Theorem resolver_rejection_escapes (env : Services) (pairList : list string)
    (nativeCurrencyPrice : float) (overrideBlocks : option (list Z))
    (resolver : list Z → Fetch (list Block)) (error : string) :
  length <$> overrideBlocks ≠ Some 3%nat →
  (∀ timestamps, resolver timestamps = Rejected error) →
  getBulkPairData (withBlockResolver resolver env) pairList nativeCurrencyPrice overrideBlocks
  = Rejected error.
Proof.
  intros Hoverride Hreject. unfold getBulkPairData. simpl.
  destruct (getTimestampsForChanges env) as [[t1 t2] tWeek].
  destruct overrideBlocks as [[|b1 [|b2 [|bWeek [|? ?]]]]|]; simpl in Hoverride;
    try congruence; unfold mbind, Fetch_bind; by rewrite Hreject.
Qed.

Lemma resolver_rejection_escapes_witness :
  getBulkPairData (withBlockResolver (λ _, Rejected "Network error") sampleServices)
    ["0xabc"%string] 2000%float None
  = Rejected "Network error".
Proof.
  apply (resolver_rejection_escapes sampleServices ["0xabc"%string] 2000%float None
           (λ _, Rejected "Network error") "Network error"); [discriminate | reflexivity].
Defined.

(** The stages inside the [try]: once the blocks are known, a rejection of any
    query resolves the call to [undefined], and nothing is rejected. *)
Lemma guarded_stages_resolve (env : Services) (pairList : list string)
    (nativeCurrencyPrice : float) (b1 b2 bWeek : Z) :
  getBulkPairData env pairList nativeCurrencyPrice (Some [b1; b2; bWeek])
  = Resolved (match bulkBody env pairList nativeCurrencyPrice b1 b2 bWeek with
              | Resolved pairData => Some pairData
              | Rejected _ => None
              end).
Proof.
  unfold getBulkPairData. destruct (getTimestampsForChanges env) as [[t1 t2] tWeek]. simpl.
  by destruct (bulkBody env pairList nativeCurrencyPrice b1 b2 bWeek).
Qed.

End BulkSpec.

(** ** Hourly rate candles *)

Module RatesSpec.
Import Rates.

Lemma hourStarts_returns (interval endTime : Z) :
  0 < interval →
  ∀ (fuel : nat) (time : Z),
    (enoughRounds time endTime ≤ fuel)%nat →
    is_Some (hourStarts fuel time endTime interval).
Proof.
  intros Hpos. unfold enoughRounds.
  induction fuel as [|fuel IH]; intros time Hfuel; simpl.
  - destruct (Z.leb_spec time endTime); [lia | eauto].
  - destruct (Z.leb_spec time endTime); [|eauto].
    destruct (IH (time + interval)) as [l ->]; [lia | simpl; eauto].
Qed.

Lemma sameValueZero_parseFloat_num (x : float) : sameValueZero x (parseFloat_num x) = true.
Proof.
  unfold sameValueZero, parseFloat_num, PrimFloat.is_nan.
  destruct (PrimFloat.eqb x 0) eqn:Hzero; [by rewrite Hzero|].
  by destruct (PrimFloat.eqb x x).
Qed.

(** The two histories after [n] rounds of the candle loop. *)
Lemma pushCandles_rounds (values : list Value.t) (n : nat) :
  (n ≤ length values - 1)%nat →
  ∃ history0 history1,
    foldl (pushCandles values) ([], []) (seq 0 n) = (history0, history1)
    ∧ length history0 = n ∧ length history1 = n
    ∧ ∀ (i : nat) (v w : Value.t),
        (i < n)%nat → values !! i = Some v → values !! S i = Some w →
        history0 !! i = Some (candle Value.rate0 v w)
        ∧ history1 !! i = Some (candle Value.rate1 v w).
Proof.
  induction n as [|n IH]; intros Hn.
  - exists [], []. repeat split; intros; lia.
  - destruct IH as (h0 & h1 & Hfold & Hlen0 & Hlen1 & Hat); [lia|].
    rewrite seq_S, foldl_app, Hfold. simpl. unfold pushCandles at 1. simpl.
    destruct (lookup_lt_is_Some_2 values n) as [v Hv]; [lia|].
    destruct (lookup_lt_is_Some_2 values (S n)) as [w Hw]; [lia|].
    rewrite Hv, Hw.
    exists (h0 ++ [candle Value.rate0 v w]), (h1 ++ [candle Value.rate1 v w]).
    split; [reflexivity|]. rewrite !length_app. simpl.
    split; [lia|]. split; [lia|].
    intros i v' w' Hi Hv' Hw'.
    destruct (decide (i = n)) as [->|Hne].
    + assert (v' = v) as -> by congruence. assert (w' = w) as -> by congruence.
      rewrite !lookup_app_r by lia. rewrite Hlen0, Hlen1, Nat.sub_diag. done.
    + rewrite !lookup_app_l by lia. apply Hat; [lia|done|done].
Qed.

Lemma ratesFrom_histories (result : list (string * option Rate)) :
  ∃ history0 history1,
    ratesFrom result = Series history0 history1
    ∧ pairsConsecutive Value.rate0 (rateValues result) history0
    ∧ pairsConsecutive Value.rate1 (rateValues result) history1.
Proof.
  unfold ratesFrom, formatHistoryRates.
  destruct (pushCandles_rounds (rateValues result) (length (rateValues result) - 1))
    as (h0 & h1 & -> & Hlen0 & Hlen1 & Hat); [lia|].
  exists h0, h1. split; [reflexivity|].
  split; (split; [done|]); intros i v w Hv Hw;
    (assert (i < length (rateValues result) - 1)%nat
       by (apply lookup_lt_Some in Hw; lia));
    destruct (Hat i v w) as [H0 H1]; try done.
  - exists (candle Value.rate0 v w). simpl.
    by rewrite !sameValueZero_parseFloat_num.
  - exists (candle Value.rate1 v w). simpl.
    by rewrite !sameValueZero_parseFloat_num.
Qed.

Lemma getPairRateData_body env pairAddress startTime interval latestBlock :
  0 < interval →
  ∃ timestamps,
    hourStartsUntil (utcEndTime env) startTime interval = Some timestamps
    ∧ getPairRateData env pairAddress startTime interval latestBlock
      = Some (orEmptySeries (ratesBody env (getBlocksForTimestamps env)
                               pairAddress latestBlock timestamps)).
Proof.
  intros Hpos. unfold getPairRateData, hourStartsUntil.
  destruct (hourStarts_returns interval (utcEndTime env) Hpos
              (enoughRounds startTime (utcEndTime env)) startTime) as [timestamps ->]; [lia|].
  by exists timestamps.
Qed.

Lemma getHourlyRateData_body env pairAddress startTime latestBlock :
  ∃ timestamps,
    hourStartsUntil (utcEndTime env - 3600) startTime 3600 = Some timestamps
    ∧ getHourlyRateData env pairAddress startTime latestBlock
      = Some (orEmptySeries (ratesBody env (λ ts, getBlocksFromTimestamps env ts 100)
                               pairAddress latestBlock timestamps)).
Proof.
  unfold getHourlyRateData, hourStartsUntil.
  destruct (hourStarts_returns 3600 (utcEndTime env - 3600) ltac:(lia)
              (enoughRounds startTime (utcEndTime env - 3600)) startTime)
    as [timestamps ->]; [lia|].
  by exists timestamps.
Qed.

Example getPairRateData_sample :
  getPairRateData sampleServices "0xabc" 3600 3600 (Some 30)
  = Some (Series (take 2 (sampleHistory [(10, 20); (20, 30); (30, 40)]%float))
                 (take 2 (sampleHistory [(10, 5); (5, 100 / 30); (100 / 30, 2.5)]%float))).
Proof. reflexivity. Qed.

(** The interval of zero keeps the loop at its start: no return. *)
Example getPairRateData_zero_interval :
  getPairRateData sampleServices "0xabc" 3600 0 None = None.
Proof. reflexivity. Qed.

Lemma pairsConsecutive_aligned (values : list Value.t) (history0 history1 : list Candle.t) :
  pairsConsecutive Value.rate0 values history0 →
  pairsConsecutive Value.rate1 values history1 →
  alignedHistories values history0 history1.
Proof.
  intros [Hlen0 Hat0] [Hlen1 Hat1]. split; [congruence|].
  intros i c0 c1 Hc0 Hc1.
  assert (i < length values - 1)%nat as Hi by (apply lookup_lt_Some in Hc0; lia).
  destruct (lookup_lt_is_Some_2 values i) as [v Hv]; [lia|].
  destruct (lookup_lt_is_Some_2 values (S i)) as [w Hw]; [lia|].
  destruct (Hat0 i v w Hv Hw) as (c0' & Hc0' & Ht0 & _).
  destruct (Hat1 i v w Hv Hw) as (c1' & Hc1' & Ht1 & _).
  assert (c0' = c0) as -> by congruence. assert (c1' = c1) as -> by congruence.
  split; [congruence|]. by exists v.
Qed.

Lemma ratesBody_aligned env resolve pairAddress latestBlock timestamps history0 history1 :
  orEmptySeries (ratesBody env resolve pairAddress latestBlock timestamps)
  = Series history0 history1 →
  ∃ values,
    (values = [] ∨ sampledBy env resolve pairAddress latestBlock timestamps values)
    ∧ alignedHistories values history0 history1.
Proof.
  assert (alignedHistories [] [] []) as Hempty.
  { split; [done|]. intros i c0 c1 Hc0. by rewrite lookup_nil in Hc0. }
  unfold ratesBody. case_bool_decide; [done|].
  destruct (resolve timestamps) as [[[|b blocks]|]|] eqn:Hblocks; simpl; try done.
  - destruct (splitQuery_HOURLY_PAIR_RATES env _ _ _) as [result|] eqn:Hquery; simpl.
    + destruct (ratesFrom_histories result) as (h0 & h1 & -> & Hcandles0 & Hcandles1).
      intros [= <- <-]. exists (rateValues result). split.
      * right. by exists (b :: blocks), result.
      * by apply pairsConsecutive_aligned.
    + intros [= <- <-]. exists []. auto.
  - intros [= <- <-]. exists []. auto.
Qed.

(** C10.  Whenever one of the two functions returns two histories, they have
    the same length and at every index the two candles carry one timestamp,
    that of the sample at this index. *)
Theorem histories_aligned (env : Services) (pairAddress : string)
    (startTime : Z) (latestBlock : option Z) (history0 history1 : list Candle.t) :
  (∀ interval : Z,
     getPairRateData env pairAddress startTime interval latestBlock
     = Some (Series history0 history1) →
     ∃ timestamps values,
       hourStartsUntil (utcEndTime env) startTime interval = Some timestamps
       ∧ (values = []
          ∨ sampledBy env (getBlocksForTimestamps env) pairAddress latestBlock timestamps values)
       ∧ alignedHistories values history0 history1)
  ∧ (getHourlyRateData env pairAddress startTime latestBlock
     = Some (Series history0 history1) →
     ∃ timestamps values,
       hourStartsUntil (utcEndTime env - 3600) startTime 3600 = Some timestamps
       ∧ (values = []
          ∨ sampledBy env (λ ts, getBlocksFromTimestamps env ts 100) pairAddress latestBlock
              timestamps values)
       ∧ alignedHistories values history0 history1).
Proof.
  split.
  - intros interval. unfold getPairRateData.
    destruct (hourStartsUntil _ _ _) as [timestamps|]; [|done]. simpl.
    intros [= Hout]. apply ratesBody_aligned in Hout as (values & Hvalues & Haligned).
    by exists timestamps, values.
  - unfold getHourlyRateData.
    destruct (hourStartsUntil _ _ _) as [timestamps|]; [|done]. simpl.
    intros [= Hout]. apply ratesBody_aligned in Hout as (values & Hvalues & Haligned).
    by exists timestamps, values.
Qed.

Lemma histories_aligned_witness :
  ∃ timestamps values,
    hourStartsUntil (utcEndTime sampleServices) 3600 3600 = Some timestamps
    ∧ (values = []
       ∨ sampledBy sampleServices (getBlocksForTimestamps sampleServices) "0xabc" None
           timestamps values)
    ∧ alignedHistories values
        (sampleHistory [(10, 20); (20, 30); (30, 40)]%float)
        (sampleHistory [(10, 5); (5, 100 / 30); (100 / 30, 2.5)]%float).
Proof.
  apply (proj1 (histories_aligned sampleServices "0xabc" 3600 None _ _) 3600).
  reflexivity.
Defined.

End RatesSpec.

(** ** The daily chart series *)

Module ChartSpec.
Import Chart.

Ltac day_arith :=
  unfold dayIndex, roundHalfUp, oneDay in *; Z.to_euclidean_division_equations; lia.

(** *** Sorting by date *)

Lemma insertSorted_perm {A} (compareFn : A → A → Z) (x : A) (l : list A) :
  insertSorted compareFn x l ≡ₚ x :: l.
Proof.
  induction l as [|y l IH]; simpl; [done|].
  destruct (compareFn y x >? 0); [done|].
  rewrite IH. apply Permutation_swap.
Qed.

Lemma sort_from_perm {A} (compareFn : A → A → Z) (l sorted : list A) :
  foldl (λ sorted x, insertSorted compareFn x sorted) sorted l ≡ₚ sorted ++ l.
Proof.
  revert sorted. induction l as [|x l IH]; intros sorted; simpl.
  - by rewrite app_nil_r.
  - rewrite IH, insertSorted_perm. simpl. apply Permutation_middle.
Qed.

Lemma sort_perm {A} (compareFn : A → A → Z) (l : list A) : sort compareFn l ≡ₚ l.
Proof. unfold sort. by rewrite sort_from_perm. Qed.

Lemma insertSorted_byDate_sorted (x : DayData) (l : list DayData) :
  StronglySorted dateLe l → StronglySorted dateLe (insertSorted byDate x l).
Proof.
  induction l as [|y l IH]; intros Hsorted; simpl.
  - repeat constructor.
  - apply StronglySorted_inv in Hsorted as [Hl Hy].
    unfold byDate at 1. destruct (Z.gtb_spec (date y) (date x)) as [Hgt|Hle]; simpl.
    + constructor; [by constructor|].
      constructor; [unfold dateLe; lia|].
      eapply Forall_impl; [exact Hy|]. unfold dateLe. intros z Hz. lia.
    + constructor; [by apply IH|].
      rewrite insertSorted_perm. constructor; [unfold dateLe; lia | done].
Qed.

Lemma sort_byDate_sorted (l : list DayData) : StronglySorted dateLe (sort byDate l).
Proof.
  unfold sort. generalize (@nil DayData) (SSorted_nil dateLe).
  induction l as [|x l IH]; intros sorted Hsorted; simpl; [done|].
  apply IH. by apply insertSorted_byDate_sorted.
Qed.

Lemma sorted_nodup_strict (l : list DayData) :
  StronglySorted dateLe l → NoDup (date <$> l) → StronglySorted dateLt l.
Proof.
  induction 1 as [|x l Hl IH Hx]; intros Hnodup; [constructor|].
  rewrite fmap_cons in Hnodup. apply NoDup_cons in Hnodup as [Hnotin Hnodup].
  constructor; [by apply IH|].
  apply Forall_forall. intros y Hy.
  rewrite Forall_forall in Hx. specialize (Hx y Hy).
  assert (date y ≠ date x).
  { intros Heq. apply Hnotin. rewrite <- Heq. by apply list_elem_of_fmap_2. }
  unfold dateLe, dateLt in *. lia.
Qed.

(** *** Day indices *)

Lemma dayIndex_add (t m : Z) : dayIndex (t + m * oneDay) = dayIndex t + m.
Proof. day_arith. Qed.

Lemma dayIndex_mono (a b : Z) : a ≤ b → dayIndex a ≤ dayIndex b.
Proof. intros. day_arith. Qed.

Lemma toFixed0_dayIndex (t : Z) : 0 ≤ t → toFixed0 t oneDay = pretty (dayIndex t).
Proof. intros Ht. unfold toFixed0. by destruct (Z.ltb_spec t 0); [lia|]. Qed.

Lemma dayIndexSet_elem (data : list DayData) (t : Z) :
  Forall (λ d, 0 < date d) data → 0 ≤ t →
  toFixed0 t oneDay ∈ (list_to_set ((λ d, toFixed0 (date d) oneDay) <$> data) : gset string)
  ↔ dayIndex t ∈ (λ d, dayIndex (date d)) <$> data.
Proof.
  intros Hpos Ht. rewrite elem_of_list_to_set, !list_elem_of_fmap.
  rewrite Forall_forall in Hpos.
  split; intros (d & Heq & Hd); exists d; (split; [|done]); specialize (Hpos d Hd).
  - rewrite !toFixed0_dayIndex in Heq by lia. by apply (inj pretty) in Heq.
  - rewrite !toFixed0_dayIndex by lia. by rewrite Heq.
Qed.

(** *** The loop that fills in the empty days *)

Lemma carried_none (latest : float) (known : list DayData) (i : Z) :
  Forall (λ q, i ≤ idxOf q) known → carried latest known i = latest.
Proof.
  unfold carried. induction 1 as [|q known Hq _ IH]; simpl; [done|].
  by destruct (Z.ltb_spec (idxOf q) i); [lia|].
Qed.

Section Fill.

Variable endTime : Z.
Variable arr : list DayData.
Hypothesis arr_positive : Forall (λ d, 0 < date d) arr.

Let dayIndexSet : gset string :=
  list_to_set ((λ dayData, toFixed0 (date dayData) oneDay) <$> arr).

Lemma filledFrom_step (ts : Z) (latest latest' : float) (known known' filled : list DayData) :
  (∀ m, 1 ≤ m →
     carried latest' known' (dayIndex ts + (m + 1)) = carried latest known (dayIndex ts + (m + 1))) →
  filledFrom endTime arr (ts + oneDay) latest' known' filled →
  Forall (λ d, ∃ m, 2 ≤ m ∧ ts + m * oneDay < endTime
                    ∧ d = emptyDay (ts + m * oneDay) (carried latest known (dayIndex ts + m))
                    ∧ dayIndex ts + m ∉ idxOf <$> arr) filled
  ∧ (∀ m, 2 ≤ m → ts + m * oneDay < endTime →
       dayIndex ts + m ∈ idxOf <$> arr ∨ ∃ d, d ∈ filled ∧ date d = ts + m * oneDay).
Proof.
  intros Hcarried (Hfilled & Hcomplete & _). split.
  - eapply Forall_impl; [exact Hfilled|]. simpl.
    intros d (m & Hm & Hend & -> & Hnotin).
    pose proof (dayIndex_add ts 1) as Hnext.
    replace (ts + 1 * oneDay) with (ts + oneDay) in Hnext by lia.
    exists (m + 1). rewrite Hnext in *.
    replace (ts + (m + 1) * oneDay) with (ts + oneDay + m * oneDay) by lia.
    replace (dayIndex ts + 1 + m) with (dayIndex ts + (m + 1)) in * by lia.
    rewrite Hcarried by lia. repeat split; (done || lia).
  - intros m Hm Hend.
    pose proof (dayIndex_add ts 1) as Hnext.
    replace (ts + 1 * oneDay) with (ts + oneDay) in Hnext by lia.
    destruct (Hcomplete (m - 1)) as [Hin | (d & Hd & Hdate)]; [lia | lia | |].
    + left. rewrite Hnext in Hin. by replace (dayIndex ts + m) with (dayIndex ts + 1 + (m - 1)) by lia.
    + right. exists d. split; [done|]. lia.
Qed.

Lemma fillDays_spec (fuel : nat) :
  ∀ (ts : Z) (latest : float) (index : nat) (data : list DayData),
    0 < ts →
    (Z.to_nat (endTime - oneDay - ts) ≤ fuel)%nat →
    StronglySorted idxLt (drop index arr) →
    Forall (λ q, dayIndex ts < idxOf q) (drop index arr) →
    Forall (λ q, idxOf q ≤ dayIndex ts) (take index arr) →
    ∃ filled,
      fillDays fuel endTime dayIndexSet arr ts latest index data = Some (Done (data ++ filled))
      ∧ filledFrom endTime arr ts latest (drop index arr) filled.
Proof.
  induction fuel as [|fuel IH]; intros ts latest index data Hts Hfuel Hsorted Hahead Hbehind.
  - exists []. simpl. destruct (Z.ltb_spec ts (endTime - oneDay)); [lia|].
    rewrite app_nil_r. split; [done|]. repeat split; [constructor | | constructor].
    intros m Hm Hend. unfold oneDay in *. lia.
  - simpl. destruct (Z.ltb_spec ts (endTime - oneDay)) as [Hrun|Hstop]; cycle 1.
    { exists []. rewrite app_nil_r. split; [done|]. repeat split; [constructor | | constructor].
      intros m Hm Hend. unfold oneDay in *. lia. }
    pose proof (dayIndex_add ts 1) as Hnext.
    replace (ts + 1 * oneDay) with (ts + oneDay) in Hnext by lia.
    assert (0 < ts + oneDay) as Hts' by (unfold oneDay; lia).
    assert (Z.to_nat (endTime - oneDay - (ts + oneDay)) ≤ fuel)%nat as Hfuel'
      by (unfold oneDay in *; lia).
    pose proof (dayIndexSet_elem arr (ts + oneDay) arr_positive ltac:(lia)) as Hset.
    fold dayIndexSet in Hset. rewrite Hnext in Hset.
    change (λ d, dayIndex (date d)) with idxOf in Hset.
    case_bool_decide as Hmissing.
    + (* an empty day *)
      assert (dayIndex ts + 1 ∉ idxOf <$> arr) as Hnotin by (by rewrite <- Hset).
      assert (Forall (λ q, dayIndex (ts + oneDay) < idxOf q) (drop index arr)) as Hahead'.
      { rewrite Forall_forall in Hahead |- *. intros q Hq. specialize (Hahead q Hq).
        assert (idxOf q ≠ dayIndex ts + 1).
        { intros Heq. apply Hnotin. rewrite <- Heq. apply list_elem_of_fmap_2.
          rewrite <- (take_drop index arr). apply elem_of_app. by right. }
        lia. }
      destruct (IH (ts + oneDay) latest index (data ++ [emptyDay (ts + oneDay) latest]))
        as (filled & -> & Hfrom); try done.
      { eapply Forall_impl; [exact Hbehind|]. simpl. intros q Hq. lia. }
      exists (emptyDay (ts + oneDay) latest :: filled).
      split; [by rewrite <- app_assoc|].
      destruct (filledFrom_step ts latest latest (drop index arr) (drop index arr) filled)
        as [Hfilled Hcomplete]; [done | done |].
      destruct Hfrom as (Hfilled' & _ & Hsorted').
      repeat split.
      * constructor.
        -- exists 1. rewrite carried_none.
           ++ replace (ts + 1 * oneDay) with (ts + oneDay) by lia. repeat split; (done || lia).
           ++ eapply Forall_impl; [exact Hahead|]. simpl. intros q Hq. lia.
        -- eapply Forall_impl; [exact Hfilled|]. simpl.
           intros d (m & ? & ? & ? & ?). exists m. repeat split; (done || lia).
      * intros m Hm Hend. destruct (decide (m = 1)) as [->|Hne].
        -- right. exists (emptyDay (ts + oneDay) latest).
           split; [by left | simpl; lia].
        -- destruct (Hcomplete m) as [Hin | (d & Hd & Hdate)]; [lia | done | by left |].
           right. exists d. split; [by right | done].
      * constructor; [done|].
        eapply Forall_impl; [exact Hfilled'|]. simpl.
        intros d (m & ? & ? & -> & ?). unfold dateLt, oneDay in *. simpl. lia.
    + (* a fetched day: the next one ahead *)
      apply Hset in Hmissing.
      apply list_elem_of_fmap in Hmissing as (q & Hq & Hqin).
      rewrite <- (take_drop index arr) in Hqin. apply elem_of_app in Hqin as [Hqin|Hqin].
      { rewrite Forall_forall in Hbehind. specialize (Hbehind q Hqin). lia. }
      destruct (drop index arr) as [|known rest] eqn:Hdrop; [by apply elem_of_nil in Hqin|].
      apply StronglySorted_inv in Hsorted as [Hrest Hknown].
      apply Forall_cons in Hahead as [Hahead_known Hahead_rest].
      assert (idxOf known = dayIndex ts + 1) as Hidx.
      { apply elem_of_cons in Hqin as [<-|Hqin]; [done|].
        rewrite Forall_forall in Hknown. specialize (Hknown q Hqin).
        unfold idxLt in Hknown. lia. }
      assert (arr !! index = Some known) as Hlookup.
      { rewrite <- (Nat.add_0_r index), <- lookup_drop, Hdrop. reflexivity. }
      rewrite Hlookup.
      assert (drop (S index) arr = rest) as Hdrop'.
      { rewrite (drop_S _ _ _ Hlookup) in Hdrop. congruence. }
      destruct (IH (ts + oneDay) (reserveUSD known) (S index) data)
        as (filled & -> & Hfrom); try done.
      { by rewrite Hdrop'. }
      { rewrite Hdrop', Hnext. eapply Forall_impl; [exact Hknown|]. simpl.
        unfold idxLt. intros z Hz. lia. }
      { rewrite (take_S_r _ _ _ Hlookup), Hnext. apply Forall_app. split.
        - eapply Forall_impl; [exact Hbehind|]. simpl. intros z Hz. lia.
        - constructor; [lia | constructor]. }
      exists filled. split; [done|]. rewrite Hdrop' in Hfrom.
      destruct (filledFrom_step ts latest (reserveUSD known) (known :: rest) rest filled)
        as [Hfilled Hcomplete]; [| done |].
      { intros m Hm. unfold carried at 2. simpl.
        by destruct (Z.ltb_spec (idxOf known) (dayIndex ts + (m + 1))); [|lia]. }
      destruct Hfrom as (_ & _ & Hsorted').
      repeat split; [| | done].
      * eapply Forall_impl; [exact Hfilled|]. simpl.
        intros d (m & ? & ? & ? & ?). exists m. repeat split; (done || lia).
      * intros m Hm Hend. destruct (decide (m = 1)) as [->|Hne].
        -- left. rewrite <- Hidx. apply list_elem_of_fmap_2.
           rewrite <- (take_drop index arr), Hdrop. apply elem_of_app. right. by left.
        -- apply Hcomplete; [lia | done].
Qed.

End Fill.

(** *** Sorted day indices *)

Lemma sorted_closed_seqZ (l : list Z) :
  ∀ a : Z,
    StronglySorted Z.lt l →
    (∀ x, x ∈ l → a ≤ x) →
    (∀ x y, x ∈ l → a ≤ y ≤ x → y ∈ l) →
    l = seqZ a (Z.of_nat (length l)).
Proof.
  induction l as [|x l IH]; intros a Hsorted Hmin Hclosed; [done|].
  apply StronglySorted_inv in Hsorted as [Hl Hx]. rewrite Forall_forall in Hx.
  assert (x = a) as ->.
  { pose proof (Hmin x ltac:(by left)) as Hle.
    assert (a ∈ x :: l) as Ha by (apply (Hclosed x a); [by left | lia]).
    apply elem_of_cons in Ha as [->|Ha]; [done|]. specialize (Hx a Ha). lia. }
  rewrite seqZ_cons by (simpl; lia). f_equal.
  replace (Z.pred (Z.of_nat (length (a :: l)))) with (Z.of_nat (length l)) by (simpl; lia).
  apply IH; [done| |].
  - intros y Hy. specialize (Hx y Hy). lia.
  - intros y z Hy Hz. assert (z ∈ a :: l) as Hin.
    { apply (Hclosed y); [by right | lia]. }
    apply elem_of_cons in Hin as [->|Hin]; [lia | done].
Qed.

Lemma idx_lt_date_lt (a b : DayData) : idxOf a < idxOf b → date a < date b.
Proof.
  unfold idxOf. intros Hlt.
  destruct (Z.lt_ge_cases (date a) (date b)) as [|Hge]; [done|].
  apply dayIndex_mono in Hge. lia.
Qed.

Lemma idxLt_NoDup (l : list DayData) : StronglySorted idxLt l → NoDup (idxOf <$> l).
Proof.
  induction 1 as [|x l _ IH Hx]; csimpl; constructor; [|done].
  intros Hin. apply list_elem_of_fmap in Hin as (y & Heq & Hy).
  rewrite Forall_forall in Hx. specialize (Hx y Hy). unfold idxLt in Hx. lia.
Qed.

Lemma idxLt_inj (l : list DayData) (a b : DayData) :
  StronglySorted idxLt l → a ∈ l → b ∈ l → idxOf a = idxOf b → a = b.
Proof.
  induction 1 as [|x l _ IH Hx]; intros Ha Hb Heq; [by apply elem_of_nil in Ha|].
  rewrite Forall_forall in Hx. unfold idxLt in Hx.
  apply elem_of_cons in Ha as [->|Ha]; apply elem_of_cons in Hb as [->|Hb]; auto.
  - specialize (Hx b Hb). lia.
  - specialize (Hx a Ha). lia.
Qed.

Lemma dateLt_idxLt (l : list DayData) :
  StronglySorted dateLt l → NoDup (idxOf <$> l) → StronglySorted idxLt l.
Proof.
  induction 1 as [|x l _ IH Hx]; intros Hnodup; [constructor|].
  rewrite fmap_cons in Hnodup. apply NoDup_cons in Hnodup as [Hnotin Hnodup].
  constructor; [by apply IH|].
  apply Forall_forall. intros y Hy.
  rewrite Forall_forall in Hx. specialize (Hx y Hy).
  assert (idxOf y ≠ idxOf x).
  { intros Heq. apply Hnotin. rewrite <- Heq. by apply list_elem_of_fmap_2. }
  unfold dateLt in Hx. unfold idxLt, idxOf in *.
  pose proof (dayIndex_mono (date x) (date y)). lia.
Qed.

(** What [carried] holds: the reserve in hand, or that of the last known day
    before [i]. *)
Lemma carried_known (known : list DayData) (i : Z) :
  ∀ latest : float,
    StronglySorted idxLt known →
    (carried latest known i = latest ∧ Forall (λ q, i ≤ idxOf q) known)
    ∨ ∃ q, q ∈ known ∧ idxOf q < i ∧ carried latest known i = reserveUSD q
           ∧ ∀ r, r ∈ known → idxOf r < i → idxOf r ≤ idxOf q.
Proof.
  induction known as [|q known IH]; intros latest Hsorted; [by left|].
  apply StronglySorted_inv in Hsorted as [Hknown Hq].
  rewrite Forall_forall in Hq. unfold idxLt in Hq.
  unfold carried. simpl. fold (carried (if idxOf q <? i then reserveUSD q else latest) known i).
  destruct (Z.ltb_spec (idxOf q) i) as [Hlt|Hge].
  - right. destruct (IH (reserveUSD q) Hknown) as [[Heq Hall] | (q' & Hq' & Hlt' & Heq & Hlast)].
    + exists q. split; [by left|]. repeat split; [done | done |].
      intros r Hr Hri. apply elem_of_cons in Hr as [->|Hr]; [lia|].
      rewrite Forall_forall in Hall. specialize (Hall r Hr). simpl in Hall. lia.
    + exists q'. split; [by right|]. repeat split; [done | done |].
      intros r Hr Hri. apply elem_of_cons in Hr as [->|Hr]; [|by apply Hlast].
      specialize (Hq q' Hq'). lia.
  - left. assert (Forall (λ r, i ≤ idxOf r) known) as Hall.
    { apply Forall_forall. intros r Hr. specialize (Hq r Hr). lia. }
    split; [by apply carried_none|]. constructor; [lia | done].
Qed.

Lemma dateLt_NoDup (l : list DayData) : StronglySorted dateLt l → NoDup l.
Proof.
  induction 1 as [|x l _ IH Hx]; constructor; [|done].
  intros Hin. rewrite Forall_forall in Hx. specialize (Hx x Hin). unfold dateLt in Hx. lia.
Qed.

(** *** The sorted series *)

Section Series.

Variable endTime : Z.
Variables (first : DayData) (rest filled out : list DayData).

Hypothesis in_range : Forall (λ d, 0 < date d < endTime) (first :: rest).
Hypothesis ascending : StronglySorted idxLt (first :: rest).
Hypothesis walked :
  filledFrom endTime (first :: rest) (date first) (reserveUSD first) rest filled.
Hypothesis permuted : out ≡ₚ (first :: rest) ++ filled.
Hypothesis ordered : StronglySorted dateLe out.

Lemma filled_day (d : DayData) :
  d ∈ filled →
  ∃ m, 1 ≤ m ∧ date d = date first + m * oneDay ∧ date d < endTime
       ∧ idxOf d = idxOf first + m
       ∧ (idxOf d ∉ idxOf <$> (first :: rest))
       ∧ d = emptyDay (date d) (carried (reserveUSD first) rest (idxOf d)).
Proof.
  destruct walked as (Hfilled & _ & _). rewrite Forall_forall in Hfilled.
  intros Hd. destruct (Hfilled d Hd) as (m & Hm & Hend & -> & Hnotin).
  exists m. unfold idxOf at 1 3 5. simpl. rewrite dayIndex_add. by repeat split.
Qed.

Lemma series_idx_NoDup : NoDup (idxOf <$> ((first :: rest) ++ filled)).
Proof.
  rewrite fmap_app. apply NoDup_app. split; [by apply idxLt_NoDup|]. split.
  - intros i Hi Hfilled. apply list_elem_of_fmap in Hfilled as (d & -> & Hd).
    by destruct (filled_day d Hd) as (m & _ & _ & _ & _ & Hnotin & _).
  - destruct walked as (_ & _ & Hsorted).
    apply NoDup_fmap_2_strong; [|by apply dateLt_NoDup].
    intros d1 d2 Hd1 Hd2 Heq.
    destruct (filled_day d1 Hd1) as (m1 & _ & Hdate1 & _ & Hidx1 & _ & ->).
    destruct (filled_day d2 Hd2) as (m2 & _ & Hdate2 & _ & Hidx2 & _ & ->).
    simpl in *. rewrite Heq. f_equal. lia.
Qed.

Lemma series_strictly_ascending : StronglySorted dateLt out.
Proof.
  apply sorted_nodup_strict; [done|].
  apply (NoDup_fmap_1 dayIndex). rewrite <- list_fmap_compose.
  change (dayIndex ∘ date) with idxOf. rewrite permuted. apply series_idx_NoDup.
Qed.

Lemma series_member (i : Z) :
  i ∈ idxOf <$> (first :: rest) → i ∈ idxOf <$> out.
Proof.
  intros Hi. rewrite permuted, fmap_app. apply elem_of_app. by left.
Qed.

Lemma series_covers (m : Z) :
  0 ≤ m → date first + m * oneDay < endTime → idxOf first + m ∈ idxOf <$> out.
Proof.
  intros Hm Hend. destruct (decide (m = 0)) as [->|Hne].
  { apply series_member. rewrite Z.add_0_r. apply list_elem_of_fmap_2. by left. }
  destruct walked as (_ & Hcomplete & _).
  destruct (Hcomplete m) as [Hin | (d & Hd & Hdate)]; [lia | done | by apply series_member |].
  rewrite permuted, fmap_app. apply elem_of_app. right.
  apply list_elem_of_fmap. exists d. split; [|done].
  unfold idxOf. rewrite Hdate. by rewrite dayIndex_add.
Qed.

Lemma series_day_indices :
  idxOf <$> out = seqZ (idxOf first) (Z.of_nat (length out)).
Proof.
  rewrite <- (length_fmap idxOf out).
  assert (∀ d, d ∈ (first :: rest) ++ filled →
               idxOf first ≤ idxOf d
               ∧ (date d < endTime)) as Hall.
  { intros d Hd. apply elem_of_app in Hd as [Hd|Hd].
    - rewrite Forall_forall in in_range. split; [|by apply in_range].
      apply elem_of_cons in Hd as [->|Hd]; [done|].
      apply StronglySorted_inv in ascending as [_ Hfirst].
      rewrite Forall_forall in Hfirst. specialize (Hfirst d Hd). unfold idxLt in Hfirst. lia.
    - destruct (filled_day d Hd) as (m & ? & ? & ? & ? & _). split; lia. }
  apply sorted_closed_seqZ.
  - apply (StronglySorted_fmap idxOf idxLt Z.lt); [done|].
    apply dateLt_idxLt; [apply series_strictly_ascending|].
    rewrite permuted. apply series_idx_NoDup.
  - intros i Hi. apply list_elem_of_fmap in Hi as (d & -> & Hd).
    rewrite permuted in Hd. by apply Hall.
  - intros i j Hi Hj. apply list_elem_of_fmap in Hi as (d & -> & Hd).
    rewrite permuted in Hd. destruct (Hall d Hd) as [_ Hend].
    destruct (decide (j = idxOf d)) as [->|Hne].
    { apply list_elem_of_fmap_2. by rewrite permuted. }
    replace j with (idxOf first + (j - idxOf first)) by lia.
    apply series_covers; [lia|].
    destruct (Z.lt_ge_cases (date first + (j - idxOf first) * oneDay) (date d)) as [|Hge];
      [lia|].
    apply dayIndex_mono in Hge. rewrite dayIndex_add in Hge. unfold idxOf in *. lia.
Qed.

Lemma series_reaches_yesterday :
  dayIndex (endTime - oneDay) < idxOf first + Z.of_nat (length out).
Proof.
  assert (∃ i, i ∈ idxOf <$> out ∧ dayIndex (endTime - oneDay) ≤ i) as (i & Hi & Hle).
  { destruct (Z.le_gt_cases (endTime - oneDay) (date first)) as [Hle|Hgt].
    - exists (idxOf first). split; [|by apply dayIndex_mono].
      apply series_member, list_elem_of_fmap_2. by left.
    - set (m := (endTime - 1 - date first) / oneDay).
      assert (1 ≤ m ∧ date first + m * oneDay < endTime
              ∧ endTime - oneDay ≤ date first + m * oneDay) as (Hm & Hend & Hlast).
      { subst m. unfold oneDay in *. Z.to_euclidean_division_equations. lia. }
      exists (idxOf first + m). split; [apply series_covers; lia|].
      unfold idxOf. rewrite <- dayIndex_add. by apply dayIndex_mono. }
  rewrite series_day_indices in Hi. apply elem_of_seqZ in Hi. lia.
Qed.

(** A day of the series is a fetched day, or an empty one that carries the
    reserve of the last fetched day before it. *)
Lemma series_day (d : DayData) :
  d ∈ out →
  d ∈ first :: rest
  ∨ (d ∈ filled
     ∧ dayString d = Some (date d)
     ∧ dailyVolumeUSD d = 0%float
     ∧ utilization d = Some 0%float
     ∧ ∃ known, known ∈ first :: rest
                ∧ date known < date d
                ∧ reserveUSD d = reserveUSD known
                ∧ ∀ other, other ∈ first :: rest → date other < date d →
                    date other ≤ date known).
Proof.
  rewrite permuted. intros Hd. apply elem_of_app in Hd as [Hd|Hd]; [by left|]. right.
  destruct (filled_day d Hd) as (m & Hm & Hdate & Hend & Hidx & Hnotin & Hshape).
  split; [done|]. do 3 (split; [by rewrite Hshape|]).
  assert (∀ other, other ∈ first :: rest → date other < date d → idxOf other < idxOf d)
    as Hbefore.
  { intros other Hother Hlt.
    assert (idxOf other ≠ idxOf d).
    { intros Heq. apply Hnotin. rewrite <- Heq. by apply list_elem_of_fmap_2. }
    pose proof (dayIndex_mono (date other) (date d)). unfold idxOf in *. lia. }
  apply StronglySorted_inv in ascending as [Hrest Hfirst].
  rewrite Forall_forall in Hfirst. unfold idxLt in Hfirst.
  destruct (carried_known rest (idxOf d) (reserveUSD first) Hrest)
    as [[Hcarried Hall] | (q & Hq & Hlt & Hcarried & Hlast)].
  - exists (first). split; [by left|]. unfold oneDay in *.
    split; [lia|]. split; [by rewrite Hshape; simpl|].
    intros other Hother Hdate_lt. pose proof (Hbefore other Hother Hdate_lt).
    apply elem_of_cons in Hother as [->|Hother]; [lia|].
    rewrite Forall_forall in Hall. specialize (Hall other Hother). simpl in Hall. lia.
  - exists q. split; [by right|].
    split; [by apply idx_lt_date_lt|]. split; [by rewrite Hshape; simpl|].
    intros other Hother Hdate_lt. pose proof (Hbefore other Hother Hdate_lt) as Hidx_lt.
    apply elem_of_cons in Hother as [->|Hother].
    + specialize (Hfirst q Hq). apply idx_lt_date_lt in Hfirst. lia.
    + specialize (Hlast other Hother Hidx_lt).
      destruct (decide (idxOf other = idxOf q)) as [Heq|Hne].
      * by rewrite (idxLt_inj rest other q Hrest Hother Hq Heq).
      * assert (idxOf other < idxOf q) as Hlt' by lia. apply idx_lt_date_lt in Hlt'. lia.
Qed.

End Series.

(** *** [getPairChartData] on rows in ascending order *)

Lemma dayIndexSet_dayOf (rows : list PairDayData) :
  (λ dayData, toFixed0 (date dayData) oneDay) <$> (fetched <$> rows)
  = (λ dayData, toFixed0 (date dayData) oneDay) <$> (dayOf <$> rows).
Proof. by rewrite <- !list_fmap_compose. Qed.

Lemma normalizeDays_fills (env : Services) (row0 : PairDayData) (rows : list PairDayData) :
  Forall (λ row, 0 < rowDate row < utcEndTime env) (row0 :: rows) →
  StronglySorted rowIdxLt (row0 :: rows) →
  ∃ filled,
    normalizeDays env (fetched <$> row0 :: rows)
    = Some (sort byDate ((dayOf <$> row0 :: rows) ++ filled))
    ∧ filledFrom (utcEndTime env) (dayOf <$> row0 :: rows)
        (date (dayOf row0)) (reserveUSD (dayOf row0)) (dayOf <$> rows) filled.
Proof.
  intros Hrange Hsorted. unfold normalizeDays.
  rewrite dayIndexSet_dayOf, <- list_fmap_compose.
  change (withUtilization ∘ fetched) with dayOf. rewrite fmap_cons.
  apply Forall_cons in Hrange as Hrange'. destruct Hrange' as [Hrow0 _].
  change (date (dayOf row0)) with (rowDate row0).
  destruct (Z.eqb_spec (rowDate row0) 0) as [|_]; [lia|].
  assert (Forall (λ d, 0 < date d) (dayOf row0 :: (dayOf <$> rows))) as Hpositive.
  { rewrite <- fmap_cons. apply Forall_fmap.
    eapply Forall_impl; [exact Hrange|]. simpl. intros row Hrow. lia. }
  assert (StronglySorted idxLt (dayOf row0 :: (dayOf <$> rows))) as Hascending.
  { rewrite <- fmap_cons. by apply (StronglySorted_fmap dayOf rowIdxLt idxLt). }
  apply StronglySorted_inv in Hascending as Hinv. destruct Hinv as [Hrest Hfirst].
  destruct (fillDays_spec (utcEndTime env) (dayOf row0 :: (dayOf <$> rows)) Hpositive
              (Z.to_nat (utcEndTime env - oneDay - rowDate row0))
              (rowDate row0) (reserveUSD (dayOf row0)) 1 (dayOf row0 :: (dayOf <$> rows)))
    as (filled & Hfill & Hfrom); [lia | lia | done | done | |].
  { constructor; [|constructor]. simpl. reflexivity. }
  exists filled. rewrite Hfill. split; [reflexivity | exact Hfrom].
Qed.

(** Rows for days 10, 12 and 15 at half past day 15: six days, the empty ones
    with the reserve before them. *)
Example getPairChartData_sample :
  (λ out : list DayData, (λ d, (idxOf d, dayString d, reserveUSD d)) <$> out)
  <$> getPairChartData 5
        (sampleServices [sampleRow 10 100; sampleRow 12 200; sampleRow 15 500]) "0xabc"
  = Some [(10, None, 100%float); (11, Some (11 * oneDay), 100%float);
          (12, None, 200%float); (13, Some (13 * oneDay), 200%float);
          (14, Some (14 * oneDay), 200%float); (15, None, 500%float)].
Proof. vm_compute. reflexivity. Qed.

(** Two rows for one day stay two days of the series. *)
Example getPairChartData_same_day :
  (λ out : list DayData, idxOf <$> out)
  <$> getPairChartData 5 (sampleServices [sampleRow 14 200; sampleRow 14 100]) "0xabc"
  = Some [14; 14; 15].
Proof. vm_compute. reflexivity. Qed.

(** Rows out of order: day 13 carries the reserve of day 11, not of day 12. *)
Example getPairChartData_unordered_reserve :
  (λ out : list DayData, (λ d, (idxOf d, reserveUSD d)) <$> out)
  <$> getPairChartData 5
        (sampleServices [sampleRow 10 100; sampleRow 12 200; sampleRow 11 300]) "0xabc"
  = Some [(10, 100%float); (11, 300%float); (12, 200%float);
          (13, 300%float); (14, 300%float); (15, 300%float)].
Proof. vm_compute. reflexivity. Qed.

(** C1, as the code has it.  When the pages arrive without a rejection and
    their rows are in ascending order, one row per calendar-day index, with
    positive dates before now, [getPairChartData] returns a series that is
    strictly ascending by date, holds exactly one day for each day index from
    that of the first row on without a gap, ends on the day index of now
    minus one day or on the next one, holds no day dated now or later and a
    day for each whole number of days after the first row that is before
    now, keeps every fetched row, and in which every other day is an empty
    day: dated a whole number of days after the first row, with no volume, no
    utilization, and the reserve of the last fetched row before it. *)
Theorem gap_fill_of_ascending_rows (maxPages : nat) (env : Services) (pairAddress : string)
    (row0 : PairDayData) (rows : list PairDayData) :
  fetchPages maxPages env pairAddress 0 [] = Some (Done (fetched <$> row0 :: rows)) →
  Forall (λ row, 0 < rowDate row < utcEndTime env) (row0 :: rows) →
  StronglySorted rowIdxLt (row0 :: rows) →
  ∃ out,
    getPairChartData maxPages env pairAddress = Some out
    ∧ StronglySorted dateLt out
    ∧ idxOf <$> out = seqZ (dayIndex (rowDate row0)) (Z.of_nat (length out))
    ∧ dayIndex (utcEndTime env - oneDay) < dayIndex (rowDate row0) + Z.of_nat (length out)
    ∧ dayIndex (rowDate row0) + Z.of_nat (length out) ≤ dayIndex (utcEndTime env - oneDay) + 2
    ∧ (∀ d, d ∈ out → date d < utcEndTime env)
    ∧ (∀ m, 0 ≤ m → rowDate row0 + m * oneDay < utcEndTime env →
         dayIndex (rowDate row0) + m ∈ idxOf <$> out)
    ∧ (∀ row, row ∈ row0 :: rows → dayOf row ∈ out)
    ∧ ∀ d, d ∈ out →
        (dayString d = None ∧ ∃ row, row ∈ row0 :: rows ∧ d = dayOf row)
        ∨ (dayString d = Some (date d)
           ∧ dailyVolumeUSD d = 0%float
           ∧ utilization d = Some 0%float
           ∧ (∃ m, 1 ≤ m ∧ date d = rowDate row0 + m * oneDay)
           ∧ ∃ known, known ∈ row0 :: rows
                      ∧ rowDate known < date d
                      ∧ reserveUSD d = rowReserveUSD known
                      ∧ ∀ other, other ∈ row0 :: rows → rowDate other < date d →
                          rowDate other ≤ rowDate known).
Proof.
  intros Hpages Hrange Hsorted.
  destruct (normalizeDays_fills env row0 rows Hrange Hsorted) as (filled & Hout & Hfrom).
  exists (sort byDate ((dayOf <$> row0 :: rows) ++ filled)). split.
  { unfold getPairChartData. rewrite Hpages. exact Hout. }
  set (out := sort byDate ((dayOf <$> row0 :: rows) ++ filled)).
  assert (Forall (λ d, 0 < date d < utcEndTime env) (dayOf row0 :: (dayOf <$> rows)))
    as Hrange'.
  { rewrite <- fmap_cons. apply Forall_fmap. eapply Forall_impl; [exact Hrange|]. done. }
  assert (StronglySorted idxLt (dayOf row0 :: (dayOf <$> rows))) as Hascending.
  { rewrite <- fmap_cons. by apply (StronglySorted_fmap dayOf rowIdxLt idxLt). }
  assert (out ≡ₚ (dayOf row0 :: (dayOf <$> rows)) ++ filled) as Hperm
    by apply sort_perm.
  assert (StronglySorted dateLe out) as Hordered by apply sort_byDate_sorted.
  rewrite fmap_cons in Hfrom.
  split; [by eapply series_strictly_ascending|].
  split; [by eapply (series_day_indices (utcEndTime env) (dayOf row0))|].
  split; [by eapply (series_reaches_yesterday (utcEndTime env) (dayOf row0))|].
  assert (∀ d, d ∈ out → date d < utcEndTime env) as Hdated.
  { intros d Hd. rewrite Hperm in Hd. apply elem_of_app in Hd as [Hd|Hd].
    - rewrite Forall_forall in Hrange'. by apply Hrange'.
    - by destruct (filled_day (utcEndTime env) (dayOf row0) (dayOf <$> rows) filled Hfrom d Hd)
        as (m & _ & _ & Hend & _). }
  split.
  { assert (idxOf <$> out = seqZ (dayIndex (rowDate row0)) (Z.of_nat (length out))) as Hidx
      by (by eapply (series_day_indices (utcEndTime env) (dayOf row0))).
    assert (dayOf row0 ∈ out) as Hfirst by (rewrite Hperm; apply elem_of_app; left; by left).
    assert (0 < length out)%nat as Hlen.
    { destruct out; [by apply elem_of_nil in Hfirst | simpl; lia]. }
    destruct (lookup_lt_is_Some_2 out (length out - 1)) as [d Hd]; [lia|].
    assert (idxOf d = dayIndex (rowDate row0) + Z.of_nat (length out - 1)) as Hlast.
    { assert ((idxOf <$> out) !! (length out - 1)%nat = Some (idxOf d)) as Hat
        by (by rewrite list_lookup_fmap, Hd).
      rewrite Hidx in Hat. by apply lookup_seqZ in Hat as [-> _]. }
    pose proof (Hdated d (list_elem_of_lookup_2 _ _ _ Hd)) as Hdate.
    pose proof (dayIndex_mono (date d) (utcEndTime env) ltac:(lia)) as Hmono.
    pose proof (dayIndex_add (utcEndTime env - oneDay) 1) as Hnext.
    replace (utcEndTime env - oneDay + 1 * oneDay) with (utcEndTime env) in Hnext by lia.
    unfold idxOf in Hlast. lia. }
  split; [exact Hdated|].
  split; [intros m Hm Hend; by eapply (series_covers (utcEndTime env) (dayOf row0))|].
  split.
  - intros row Hrow. rewrite Hperm. apply elem_of_app. left.
    rewrite <- fmap_cons. by apply list_elem_of_fmap_2.
  - intros d Hd.
    destruct (series_day (utcEndTime env) (dayOf row0) (dayOf <$> rows) filled out
                Hascending Hfrom Hperm d Hd)
      as [Hfetched
         | (Hempty & Hstring & Hvolume & Hutil & known & Hknown & Hlt & Hreserve & Hlast)].
    + left. rewrite <- fmap_cons in Hfetched.
      apply list_elem_of_fmap in Hfetched as (row & -> & Hrow). split; [done|]. by exists row.
    + right. do 3 (split; [done|]). split.
      { destruct (filled_day (utcEndTime env) (dayOf row0) (dayOf <$> rows) filled Hfrom
                    d Hempty) as (m & Hm & Hdate & _).
        by exists m. }
      rewrite <- fmap_cons in Hknown, Hlast.
      apply list_elem_of_fmap in Hknown as (row & -> & Hrow).
      exists row. do 3 (split; [done|]).
      intros other Hother Hbefore. apply (Hlast (dayOf other)); [|done].
      by apply list_elem_of_fmap_2.
Qed.

Lemma gap_fill_of_ascending_rows_witness :
  ∃ out,
    getPairChartData 5 (sampleServices [sampleRow 10 100; sampleRow 12 200; sampleRow 15 500])
      "0xabc" = Some out
    ∧ StronglySorted dateLt out
    ∧ idxOf <$> out = seqZ (dayIndex (rowDate (sampleRow 10 100))) (Z.of_nat (length out))
    ∧ dayIndex (utcEndTime (sampleServices [sampleRow 10 100; sampleRow 12 200;
                                            sampleRow 15 500]) - oneDay)
      < dayIndex (rowDate (sampleRow 10 100)) + Z.of_nat (length out)
    ∧ dayIndex (rowDate (sampleRow 10 100)) + Z.of_nat (length out)
      ≤ dayIndex (utcEndTime (sampleServices [sampleRow 10 100; sampleRow 12 200;
                                              sampleRow 15 500]) - oneDay) + 2
    ∧ (∀ d, d ∈ out → date d < utcEndTime (sampleServices [sampleRow 10 100; sampleRow 12 200;
                                                           sampleRow 15 500]))
    ∧ (∀ m, 0 ≤ m →
         rowDate (sampleRow 10 100) + m * oneDay
         < utcEndTime (sampleServices [sampleRow 10 100; sampleRow 12 200; sampleRow 15 500]) →
         dayIndex (rowDate (sampleRow 10 100)) + m ∈ idxOf <$> out)
    ∧ (∀ row, row ∈ [sampleRow 10 100; sampleRow 12 200; sampleRow 15 500] → dayOf row ∈ out)
    ∧ ∀ d, d ∈ out →
        (dayString d = None
         ∧ ∃ row, row ∈ [sampleRow 10 100; sampleRow 12 200; sampleRow 15 500] ∧ d = dayOf row)
        ∨ (dayString d = Some (date d)
           ∧ dailyVolumeUSD d = 0%float
           ∧ utilization d = Some 0%float
           ∧ (∃ m, 1 ≤ m ∧ date d = rowDate (sampleRow 10 100) + m * oneDay)
           ∧ ∃ known, known ∈ [sampleRow 10 100; sampleRow 12 200; sampleRow 15 500]
                      ∧ rowDate known < date d
                      ∧ reserveUSD d = rowReserveUSD known
                      ∧ ∀ other,
                          other ∈ [sampleRow 10 100; sampleRow 12 200; sampleRow 15 500] →
                          rowDate other < date d → rowDate other ≤ rowDate known).
Proof.
  apply (gap_fill_of_ascending_rows 5
           (sampleServices [sampleRow 10 100; sampleRow 12 200; sampleRow 15 500]) "0xabc"
           (sampleRow 10 100) [sampleRow 12 200; sampleRow 15 500]).
  - reflexivity.
  - repeat constructor; vm_compute; done.
  - repeat constructor; vm_compute; done.
Defined.

(** C1, as the claim states it, fails: rows out of order leave gaps.  The rows
    of days 14 and 10 give the days 10, 14 and 15; days 11 to 13 are missing. *)
Lemma gap_fill_unordered_counterexample :
  ¬ (∀ (maxPages : nat) (env : Services) (pairAddress : string)
       (rows : list PairDayData) (out : list DayData),
       fetchPages maxPages env pairAddress 0 [] = Some (Done (fetched <$> rows)) →
       getPairChartData maxPages env pairAddress = Some out →
       ∀ (i : nat) (a b : DayData),
         out !! i = Some a → out !! S i = Some b → idxOf b = idxOf a + 1).
Proof.
  intros Hclaim.
  assert (getPairChartData 5 (sampleServices [sampleRow 14 200; sampleRow 10 100]) "0xabc"
          = Some unorderedSeries) as Hrun by (vm_compute; reflexivity).
  specialize (Hclaim 5%nat (sampleServices [sampleRow 14 200; sampleRow 10 100]) "0xabc"
                [sampleRow 14 200; sampleRow 10 100] unorderedSeries eq_refl Hrun
                0%nat (dayOf (sampleRow 10 100)) (dayOf (sampleRow 14 200)) eq_refl eq_refl).
  vm_compute in Hclaim. discriminate.
Qed.

End ChartSpec.

(** ** More on the cache store *)

Module CacheMore.
Import Cache Hooks.

Lemma ownProp_obj (m : gmap string JsVal) (k : string) : ownProp (JObj m) k = getProp (JObj m) k.
Proof. unfold ownProp, getProp. simpl. by destruct (m !! k). Qed.

Lemma read_insert_obj (state : State) (key : string) (m : gmap string JsVal) (field : string) :
  getProp (read (<[key := JObj m]> state) key) field = default JUndef (m !! field).
Proof.
  unfold read. rewrite !CacheSpec.getProp_obj, lookup_insert_eq. simpl.
  by rewrite CacheSpec.getProp_obj.
Qed.

(** X1.  [UPDATE] merges: the entry it stores has every own property of
    [data], and under every other name the own property of the entry that
    was there. *)
Theorem update_merges (state : State) (pairAddress : string) (data : JsVal) :
  ∃ state',
    reducer state (UPDATE pairAddress data) = Some state'
    ∧ ∀ field : string,
        getProp (read state' pairAddress) field
        = match ownProps data !! field with
          | Some value => value
          | None => ownProp (read state pairAddress) field
          end.
Proof.
  simpl. eexists; split; [reflexivity|]. intros field.
  rewrite read_insert_obj. unfold spread2, ownProp, read.
  rewrite lookup_union. by destruct (ownProps data !! field), (ownProps _ !! field).
Qed.

Lemma foldl_filed (pairs : list JsVal) (key : string) :
  ∀ filed : gmap string JsVal,
    foldl (λ reducedPairs pair, <[pairKey pair := pair]> reducedPairs) filed pairs !! key
    = match last (filter (λ pair, pairKey pair = key) pairs) with
      | Some p => Some p
      | None => filed !! key
      end.
Proof.
  induction pairs as [|p pairs IH]; intros filed; simpl; [done|].
  rewrite IH, filter_cons. case_decide as Hkey.
  - rewrite last_cons. destruct (last (filter _ pairs)); [done|].
    by rewrite <- Hkey, lookup_insert_eq.
  - destruct (last (filter _ pairs)); [done|]. by rewrite lookup_insert_ne.
Qed.

(** X2.  [UPDATE_TOP_PAIRS] replaces the partition of its network as a whole:
    under an id it holds the last listed pair with this id and nothing for an
    id that is not listed, whatever was there; the partitions of the other
    networks and all other keys of the state stay. *)
Theorem top_pairs_replaced (state : State) (pairs : list JsVal) (network : string) :
  ∃ state',
    reducer state (UPDATE_TOP_PAIRS (Some pairs) network) = Some state'
    ∧ (∀ id : string,
         getProp (getProp (read state' "topPairs") network) id = lastFiled pairs id)
    ∧ (∀ other : string, other ≠ network →
         getProp (read state' "topPairs") other = ownProp (read state "topPairs") other)
    ∧ (∀ key : string, key ≠ "topPairs"%string → state' !! key = state !! key).
Proof.
  simpl. eexists; split; [reflexivity|]. repeat split.
  - intros id. rewrite read_insert_obj, lookup_insert_eq. simpl.
    rewrite CacheSpec.getProp_obj, foldl_filed. unfold lastFiled.
    by destruct (last _).
  - intros other Hother. rewrite read_insert_obj, lookup_insert_ne by done. done.
  - intros key Hkey. by rewrite lookup_insert_ne.
Qed.

(** X3.  [UPDATE_HOURLY_DATA] round trip: the series reads back under its
    address, window and interval; the series of the other intervals of the
    window and the other fields of the record stay. *)
Theorem hourly_update_round_trip (state : State) (address : string) (data : JsVal)
    (timeWindow : string) (interval : Z) :
  ∃ state',
    reducer state (UPDATE_HOURLY_DATA address data timeWindow interval) = Some state'
    ∧ getProp (getProp (read state' address) timeWindow) (pretty interval) = data
    ∧ (∀ interval' : Z, interval' ≠ interval →
         getProp (getProp (read state' address) timeWindow) (pretty interval')
         = ownProp (getProp (read state address) timeWindow) (pretty interval'))
    ∧ (∀ field : string, field ≠ timeWindow →
         getProp (read state' address) field = ownProp (read state address) field).
Proof.
  simpl. eexists; split; [reflexivity|]. repeat split.
  - rewrite read_insert_obj, lookup_insert_eq. simpl.
    by rewrite CacheSpec.getProp_obj, lookup_insert_eq.
  - intros interval' Hne. rewrite read_insert_obj, lookup_insert_eq. simpl.
    rewrite CacheSpec.getProp_obj, lookup_insert_ne; [done|].
    intros Heq. by apply (inj pretty) in Heq.
  - intros field Hfield. by rewrite read_insert_obj, lookup_insert_ne.
Qed.

(** X4.  On an address whose entry is missing or falsy, [UPDATE_CHART_DATA]
    and [UPDATE_PAIR_TXNS] store a record with their one field and no
    other. *)
Theorem put_on_missing_entry (state : State) (address : string) (payload : JsVal) :
  truthy (read state address) = false →
  reducer state (UPDATE_CHART_DATA address payload)
  = Some (<[address := JObj {[ "chartData"%string := payload ]}]> state)
  ∧ reducer state (UPDATE_PAIR_TXNS address payload)
    = Some (<[address := JObj {[ "txns"%string := payload ]}]> state).
Proof.
  intros Hfalsy. unfold read in Hfalsy. simpl. unfold safeAccess. simpl.
  rewrite Hfalsy. simpl. by rewrite !insert_empty.
Qed.

Lemma put_on_missing_entry_witness :
  reducer ∅ (UPDATE_CHART_DATA "0xa" (JArr []))
  = Some (<["0xa"%string := JObj {[ "chartData"%string := JArr [] ]}]> ∅)
  ∧ reducer ∅ (UPDATE_PAIR_TXNS "0xa" (JArr []))
    = Some (<["0xa"%string := JObj {[ "txns"%string := JArr [] ]}]> ∅).
Proof. apply (put_on_missing_entry ∅ "0xa" (JArr [])). reflexivity. Defined.

Lemma safeAccess_from_null (path : list string) :
  foldl (λ accumulator currentValue,
           if truthy accumulator && truthy (getProp accumulator currentValue)
           then getProp accumulator currentValue else JNull) JNull path = JNull.
Proof. induction path as [|k path IH]; simpl; done. Qed.

Lemma safeAccess_cons (object : JsVal) (k : string) (path : list string) :
  safeAccess object (k :: path)
  = if truthy object && truthy (getProp object k)
    then safeAccess (getProp object k) path else JNull.
Proof.
  unfold safeAccess. simpl. destruct (truthy object); [|done]. simpl.
  destruct (truthy (getProp object k)); [done|]. apply safeAccess_from_null.
Qed.

(** X5.  [safeAccess] follows the path while the values are truthy, and with a
    path to follow it returns [null] or a truthy value: a property that is
    missing and one that holds [0], [""], [false] or [NaN] are both answered
    [null]. *)
Theorem safeAccess_null_or_truthy (object : JsVal) (path : list string) :
  (∀ k rest, path = k :: rest →
     safeAccess object path
     = if truthy object && truthy (getProp object k)
       then safeAccess (getProp object k) rest else JNull)
  ∧ (path ≠ [] →
     safeAccess object path = JNull ∨ truthy (safeAccess object path) = true).
Proof.
  split; [intros k rest ->; apply safeAccess_cons|].
  revert object. induction path as [|k path IH]; intros object Hpath; [done|].
  rewrite safeAccess_cons.
  destruct (truthy object && truthy (getProp object k)) eqn:Hstep; [|by left].
  apply andb_true_iff in Hstep as [_ Hvalue].
  destruct path as [|k' path]; [|by apply IH].
  right. unfold safeAccess. by rewrite Hvalue.
Qed.

Lemma safeAccess_null_or_truthy_witness :
  safeAccess (JObj {[ "a"%string := JNum 0 ]}) ["a"%string] = JNull
  ∨ truthy (safeAccess (JObj {[ "a"%string := JNum 0 ]}) ["a"%string]) = true.
Proof.
  apply (proj2 (safeAccess_null_or_truthy (JObj {[ "a"%string := JNum 0 ]}) ["a"%string])).
  discriminate.
Defined.

(** X6.  [UPDATE_CHART_DATA] and [UPDATE_PAIR_TXNS] commute, on one address
    or on two: whichever is dispatched first, the same state results. *)
Theorem chart_and_txns_commute (state : State) (address1 address2 : string)
    (chartData transactions : JsVal) :
  (reducer state (UPDATE_CHART_DATA address1 chartData)
     ≫= λ state', reducer state' (UPDATE_PAIR_TXNS address2 transactions))
  = (reducer state (UPDATE_PAIR_TXNS address2 transactions)
       ≫= λ state', reducer state' (UPDATE_CHART_DATA address1 chartData)).
Proof.
  simpl. f_equal. unfold safeAccess. simpl.
  rewrite !CacheSpec.getProp_obj.
  destruct (decide (address1 = address2)) as [->|Hne].
  - rewrite !lookup_insert_eq. simpl. rewrite !insert_insert_eq.
    f_equal. f_equal. by apply insert_insert_ne.
  - rewrite !lookup_insert_ne by done. by apply insert_insert_ne.
Qed.

(** X7.  A series that was stored is not missing: after the update of a
    fetched chart series, transaction object or rate series, the test of the
    hook that fetches it is false, also for the empty array and the empty
    object that the fetchers return after a failure. *)
Theorem stored_series_is_not_missing (state : State) (address timeWindow : string)
    (interval : Z) (series : list JsVal) (transactions : gmap string JsVal) :
  (∃ state', reducer state (UPDATE_CHART_DATA address (JArr series)) = Some state'
             ∧ chartDataMissing state' address = false)
  ∧ (∃ state', reducer state (UPDATE_PAIR_TXNS address (JObj transactions)) = Some state'
               ∧ txnsMissing state' address = false)
  ∧ (∃ state',
       reducer state (UPDATE_HOURLY_DATA address (JArr series) timeWindow interval)
       = Some state'
       ∧ rateDataMissing state' address timeWindow interval = false).
Proof.
  repeat split; simpl; (eexists; split; [reflexivity|]);
    unfold chartDataMissing, txnsMissing, rateDataMissing;
    rewrite (CacheSpec.getProp_obj (<[address := _]> state)), lookup_insert_eq; simpl;
    rewrite CacheSpec.getProp_obj, lookup_insert_eq; simpl; [done | done |].
  by rewrite CacheSpec.getProp_obj, lookup_insert_eq.
Qed.

End CacheMore.

(** ** More on the bulk pair fetcher *)

Module BulkMore.
Import Bulk BulkTerms.

Lemma decodeFees_elsewhere (decode : string → Fetch Z) (pairIds : list string) (key : string) :
  ∀ (rest : list string) (i : nat) (fees : gmap string Z),
    (i + length rest)%nat = length pairIds →
    key ∉ drop i pairIds →
    decodeFees decode pairIds rest i fees !! key = fees !! key.
Proof.
  induction rest as [|blob rest IH]; intros i fees Hlen Hkey; simpl in *; [done|].
  destruct (decode blob) as [fee|]; [|done].
  destruct (lookup_lt_is_Some_2 pairIds i) as [idi Hi]; [lia|].
  rewrite (drop_S _ _ _ Hi) in Hkey. apply not_elem_of_cons in Hkey as [Hne Hkey].
  rewrite IH by (done || lia). rewrite Hi. simpl. by rewrite lookup_insert_ne.
Qed.

Lemma decodeFees_at (decode : string → Fetch Z) (pairIds : list string) :
  NoDup pairIds →
  ∀ (rest : list string) (i : nat) (fees : gmap string Z) (j : nat) (key : string),
    (i + length rest)%nat = length pairIds →
    pairIds !! (i + j)%nat = Some key →
    decodeFees decode pairIds rest i fees !! key
    = match decodedPrefix decode rest !! j with
      | Some fee => Some fee
      | None => fees !! key
      end.
Proof.
  intros Hnodup. induction rest as [|blob rest IH]; intros i fees j key Hlen Hkey; simpl in *.
  - apply lookup_lt_Some in Hkey. lia.
  - destruct (decode blob) as [fee|]; [|done].
    destruct (lookup_lt_is_Some_2 pairIds i) as [idi Hi]; [lia|].
    rewrite Hi. simpl. destruct j as [|j].
    + rewrite Nat.add_0_r, Hi in Hkey. injection Hkey as ->.
      rewrite decodeFees_elsewhere; [by rewrite lookup_insert_eq | lia |].
      intros Hin. apply list_elem_of_lookup in Hin as [k Hk]. rewrite lookup_drop in Hk.
      pose proof (NoDup_lookup _ _ _ _ Hnodup Hi Hk). lia.
    + rewrite (IH (S i) _ j key); [|lia|by rewrite <- Hkey; f_equal; lia].
      simpl. destruct (decodedPrefix decode rest !! j); [done|].
      rewrite lookup_insert_ne; [done|]. intros ->.
      pose proof (NoDup_lookup _ _ _ _ Hnodup Hi Hkey). lia.
Qed.

(** X8.  When the multicall answers one blob per pair id and the ids are
    distinct, [getPairsSwapFee] holds for the id at position [i] the fee
    decoded from the blob at [i] as long as every blob up to [i] decodes: from
    the first blob that does not decode on, no id has a fee. *)
Theorem swap_fees_until_first_failure (env : Services) (pairIds returnData : list string) :
  multicall_aggregate env (swapFeeCalls pairIds) = Resolved returnData →
  length pairIds = length returnData →
  NoDup pairIds →
  (∀ (i : nat) (pairId : string),
     pairIds !! i = Some pairId →
     getPairsSwapFee env pairIds !! pairId = decodedPrefix (decodeSwapFee env) returnData !! i)
  ∧ ∀ key : string, key ∉ pairIds → getPairsSwapFee env pairIds !! key = None.
Proof.
  intros Hcall Hlen Hnodup. unfold getPairsSwapFee. rewrite Hcall.
  case_bool_decide; [done|]. split.
  - intros i pairId Hi.
    rewrite (decodeFees_at _ pairIds Hnodup returnData 0 ∅ i pairId); [|simpl; lia|done].
    rewrite lookup_empty. by destruct (decodedPrefix _ _ !! i).
  - intros key Hkey. rewrite decodeFees_elsewhere; [done | simpl; lia | done].
Qed.

Lemma swap_fees_until_first_failure_witness :
  (∀ (i : nat) (pairId : string),
     twoPairIds !! i = Some pairId →
     getPairsSwapFee halfDecodingServices twoPairIds !! pairId
     = decodedPrefix (decodeSwapFee halfDecodingServices) ["0x1e"; "0x"]%string !! i)
  ∧ ∀ key : string, key ∉ twoPairIds →
      getPairsSwapFee halfDecodingServices twoPairIds !! key = None.
Proof.
  apply (swap_fees_until_first_failure halfDecodingServices twoPairIds ["0x1e"; "0x"]%string).
  - reflexivity.
  - reflexivity.
  - apply NoDup_cons. split; [|apply NoDup_singleton].
    intros Hin. apply list_elem_of_singleton in Hin. discriminate.
Defined.

Example getPairsSwapFee_half_decoded :
  getPairsSwapFee halfDecodingServices twoPairIds = {[ "0xabc"%string := 30 ]}.
Proof. reflexivity. Qed.

(** The run behind the records [getBulkPairData] resolved to. *)
Lemma getBulkPairData_resolved env pairList price overrideBlocks records :
  getBulkPairData env pairList price overrideBlocks = Resolved (Some records) →
  ∃ pairs d1 d2 dw b1 b2 bWeek,
    query_PAIRS_BULK env pairList = Resolved (Pairs pairs)
    ∧ Forall2 (λ p r, derivePair env (getPairsSwapFee env pairList) d1 d2 dw price
                        b1 b2 bWeek p = Resolved r) pairs records.
Proof.
  intros Hrun.
  destruct (BulkSpec.getBulkPairData_blocks env pairList price overrideBlocks)
    as [[e He]|(b1 & b2 & bWeek & Hbody & _)]; [congruence|].
  rewrite Hrun in Hbody.
  destruct (bulkBody env pairList price b1 b2 bWeek) as [rs|] eqn:Hrs; [|discriminate].
  injection Hbody as ->. revert Hrs. unfold bulkBody, mbind, Fetch_bind.
  destruct (query_PAIRS_BULK env pairList) as [current|]; [|discriminate].
  destruct (query_PAIRS_HISTORICAL_BULK env b1 pairList) as [r1|]; [|discriminate].
  destruct (query_PAIRS_HISTORICAL_BULK env b2 pairList) as [r2|]; [|discriminate].
  destruct (query_PAIRS_HISTORICAL_BULK env bWeek pairList) as [r3|]; [|discriminate].
  destruct (indexById r1) as [d1|]; [|discriminate].
  destruct (indexById r2) as [d2|]; [|discriminate].
  destruct (indexById r3) as [dw|]; [|discriminate].
  destruct current as [| |pairs]; [discriminate|discriminate|].
  intros Hall. apply BulkSpec.awaitAll_resolved in Hall.
  by exists pairs, d1, d2, dw, b1, b2, bWeek.
Qed.

Lemma derivePair_derivedFrom env fees d1 d2 dw price b1 b2 bWeek p r :
  derivePair env fees d1 d2 dw price b1 b2 bWeek p = Resolved r → derivedFrom p r.
Proof.
  unfold derivePair, mbind, Fetch_bind, mret, Fetch_ret.
  destruct (historyAt env d1 _ _) as [h1|]; [|discriminate].
  destruct (historyAt env d2 _ _) as [h2|]; [|discriminate].
  destruct (historyAt env dw _ _) as [hw|]; [|discriminate].
  intros [= <-]. unfold derivedFrom, parseData.
  destruct (get2DayPercentChange _ _ _), (get2DayPercentChange _ _ _), (updateNameData _ _ _).
  by destruct h1, hw, (createdAtBlockNumber p >? b1); simpl; eauto 10.
Qed.

(** X9.  The records [getBulkPairData] returns follow the pairs of the
    current bulk result, one record per pair and in their order, each with the
    id and the raw fields of its pair and a swap fee; an id of [pairList] that
    the result lacks gets no record. *)
Theorem one_record_per_current_pair (env : Services) (pairList : list string)
    (nativeCurrencyPrice : float) (overrideBlocks : option (list Z))
    (records : list PairData) :
  getBulkPairData env pairList nativeCurrencyPrice overrideBlocks = Resolved (Some records) →
  ∃ pairs,
    query_PAIRS_BULK env pairList = Resolved (Pairs pairs)
    ∧ Forall2 derivedFrom pairs records
    ∧ id ∘ pair <$> records = id <$> pairs.
Proof.
  intros Hrun.
  apply getBulkPairData_resolved in Hrun as (pairs & d1 & d2 & dw & b1 & b2 & bWeek & Hcurrent & Hall).
  exists pairs. split; [done|].
  assert (Forall2 derivedFrom pairs records) as Hderived.
  { eapply Forall2_impl; [exact Hall|]. intros p r. apply derivePair_derivedFrom. }
  split; [done|].
  clear Hall Hcurrent. induction Hderived as [|p r pairs records [Hid _] _ IH]; [done|].
  csimpl. by rewrite Hid, IH.
Qed.

Lemma one_record_per_current_pair_witness :
  ∃ pairs,
    query_PAIRS_BULK sampleServices twoPairIds = Resolved (Pairs pairs)
    ∧ Forall2 derivedFrom pairs
        [set_swapFee 30 (parseData sampleServices samplePair (Some sampleDayAgo) None None
                           2000%float 100)]
    ∧ id ∘ pair <$> [set_swapFee 30 (parseData sampleServices samplePair (Some sampleDayAgo)
                                       None None 2000%float 100)]
      = id <$> pairs.
Proof.
  apply (one_record_per_current_pair sampleServices twoPairIds 2000%float None). reflexivity.
Defined.

(** X10.  When the multicall is rejected or answers with another number of
    blobs than pair ids, every record of the batch carries the default fee
    of 25. *)
Theorem failed_multicall_defaults_every_fee (env : Services) (pairList : list string)
    (nativeCurrencyPrice : float) (overrideBlocks : option (list Z))
    (records : list PairData) :
  match multicall_aggregate env (swapFeeCalls pairList) with
  | Rejected _ => True
  | Resolved returnData => length pairList ≠ length returnData
  end →
  getBulkPairData env pairList nativeCurrencyPrice overrideBlocks = Resolved (Some records) →
  Forall (λ r, swapFee r = Some 25) records.
Proof.
  intros Hcall Hrun.
  assert (getPairsSwapFee env pairList = ∅) as Hfees.
  { unfold getPairsSwapFee. destruct (multicall_aggregate env _); [|done].
    by case_bool_decide. }
  apply getBulkPairData_resolved in Hrun as (pairs & d1 & d2 & dw & b1 & b2 & bWeek & _ & Hall).
  rewrite Hfees in Hall.
  induction Hall as [|p r pairs records Hp _ IH]; constructor; [|done].
  apply BulkSpec.derivePair_swapFee in Hp as [_ ->]. unfold feeOrDefault.
  by rewrite lookup_empty.
Qed.

Lemma failed_multicall_defaults_every_fee_witness :
  Forall (λ r, swapFee r = Some 25)
    [set_swapFee 25 (parseData sampleServices samplePair (Some sampleDayAgo) None None
                       2000%float 100)].
Proof.
  apply (failed_multicall_defaults_every_fee
           (withFeeServices (λ _, Rejected "call exception") (decodeSwapFee sampleServices)
              sampleServices)
           ["0xabc"%string] 2000%float None); [exact I | reflexivity].
Defined.

(** X11.  With three override blocks the block resolver is not asked: any
    resolver gives the same outcome; an override of another length counts as
    none. *)
Theorem override_blocks_skip_resolver (env : Services) (pairList : list string)
    (nativeCurrencyPrice : float) :
  (∀ (b1 b2 bWeek : Z) (resolver : list Z → Fetch (list Block)),
     getBulkPairData (withBlockResolver resolver env) pairList nativeCurrencyPrice
       (Some [b1; b2; bWeek])
     = getBulkPairData env pairList nativeCurrencyPrice (Some [b1; b2; bWeek]))
  ∧ ∀ blocks : list Z, length blocks ≠ 3%nat →
      getBulkPairData env pairList nativeCurrencyPrice (Some blocks)
      = getBulkPairData env pairList nativeCurrencyPrice None.
Proof.
  split.
  - intros b1 b2 bWeek resolver. unfold getBulkPairData. simpl.
    by destruct (getTimestampsForChanges env) as [[t1 t2] tWeek].
  - intros blocks Hlen. unfold getBulkPairData.
    destruct (getTimestampsForChanges env) as [[t1 t2] tWeek].
    by destruct blocks as [|o1 [|o2 [|o3 [|o4 os]]]].
Qed.

Lemma override_blocks_skip_resolver_witness :
  getBulkPairData sampleServices ["0xabc"%string] 2000%float (Some [100; 90])
  = getBulkPairData sampleServices ["0xabc"%string] 2000%float None.
Proof.
  apply (proj2 (override_blocks_skip_resolver sampleServices ["0xabc"%string] 2000%float)).
  simpl. lia.
Defined.

(** X12.  [getBulkPairData] is rejected in one situation only: it has to
    resolve the blocks itself and the resolver is rejected, with its error, or
    resolves to fewer than three blocks, with a [TypeError]. *)
Theorem rejected_only_by_block_resolution (env : Services) (pairList : list string)
    (nativeCurrencyPrice : float) (overrideBlocks : option (list Z)) (error : string) :
  getBulkPairData env pairList nativeCurrencyPrice overrideBlocks = Rejected error
  ↔ length <$> overrideBlocks ≠ Some 3%nat
    ∧ (getBlocksFromTimestamps env (changeTimestamps env) = Rejected error
       ∨ ∃ blocks, getBlocksFromTimestamps env (changeTimestamps env) = Resolved blocks
                   ∧ (length blocks < 3)%nat ∧ error = "TypeError"%string).
Proof.
  unfold getBulkPairData, changeTimestamps.
  destruct (getTimestampsForChanges env) as [[t1 t2] tWeek].
  assert (∀ b1 b2 bWeek,
            match bulkBody env pairList nativeCurrencyPrice b1 b2 bWeek with
            | Resolved pairData => Resolved (Some pairData)
            | Rejected _ => Resolved None
            end ≠ @Rejected (option (list PairData)) error) as Hcaught.
  { intros b1 b2 bWeek. by destruct (bulkBody _ _ _ _ _ _). }
  assert (length <$> overrideBlocks = Some 3%nat
          → ∃ b1 b2 bWeek, overrideBlocks = Some [b1; b2; bWeek]) as Hthree.
  { destruct overrideBlocks as [[|o1 [|o2 [|o3 [|o4 os]]]]|]; simpl; intros [=]. eauto. }
  destruct (decide (length <$> overrideBlocks = Some 3%nat)) as [Hlen|Hlen].
  { destruct (Hthree Hlen) as (b1 & b2 & bWeek & ->). simpl. split.
    - intros Hrun. by apply Hcaught in Hrun.
    - by intros [Hne _]. }
  assert ((blocks ← match overrideBlocks with
                    | Some [b1; b2; bWeek] => Resolved (b1, b2, bWeek)
                    | _ =>
                        resolved ← getBlocksFromTimestamps env [t1; t2; tWeek];
                        match resolved with
                        | x :: y :: z :: _ => Resolved (number x, number y, number z)
                        | _ => Rejected "TypeError"
                        end
                    end;
           let '(b1, b2, bWeek) := blocks in
           match bulkBody env pairList nativeCurrencyPrice b1 b2 bWeek with
           | Resolved pairData => Resolved (Some pairData)
           | Rejected _ => Resolved None
           end)
          = (resolved ← getBlocksFromTimestamps env [t1; t2; tWeek];
             match resolved with
             | x :: y :: z :: _ =>
                 match bulkBody env pairList nativeCurrencyPrice
                         (number x) (number y) (number z) with
                 | Resolved pairData => Resolved (Some pairData)
                 | Rejected _ => Resolved None
                 end
             | _ => Rejected "TypeError"
             end)) as ->.
  { destruct overrideBlocks as [[|o1 [|o2 [|o3 [|o4 os]]]]|]; simpl in Hlen; try done;
      unfold mbind, Fetch_bind;
      by destruct (getBlocksFromTimestamps env [t1; t2; tWeek]) as [[|x [|y [|z rest]]]|]. }
  unfold mbind, Fetch_bind.
  destruct (getBlocksFromTimestamps env [t1; t2; tWeek]) as [[|x [|y [|z rest]]]|e]; simpl.
  - split; [intros [= <-]; split; [done|]; right; exists []; simpl; split; [done|split; [lia|done]]|].
    by intros [_ [?|(blocks & _ & _ & ->)]].
  - split; [intros [= <-]; split; [done|]; right; eexists; simpl; split; [done|split; [simpl; lia|done]]|].
    by intros [_ [?|(blocks & _ & _ & ->)]].
  - split; [intros [= <-]; split; [done|]; right; eexists; simpl; split; [done|split; [simpl; lia|done]]|].
    by intros [_ [?|(blocks & _ & _ & ->)]].
  - split; [intros Hrun; by apply Hcaught in Hrun|].
    intros [_ [?|(blocks & [= <-] & Hshort & _)]]; [done|]. simpl in Hshort. lia.
  - split; [intros [= ->]; split; [done|by left]|].
    by intros [_ [[= ->]|(blocks & ? & _)]].
Qed.

(** X13.  [parseData] on the week: the one-week volume is the lifetime volume
    when there is no one-week snapshot and the delta to the snapshot
    otherwise; the tracked reserve in USD is the tracked reserve in native
    currency times the price; the raw fields of the pair stay. *)
Theorem parseData_oneWeekVolumeUSD (env : Services) (data : Pair)
    (oneDayData twoDayData oneWeekData : option Pair)
    (nativeCurrencyPrice : float) (oneDayBlock : Z) :
  let parsed :=
    parseData env data oneDayData twoDayData oneWeekData nativeCurrencyPrice oneDayBlock in
  oneWeekVolumeUSD parsed
  = match oneWeekData with
    | None => volumeUSD data
    | Some weekAgo => parseFloat_num (volumeUSD data - volumeUSD weekAgo)%float
    end
  ∧ trackedReserveUSD parsed
    = (trackedReserveNativeCurrency data * nativeCurrencyPrice)%float
  ∧ id (pair parsed) = id data
  ∧ volumeUSD (pair parsed) = volumeUSD data
  ∧ reserveUSD (pair parsed) = reserveUSD data
  ∧ createdAtBlockNumber (pair parsed) = createdAtBlockNumber data
  ∧ swapFee parsed = None.
Proof.
  unfold parseData.
  destruct (get2DayPercentChange (volumeUSD data) _ _) as [delta change].
  destruct (get2DayPercentChange (untrackedVolumeUSD data) _ _) as [? ?].
  destruct (updateNameData env _ _) as [t0 t1].
  by destruct oneDayData, oneWeekData, (createdAtBlockNumber data >? oneDayBlock).
Qed.

Lemma historyAt_missing env historical pairId block :
  historical ≫= (λ byId : gmap string Pair, byId !! pairId) = None →
  query_PAIR_DATA env pairId block = Resolved (Pairs []) →
  historyAt env historical pairId block = Resolved None.
Proof. intros Hmap Hquery. unfold historyAt. by rewrite Hmap, Hquery. Qed.

(** X14.  A pair that is in neither the bulk result nor the single-pair
    fallback at the one-day block gets its lifetime volume as one-day volume,
    and likewise at the one-week block for the one-week volume. *)
Theorem missing_history_gives_lifetime_volume (env : Services) (swapFees : gmap string Z)
    (oneDayData twoDayData oneWeekData : option (gmap string Pair))
    (nativeCurrencyPrice : float) (b1 b2 bWeek : Z) (p : Pair) (r : PairData) :
  derivePair env swapFees oneDayData twoDayData oneWeekData nativeCurrencyPrice
    b1 b2 bWeek p = Resolved r →
  (oneDayData ≫= (λ byId, byId !! id p) = None →
   query_PAIR_DATA env (id p) b1 = Resolved (Pairs []) →
   oneDayVolumeUSD r = volumeUSD p)
  ∧ (oneWeekData ≫= (λ byId, byId !! id p) = None →
     query_PAIR_DATA env (id p) bWeek = Resolved (Pairs []) →
     oneWeekVolumeUSD r = volumeUSD p).
Proof.
  unfold derivePair, mbind, Fetch_bind, mret, Fetch_ret. intros Hrun. split.
  - intros Hmap Hquery. rewrite (historyAt_missing _ _ _ _ Hmap Hquery) in Hrun.
    destruct (historyAt env twoDayData _ _) as [h2|]; [|discriminate].
    destruct (historyAt env oneWeekData _ _) as [hw|]; [|discriminate].
    injection Hrun as <-. simpl. unfold parseData.
    destruct (get2DayPercentChange _ _ _), (get2DayPercentChange _ _ _), (updateNameData _ _ _).
    by destruct hw, (createdAtBlockNumber p >? b1).
  - intros Hmap Hquery.
    destruct (historyAt env oneDayData _ _) as [h1|]; [|discriminate].
    destruct (historyAt env twoDayData _ _) as [h2|]; [|discriminate].
    rewrite (historyAt_missing _ _ _ _ Hmap Hquery) in Hrun.
    injection Hrun as <-. simpl. unfold parseData.
    destruct (get2DayPercentChange _ _ _), (get2DayPercentChange _ _ _), (updateNameData _ _ _).
    by destruct h1, (createdAtBlockNumber p >? b1).
Qed.

Lemma missing_history_gives_lifetime_volume_witness :
  oneWeekVolumeUSD
    (set_swapFee 30 (parseData sampleServices samplePair (Some sampleDayAgo) None None
                       2000%float 100))
  = volumeUSD samplePair.
Proof.
  assert (Hrun : derivePair sampleServices ({[ "0xabc"%string := 30 ]} : gmap string Z)
                   (Some {[ "0xabc"%string := sampleDayAgo ]}) (Some ∅) (Some ∅)
                   2000%float 100 90 10 samplePair
                 = Resolved (set_swapFee 30 (parseData sampleServices samplePair
                                                (Some sampleDayAgo) None None 2000%float 100)))
    by reflexivity.
  apply (proj2 (missing_history_gives_lifetime_volume _ _ _ _ _ _ _ _ _ _ _ Hrun)); reflexivity.
Defined.

(** X15.  No record carries a swap fee of zero: a fee that decodes to [0]
    counts as missing and the default of 25 takes its place. *)
Theorem swap_fee_never_zero (env : Services) (pairList : list string)
    (nativeCurrencyPrice : float) (overrideBlocks : option (list Z))
    (records : list PairData) :
  getBulkPairData env pairList nativeCurrencyPrice overrideBlocks = Resolved (Some records) →
  Forall (λ r, ∃ fee, swapFee r = Some fee ∧ fee ≠ 0
                      ∧ (getPairsSwapFee env pairList !! id (pair r) = Some 0 → fee = 25))
    records.
Proof.
  intros Hrun.
  apply getBulkPairData_resolved in Hrun as (pairs & d1 & d2 & dw & b1 & b2 & bWeek & _ & Hall).
  induction Hall as [|p r pairs records Hp _ IH]; constructor; [|done].
  apply BulkSpec.derivePair_swapFee in Hp as [-> ->]. eexists. split; [done|].
  unfold feeOrDefault. destruct (getPairsSwapFee env pairList !! id p) as [fee|]; [|done].
  destruct (Z.eqb_spec fee 0) as [->|Hfee]; [done|]. split; [done|]. by intros [= ->].
Qed.

Lemma swap_fee_never_zero_witness :
  Forall (λ r, ∃ fee, swapFee r = Some fee ∧ fee ≠ 0
                      ∧ (getPairsSwapFee
                           (withFeeServices (multicall_aggregate sampleServices)
                              (λ _, Resolved 0) sampleServices)
                           ["0xabc"%string] !! id (pair r) = Some 0 → fee = 25))
    [set_swapFee 25 (parseData sampleServices samplePair (Some sampleDayAgo) None None
                       2000%float 100)].
Proof.
  apply (swap_fee_never_zero
           (withFeeServices (multicall_aggregate sampleServices) (λ _, Resolved 0)
              sampleServices)
           ["0xabc"%string] 2000%float None).
  reflexivity.
Defined.

Lemma awaitAll_rejected {A B} (f : A → Fetch B) (l : list A) (x : A) (error : string) :
  x ∈ l → f x = Rejected error → ∃ error', awaitAll f l = Rejected error'.
Proof.
  induction l as [|y l IH]; intros Hx Hfx; [by apply elem_of_nil in Hx|].
  simpl. unfold mbind, Fetch_bind. destruct (f y) as [b|e] eqn:Hfy; [|by eexists].
  apply elem_of_cons in Hx as [->|Hx]; [congruence|].
  destruct (IH Hx Hfx) as [error' ->]. by eexists.
Qed.

Lemma indexById_elsewhere (rows : list Pair) (key : string) :
  ∀ obj : gmap string Pair,
    key ∉ id <$> rows →
    foldl (λ obj cur, <[id cur := cur]> obj) obj rows !! key = obj !! key.
Proof.
  induction rows as [|row rows IH]; intros obj Hkey; simpl; [done|].
  rewrite fmap_cons in Hkey. apply not_elem_of_cons in Hkey as [Hne Hkey].
  rewrite IH by done. by rewrite lookup_insert_ne.
Qed.

(** X16.  One rejected fallback query loses the whole batch: when a pair of
    the current result is not in the one-day snapshot and its single-pair
    query at the one-day block is rejected, [getBulkPairData] resolves to
    [undefined], whatever the other pairs gave. *)
Theorem rejected_fallback_loses_the_batch (env : Services) (pairList : list string)
    (nativeCurrencyPrice : float) (b1 b2 bWeek : Z) (pairs rows : list Pair) (p : Pair)
    (error : string) :
  query_PAIRS_BULK env pairList = Resolved (Pairs pairs) →
  p ∈ pairs →
  query_PAIRS_HISTORICAL_BULK env b1 pairList = Resolved (Pairs rows) →
  id p ∉ id <$> rows →
  query_PAIR_DATA env (id p) b1 = Rejected error →
  getBulkPairData env pairList nativeCurrencyPrice (Some [b1; b2; bWeek]) = Resolved None.
Proof.
  intros Hcurrent Hp Hday Hmissing Hfallback. unfold getBulkPairData.
  destruct (getTimestampsForChanges env) as [[t1 t2] tWeek]. simpl.
  unfold bulkBody, mbind, Fetch_bind. rewrite Hcurrent, Hday.
  destruct (query_PAIRS_HISTORICAL_BULK env b2 pairList) as [r2|]; [|done].
  destruct (query_PAIRS_HISTORICAL_BULK env bWeek pairList) as [r3|]; [|done].
  simpl. destruct (indexById r2) as [d2|]; [|done].
  destruct (indexById r3) as [dw|]; [|done].
  destruct (awaitAll_rejected
              (derivePair env (getPairsSwapFee env pairList)
                 (Some (foldl (λ obj cur, <[id cur := cur]> obj) ∅ rows)) d2 dw
                 nativeCurrencyPrice b1 b2 bWeek) pairs p error Hp) as [error' ->]; [|done].
  unfold derivePair, historyAt, mbind, Fetch_bind, option_bind.
  by rewrite indexById_elsewhere, lookup_empty, Hfallback.
Qed.

Lemma rejected_fallback_loses_the_batch_witness :
  getBulkPairData
    {| getTimestampsForChanges := getTimestampsForChanges sampleServices;
       getBlocksFromTimestamps := getBlocksFromTimestamps sampleServices;
       query_PAIRS_BULK := query_PAIRS_BULK sampleServices;
       query_PAIRS_HISTORICAL_BULK := λ _ _, Resolved (Pairs []);
       query_PAIR_DATA := λ _ _, Rejected "Network error";
       multicall_aggregate := multicall_aggregate sampleServices;
       decodeSwapFee := decodeSwapFee sampleServices;
       updateNameData := updateNameData sampleServices |}
    ["0xabc"%string] 2000%float (Some [100; 90; 10])
  = Resolved None.
Proof.
  apply (rejected_fallback_loses_the_batch _ ["0xabc"%string] 2000%float 100 90 10
           [samplePair] [] samplePair "Network error").
  - reflexivity.
  - by left.
  - reflexivity.
  - apply not_elem_of_nil.
  - reflexivity.
Defined.

End BulkMore.

(** ** More on the rate fetchers *)

Module RatesMore.
Import Rates RatesTerms.

Lemma hourStarts_progression (endTime interval : Z) :
  0 < interval →
  ∀ (fuel : nat) (time : Z),
    (enoughRounds time endTime ≤ fuel)%nat →
    hourStarts fuel time endTime interval
    = Some ((λ k, time + k * interval) <$> seqZ 0 ((endTime - time) / interval + 1)).
Proof.
  intros Hpos. unfold enoughRounds.
  induction fuel as [|fuel IH]; intros time Hfuel; simpl.
  - destruct (Z.leb_spec time endTime) as [Hle|Hgt]; [lia|].
    rewrite seqZ_nil; [done|]. Z.to_euclidean_division_equations. nia.
  - destruct (Z.leb_spec time endTime) as [Hle|Hgt].
    + rewrite IH by lia.
      assert (∃ n, 0 ≤ n ∧ (endTime - (time + interval)) / interval + 1 = n
                   ∧ (endTime - time) / interval + 1 = Z.succ n) as (n & Hn & -> & ->).
      { eexists. split; [|split; [reflexivity|]].
        - Z.to_euclidean_division_equations. nia.
        - replace (endTime - time) with ((endTime - (time + interval)) + 1 * interval) by lia.
          rewrite Z.div_add by lia. unfold Z.succ. ring. }
      rewrite (seqZ_cons 0 (Z.succ n)) by lia. rewrite Z.pred_succ. csimpl.
      rewrite Z.add_0_r. f_equal. f_equal.
      change (Z.succ 0) with (1 + 0). rewrite <- fmap_add_seqZ, <- list_fmap_compose.
      apply list_fmap_ext. intros _ k _. simpl. lia.
    + rewrite seqZ_nil; [done|]. Z.to_euclidean_division_equations. nia.
Qed.

Lemma hourStarts_loops (endTime interval : Z) :
  interval ≤ 0 →
  ∀ (fuel : nat) (time : Z), time ≤ endTime → hourStarts fuel time endTime interval = None.
Proof.
  intros Hneg. induction fuel as [|fuel IH]; intros time Hle; simpl;
    destruct (Z.leb_spec time endTime); try lia; [done|].
  by rewrite IH by lia.
Qed.

(** X17.  For a positive interval the loop collects the hour starts
    [startTime], [startTime + interval], ... up to the end time, none when the
    start is after it; with an interval of zero or less and a start that is
    not after the end, no number of rounds ends the loop. *)
Theorem hour_starts_progression (endTime startTime interval : Z) :
  (0 < interval →
   hourStartsUntil endTime startTime interval
   = Some ((λ k, startTime + k * interval)
             <$> seqZ 0 ((endTime - startTime) / interval + 1)))
  ∧ (interval ≤ 0 → startTime ≤ endTime →
     ∀ fuel : nat, hourStarts fuel startTime endTime interval = None).
Proof.
  split.
  - intros Hpos. by apply hourStarts_progression.
  - intros Hneg Hle fuel. by apply hourStarts_loops.
Qed.

Lemma hour_starts_progression_witness :
  hourStartsUntil 14400 3600 3600
  = Some ((λ k, 3600 + k * 3600) <$> seqZ 0 ((14400 - 3600) / 3600 + 1)).
Proof. apply (proj1 (hour_starts_progression 14400 3600 3600)). lia. Defined.

Lemma split_lacks (c : Ascii.ascii) (s : string) : lacks c s = true → split c s = [s].
Proof.
  induction s as [|a s IH]; simpl; [done|].
  destruct (Ascii.eqb a c); simpl; [done|]. intros Hs. by rewrite IH.
Qed.

Lemma rowValue_stamped (timestamp : string) (rate : option Rate) :
  timestamp ≠ ""%string → lacks "t" timestamp = true →
  rowValue (stamped (timestamp, rate)) = Some (sampleOf timestamp rate).
Proof.
  intros Hne Hlacks. unfold rowValue, stamped. simpl.
  rewrite split_lacks by done. simpl. by case_bool_decide.
Qed.

Lemma rowValue_unstamped (key : string) (rate : option Rate) :
  lacks "t" key = true ∨ key = "t"%string → rowValue (key, rate) = None.
Proof.
  intros [Hlacks| ->]; [|done]. unfold rowValue. by rewrite split_lacks.
Qed.

Lemma rateValues_cons (row : string * option Rate) (result : list (string * option Rate)) :
  rateValues (row :: result)
  = match rowValue row with
    | Some value => value :: rateValues result
    | None => rateValues result
    end.
Proof. reflexivity. Qed.

(** X18.  The samples follow the rows of the query result: a row keyed
    [t<timestamp>] gives one sample, with this timestamp and the two prices of
    the row, [NaN] for a [null] row, in the order of the rows; a row whose key
    has no [t], or nothing after it, gives none. *)
Theorem samples_follow_stamped_rows (rows : list (string * option Rate)) :
  (Forall (λ row, row.1 ≠ ""%string ∧ lacks "t" row.1 = true) rows →
   rateValues (stamped <$> rows) = (λ row, sampleOf row.1 row.2) <$> rows)
  ∧ ∀ (key : string) (rate : option Rate) (after : list (string * option Rate)),
      lacks "t" key = true ∨ key = "t"%string →
      rateValues (rows ++ (key, rate) :: after) = rateValues (rows ++ after).
Proof.
  split.
  - induction 1 as [|[timestamp rate] rows [Hne Hlacks] _ IH]; [done|].
    rewrite !fmap_cons, rateValues_cons, rowValue_stamped by done. by rewrite IH.
  - intros key rate after Hkey. unfold rateValues. rewrite !omap_app. f_equal.
    fold (rateValues ((key, rate) :: after)). by rewrite rateValues_cons, rowValue_unstamped.
Qed.

Lemma samples_follow_stamped_rows_witness :
  rateValues (stamped <$> [("3600"%string, Some {| token0Price := 10; token1Price := 5 |});
                           ("7200"%string, None)])
  = (λ row, sampleOf row.1 row.2)
      <$> [("3600"%string, Some {| token0Price := 10; token1Price := 5 |});
           ("7200"%string, None)].
Proof.
  apply (proj1 (samples_follow_stamped_rows
                  [("3600"%string, Some {| token0Price := 10; token1Price := 5 |});
                   ("7200"%string, None)])).
  repeat constructor; done.
Defined.

Lemma hourStartsUntil_empty (endTime startTime interval : Z) (timestamps : list Z) :
  hourStartsUntil endTime startTime interval = Some timestamps →
  timestamps = [] ↔ endTime < startTime.
Proof.
  unfold hourStartsUntil. destruct (enoughRounds startTime endTime) as [|fuel]; simpl;
    destruct (Z.leb_spec startTime endTime) as [Hle|Hgt]; try discriminate.
  - intros [= <-]. split; [lia | done].
  - destruct (hourStarts fuel _ _ _); [|discriminate]. simpl. intros [= <-].
    split; [discriminate | lia].
  - intros [= <-]. split; [lia | done].
Qed.

(** X19.  The three ways [getPairRateData] comes back without rates: a start
    after the clock gives the bare [[]], whatever the interval and the
    services answer; once there are hour starts, a rejected block resolver and a
    rejected rate query both give [[[], []]]. *)
Theorem rate_failure_shapes (env : Services) (pairAddress : string)
    (startTime interval : Z) (latestBlock : option Z) :
  (utcEndTime env < startTime →
   getPairRateData env pairAddress startTime interval latestBlock = Some NoSeries)
  ∧ ∀ timestamps : list Z,
      hourStartsUntil (utcEndTime env) startTime interval = Some timestamps →
      startTime ≤ utcEndTime env →
      (∀ error, getBlocksForTimestamps env timestamps = Rejected error →
         getPairRateData env pairAddress startTime interval latestBlock = Some (Series [] []))
      ∧ (∀ blocks error,
           getBlocksForTimestamps env timestamps = Resolved (Some blocks) →
           blocks ≠ [] →
           splitQuery_HOURLY_PAIR_RATES env [pairAddress] (syncedBlocks latestBlock blocks) 100
           = Rejected error →
           getPairRateData env pairAddress startTime interval latestBlock
           = Some (Series [] [])).
Proof.
  split.
  - intros Hafter. unfold getPairRateData, hourStartsUntil.
    assert (∀ fuel, hourStarts fuel startTime (utcEndTime env) interval = Some []) as ->.
    { intros [|fuel]; simpl; by destruct (Z.leb_spec startTime (utcEndTime env)); [lia|]. }
    reflexivity.
  - intros timestamps Hstarts Hle.
    assert (timestamps ≠ []) as Hne.
    { intros Hnil. apply (hourStartsUntil_empty _ _ _ _ Hstarts) in Hnil. lia. }
    unfold getPairRateData. rewrite Hstarts. simpl. unfold ratesBody.
    case_bool_decide as Hlen; [by destruct timestamps|]. split.
    + intros error ->. reflexivity.
    + intros blocks error -> Hblocks Hquery. simpl.
      destruct blocks as [|b blocks]; [done|]. by rewrite Hquery.
Qed.

Lemma rate_failure_shapes_witness :
  getPairRateData sampleServices "0xabc" 20000 3600 None = Some NoSeries.
Proof.
  apply (proj1 (rate_failure_shapes sampleServices "0xabc" 20000 3600 None)).
  simpl. lia.
Defined.

End RatesMore.

(** ** The candles of a run *)

Module RatesRuns.
Import Rates RatesTerms.

Lemma rateValues_stamped (rows : list (string * option Rate)) :
  Forall (λ row, row.1 ≠ ""%string ∧ lacks "t" row.1 = true) rows →
  rateValues (stamped <$> rows) = samplesOf rows.
Proof.
  induction 1 as [|[timestamp rate] rows [Hne Hlacks] _ IH]; [done|].
  unfold samplesOf in *.
  rewrite !fmap_cons, RatesMore.rateValues_cons, RatesMore.rowValue_stamped by done.
  by rewrite IH.
Qed.

Lemma hourStartsUntil_boundaries (endTime startTime interval : Z) :
  0 < interval →
  hourStartsUntil endTime startTime interval
  = Some (boundaryTimestamps startTime endTime interval).
Proof. intros Hpos. by apply RatesMore.hourStarts_progression. Qed.

Lemma boundaryTimestamps_length (startTime endTime interval : Z) :
  0 < interval → startTime ≤ endTime →
  length (boundaryTimestamps startTime endTime interval) ≠ 0%nat.
Proof.
  intros Hpos Hle. unfold boundaryTimestamps. rewrite length_fmap, length_seqZ.
  assert (0 ≤ (endTime - startTime) / interval) by (apply Z.div_pos; lia).
  generalize dependent ((endTime - startTime) / interval). intros q Hq. lia.
Qed.

Lemma boundaryTimestamps_none (startTime endTime interval : Z) :
  0 < interval → endTime < startTime → boundaryTimestamps startTime endTime interval = [].
Proof.
  intros Hpos Hlt. unfold boundaryTimestamps. rewrite seqZ_nil; [done|].
  assert ((endTime - startTime) / interval < 0) by (apply Z.div_lt_upper_bound; lia).
  generalize dependent ((endTime - startTime) / interval). intros q Hq. lia.
Qed.

(** The shared body once the boundaries resolved to blocks. *)
Lemma ratesBody_resolved env resolve pairAddress latestBlock timestamps blocks :
  length timestamps ≠ 0%nat →
  resolve timestamps = Resolved (Some blocks) →
  blocks ≠ [] →
  orEmptySeries (ratesBody env resolve pairAddress latestBlock timestamps)
  = orEmptySeries (ratesFrom <$> splitQuery_HOURLY_PAIR_RATES env [pairAddress]
                                   (syncedBlocks latestBlock blocks) 100).
Proof.
  intros Hlen Hblocks Hne. unfold ratesBody. rewrite bool_decide_eq_false_2 by done.
  rewrite Hblocks. simpl. destruct blocks as [|b blocks]; [done|].
  by destruct (splitQuery_HOURLY_PAIR_RATES env _ _ _).
Qed.

(** The shared body without a resolved boundary. *)
Lemma ratesBody_unresolved env resolve pairAddress latestBlock timestamps :
  length timestamps = 0%nat ∨ resolve timestamps = Resolved None
  ∨ resolve timestamps = Resolved (Some []) →
  orEmptySeries (ratesBody env resolve pairAddress latestBlock timestamps) = NoSeries.
Proof.
  unfold ratesBody. intros [Hlen | [-> | ->]]; case_bool_decide; done.
Qed.

Lemma ratesBody_candles env resolve pairAddress latestBlock timestamps blocks rows :
  length timestamps ≠ 0%nat →
  resolve timestamps = Resolved (Some blocks) →
  blocks ≠ [] →
  splitQuery_HOURLY_PAIR_RATES env [pairAddress] (syncedBlocks latestBlock blocks) 100
  = Resolved (stamped <$> rows) →
  Forall (λ row, row.1 ≠ ""%string ∧ lacks "t" row.1 = true) rows →
  ∃ history0 history1,
    orEmptySeries (ratesBody env resolve pairAddress latestBlock timestamps)
    = Series history0 history1
    ∧ pairsConsecutive Value.rate0 (samplesOf rows) history0
    ∧ pairsConsecutive Value.rate1 (samplesOf rows) history1.
Proof.
  intros Hlen Hblocks Hne Hquery Hrows.
  rewrite (ratesBody_resolved _ _ _ _ _ blocks) by done. rewrite Hquery. simpl.
  rewrite <- (rateValues_stamped rows Hrows). apply RatesSpec.ratesFrom_histories.
Qed.

(** C2.  A run whose boundaries [startTime], [startTime + interval], ... up
    to the clock resolve to blocks, and whose rate query answers [N] rows
    keyed [t<timestamp>], returns two histories of [N - 1] candles each: the
    candle at [i] carries the timestamp of row [i], opens at the rate of row
    [i] and closes at the rate of row [i + 1] ([NaN] for a [null] row).  A run
    without a boundary, or whose boundaries resolve to nothing, returns the
    empty [[]]; and for a positive interval every run returns. *)
Theorem candles_pair_consecutive_samples (env : Services) (pairAddress : string)
    (startTime : Z) (latestBlock : option Z) :
  (∀ (interval : Z) (blocks : list Block) (rows : list (string * option Rate)),
     0 < interval →
     startTime ≤ utcEndTime env →
     getBlocksForTimestamps env (boundaryTimestamps startTime (utcEndTime env) interval)
     = Resolved (Some blocks) →
     blocks ≠ [] →
     splitQuery_HOURLY_PAIR_RATES env [pairAddress] (syncedBlocks latestBlock blocks) 100
     = Resolved (stamped <$> rows) →
     Forall (λ row, row.1 ≠ ""%string ∧ lacks "t" row.1 = true) rows →
     ∃ history0 history1,
       getPairRateData env pairAddress startTime interval latestBlock
       = Some (Series history0 history1)
       ∧ pairsConsecutive Value.rate0 (samplesOf rows) history0
       ∧ pairsConsecutive Value.rate1 (samplesOf rows) history1)
  ∧ (∀ (blocks : list Block) (rows : list (string * option Rate)),
       startTime ≤ utcEndTime env - 3600 →
       getBlocksFromTimestamps env
         (boundaryTimestamps startTime (utcEndTime env - 3600) 3600) 100
       = Resolved (Some blocks) →
       blocks ≠ [] →
       splitQuery_HOURLY_PAIR_RATES env [pairAddress] (syncedBlocks latestBlock blocks) 100
       = Resolved (stamped <$> rows) →
       Forall (λ row, row.1 ≠ ""%string ∧ lacks "t" row.1 = true) rows →
       ∃ history0 history1,
         getHourlyRateData env pairAddress startTime latestBlock
         = Some (Series history0 history1)
         ∧ pairsConsecutive Value.rate0 (samplesOf rows) history0
         ∧ pairsConsecutive Value.rate1 (samplesOf rows) history1)
  ∧ (∀ interval : Z,
       0 < interval →
       utcEndTime env < startTime
       ∨ getBlocksForTimestamps env (boundaryTimestamps startTime (utcEndTime env) interval)
         = Resolved None
       ∨ getBlocksForTimestamps env (boundaryTimestamps startTime (utcEndTime env) interval)
         = Resolved (Some []) →
       getPairRateData env pairAddress startTime interval latestBlock = Some NoSeries)
  ∧ (utcEndTime env - 3600 < startTime
     ∨ getBlocksFromTimestamps env
         (boundaryTimestamps startTime (utcEndTime env - 3600) 3600) 100
       = Resolved None
     ∨ getBlocksFromTimestamps env
         (boundaryTimestamps startTime (utcEndTime env - 3600) 3600) 100
       = Resolved (Some []) →
     getHourlyRateData env pairAddress startTime latestBlock = Some NoSeries)
  ∧ (∀ interval : Z,
       0 < interval →
       is_Some (getPairRateData env pairAddress startTime interval latestBlock))
  ∧ is_Some (getHourlyRateData env pairAddress startTime latestBlock).
Proof.
  split; [|split; [|split; [|split; [|split]]]].
  - intros interval blocks rows Hpos Hle Hblocks Hne Hquery Hrows.
    unfold getPairRateData. rewrite hourStartsUntil_boundaries by done. simpl.
    destruct (ratesBody_candles env (getBlocksForTimestamps env) pairAddress latestBlock
                (boundaryTimestamps startTime (utcEndTime env) interval) blocks rows)
      as (h0 & h1 & -> & Hh0 & Hh1); try done; [by apply boundaryTimestamps_length|].
    by exists h0, h1.
  - intros blocks rows Hle Hblocks Hne Hquery Hrows.
    unfold getHourlyRateData. rewrite hourStartsUntil_boundaries by lia. simpl.
    destruct (ratesBody_candles env (λ ts, getBlocksFromTimestamps env ts 100) pairAddress
                latestBlock (boundaryTimestamps startTime (utcEndTime env - 3600) 3600)
                blocks rows)
      as (h0 & h1 & -> & Hh0 & Hh1); try done; [by apply boundaryTimestamps_length|].
    by exists h0, h1.
  - intros interval Hpos Hnone.
    unfold getPairRateData. rewrite hourStartsUntil_boundaries by done. simpl.
    rewrite ratesBody_unresolved; [done|].
    destruct Hnone as [Hlt | [? | ?]]; [left | by right; left | by right; right].
    by rewrite boundaryTimestamps_none.
  - intros Hnone.
    unfold getHourlyRateData. rewrite hourStartsUntil_boundaries by lia. simpl.
    rewrite ratesBody_unresolved; [done|].
    destruct Hnone as [Hlt | [? | ?]]; [left | by right; left | by right; right].
    by rewrite boundaryTimestamps_none.
  - intros interval Hpos.
    unfold getPairRateData. rewrite hourStartsUntil_boundaries by done. simpl. eauto.
  - unfold getHourlyRateData. rewrite hourStartsUntil_boundaries by lia. simpl. eauto.
Qed.

Lemma candles_pair_consecutive_samples_witness :
  (∃ history0 history1,
     getPairRateData sampleServices "0xabc" 3600 3600 None = Some (Series history0 history1)
     ∧ pairsConsecutive Value.rate0 (samplesOf sampleRows) history0
     ∧ pairsConsecutive Value.rate1 (samplesOf sampleRows) history1)
  ∧ ∃ history0 history1,
      getHourlyRateData sampleServices "0xabc" 3600 None = Some (Series history0 history1)
      ∧ pairsConsecutive Value.rate0 (samplesOf sampleRows) history0
      ∧ pairsConsecutive Value.rate1 (samplesOf sampleRows) history1.
Proof.
  assert (Forall (λ row : string * option Rate, row.1 ≠ ""%string ∧ lacks "t" row.1 = true)
            sampleRows) as Hrows by (repeat constructor; done).
  split.
  - apply (proj1 (candles_pair_consecutive_samples sampleServices "0xabc" 3600 None)
             3600 sampleBlocks sampleRows);
      [lia | simpl; lia | reflexivity | discriminate | vm_compute; reflexivity | exact Hrows].
  - apply (proj1 (proj2 (candles_pair_consecutive_samples sampleServices "0xabc" 3600 None))
             sampleBlocks sampleRows);
      [simpl; lia | reflexivity | discriminate | vm_compute; reflexivity | exact Hrows].
Defined.

Lemma syncedBlocks_kept (latest : Z) (blocks : list Block) :
  latest ≠ 0 → syncedBlocks (Some latest) blocks = filter (λ b, number b ≤ latest) blocks.
Proof. intros Hlatest. unfold syncedBlocks. by destruct (Z.eqb_spec latest 0). Qed.

Lemma ratesBody_rate_query env query resolve pairAddress latest timestamps :
  latest ≠ 0 →
  (∀ kept : list Block,
     Forall (λ b, number b ≤ latest) kept →
     query [pairAddress] kept 100 = splitQuery_HOURLY_PAIR_RATES env [pairAddress] kept 100) →
  ratesBody (withRateQuery query env) resolve pairAddress (Some latest) timestamps
  = ratesBody env resolve pairAddress (Some latest) timestamps.
Proof.
  intros Hlatest Hagree. unfold ratesBody. case_bool_decide; [done|].
  destruct (resolve timestamps) as [[[|b blocks]|]|]; try done.
  unfold mbind, Fetch_bind.
  change (splitQuery_HOURLY_PAIR_RATES (withRateQuery query env)) with query.
  rewrite syncedBlocks_kept by done. rewrite Hagree; [done|].
  apply Forall_forall. intros k Hk. by apply list_elem_of_filter in Hk as [? _].
Qed.

(** C9, as the code has it.  With a latest synced block other than [0], a
    run whose boundaries resolve to blocks queries the rates at the resolved
    blocks whose number is at most the latest synced block, in their order,
    and builds the returned histories from the answer to that query; and
    whatever the run, what the rate query would answer on a list with a block
    beyond the latest synced block has no part in the result.  A latest
    synced block of [0] is taken for none. *)
Theorem no_block_beyond_latest (env : Services) (pairAddress : string) (startTime : Z) :
  (∀ latest : Z,
     latest ≠ 0 →
     (∀ (interval : Z) (blocks : list Block),
        0 < interval →
        startTime ≤ utcEndTime env →
        getBlocksForTimestamps env (boundaryTimestamps startTime (utcEndTime env) interval)
        = Resolved (Some blocks) →
        blocks ≠ [] →
        getPairRateData env pairAddress startTime interval (Some latest)
        = Some (orEmptySeries
                  (ratesFrom <$> splitQuery_HOURLY_PAIR_RATES env [pairAddress]
                                   (filter (λ b, number b ≤ latest) blocks) 100)))
     ∧ (∀ blocks : list Block,
          startTime ≤ utcEndTime env - 3600 →
          getBlocksFromTimestamps env
            (boundaryTimestamps startTime (utcEndTime env - 3600) 3600) 100
          = Resolved (Some blocks) →
          blocks ≠ [] →
          getHourlyRateData env pairAddress startTime (Some latest)
          = Some (orEmptySeries
                    (ratesFrom <$> splitQuery_HOURLY_PAIR_RATES env [pairAddress]
                                     (filter (λ b, number b ≤ latest) blocks) 100)))
     ∧ ∀ query : list string → list Block → Z → Fetch (list (string * option Rate)),
         (∀ kept : list Block,
            Forall (λ b, number b ≤ latest) kept →
            query [pairAddress] kept 100
            = splitQuery_HOURLY_PAIR_RATES env [pairAddress] kept 100) →
         (∀ interval : Z,
            getPairRateData (withRateQuery query env) pairAddress startTime interval
              (Some latest)
            = getPairRateData env pairAddress startTime interval (Some latest))
         ∧ getHourlyRateData (withRateQuery query env) pairAddress startTime (Some latest)
           = getHourlyRateData env pairAddress startTime (Some latest))
  ∧ (∀ interval : Z,
       getPairRateData env pairAddress startTime interval (Some 0)
       = getPairRateData env pairAddress startTime interval None)
  ∧ getHourlyRateData env pairAddress startTime (Some 0)
    = getHourlyRateData env pairAddress startTime None.
Proof.
  split; [|split; [intros interval|]; reflexivity].
  intros latest Hlatest. split; [|split].
  - intros interval blocks Hpos Hle Hblocks Hne.
    unfold getPairRateData. rewrite hourStartsUntil_boundaries by done. simpl.
    rewrite (ratesBody_resolved _ _ _ _ _ blocks);
      [by rewrite syncedBlocks_kept | by apply boundaryTimestamps_length | done | done].
  - intros blocks Hle Hblocks Hne.
    unfold getHourlyRateData. rewrite hourStartsUntil_boundaries by lia. simpl.
    rewrite (ratesBody_resolved _ _ _ _ _ blocks);
      [by rewrite syncedBlocks_kept | by apply boundaryTimestamps_length | done | done].
  - intros query Hagree. split.
    + intros interval. unfold getPairRateData. simpl.
      destruct (hourStartsUntil _ _ _) as [timestamps|]; [|done]. simpl.
      by rewrite (ratesBody_rate_query env query).
    + unfold getHourlyRateData. simpl.
      destruct (hourStartsUntil _ _ _) as [timestamps|]; [|done]. simpl.
      by rewrite (ratesBody_rate_query env query).
Qed.

Lemma no_block_beyond_latest_witness :
  getPairRateData sampleServices "0xabc" 3600 3600 (Some 30)
  = Some (orEmptySeries
            (ratesFrom <$> splitQuery_HOURLY_PAIR_RATES sampleServices ["0xabc"%string]
                             (filter (λ b, number b ≤ 30) sampleBlocks) 100)).
Proof.
  apply (proj1 (proj1 (no_block_beyond_latest sampleServices "0xabc" 3600) 30 ltac:(lia))
           3600 sampleBlocks); [lia | simpl; lia | reflexivity | discriminate].
Defined.

(** C9, as the claim states it, fails for a latest synced block of [0]: the
    test [if (latestBlock)] takes it for none, nothing is filtered, and the
    candles are built from the blocks 10 to 40, all beyond it. *)
Lemma no_block_beyond_latest_zero_counterexample :
  ¬ (∀ (env : Services) (pairAddress : string) (startTime interval latest : Z)
       (blocks : list Block),
       0 < interval →
       startTime ≤ utcEndTime env →
       getBlocksForTimestamps env (boundaryTimestamps startTime (utcEndTime env) interval)
       = Resolved (Some blocks) →
       blocks ≠ [] →
       getPairRateData env pairAddress startTime interval (Some latest)
       = Some (orEmptySeries
                 (ratesFrom <$> splitQuery_HOURLY_PAIR_RATES env [pairAddress]
                                  (filter (λ b, number b ≤ latest) blocks) 100))).
Proof.
  intros Hclaim.
  specialize (Hclaim sampleServices "0xabc"%string 3600 3600 0 sampleBlocks
                ltac:(lia) ltac:(simpl; lia) eq_refl ltac:(discriminate)).
  vm_compute in Hclaim. discriminate.
Qed.

End RatesRuns.

(** ** More on the chart fetcher *)

Module ChartMore.
Import Chart ChartTerms.

Lemma fetchPages_S maxPages env pairAddress skip data :
  fetchPages (S maxPages) env pairAddress skip data
  = match query_PAIR_CHART env pairAddress skip with
    | Rejected _ => Some (Threw data)
    | Resolved pairDayDatas =>
        if (Z.of_nat (length pairDayDatas) <? 1000)
        then Some (Done (data ++ (fetched <$> pairDayDatas)))
        else fetchPages maxPages env pairAddress (skip + 1000)
               (data ++ (fetched <$> pairDayDatas))
    end.
Proof. reflexivity. Qed.

Lemma fetchPages_from (env : Services) (pairAddress : string) (rows : list PairDayData) :
  (∀ skip : nat,
     query_PAIR_CHART env pairAddress (Z.of_nat skip) = Resolved (take 1000 (drop skip rows))) →
  ∀ (maxPages k : nat) (data : list DayData),
    fetchPages maxPages env pairAddress (Z.of_nat k) data
    = if decide (length (drop k rows) / 1000 < maxPages)%nat
      then Some (Done (data ++ (fetched <$> drop k rows))) else None.
Proof.
  intros Hserve. induction maxPages as [|maxPages IH]; intros k data.
  - by case_decide; [lia|].
  - rewrite fetchPages_S, Hserve. rewrite length_take.
    destruct (Z.ltb_spec (Z.of_nat (1000 `min` length (drop k rows))) 1000) as [Hshort|Hfull].
    + rewrite take_ge by lia. rewrite Nat.div_small by lia. by case_decide; [|lia].
    + replace (Z.of_nat k + 1000) with (Z.of_nat (k + 1000)) by lia.
      rewrite IH, <- drop_drop, <- app_assoc, <- fmap_app, take_drop, length_drop.
      assert (length (drop k rows) / 1000 = S ((length (drop k rows) - 1000) / 1000))%nat as ->.
      { replace (length (drop k rows)) with ((length (drop k rows) - 1000) + 1 * 1000)%nat at 1
          by lia.
        rewrite Nat.div_add by lia. lia. }
      repeat case_decide; (done || lia).
Qed.

(** X20.  Against a subgraph that answers with the rows from [skip] on, a
    thousand at most, the paging loop gathers all rows in their order with one
    query more than full pages fit in them: a row count that is a multiple of
    a thousand costs a last query for an empty page, and with fewer rounds
    the loop has not ended. *)
Theorem pages_gathered (env : Services) (pairAddress : string) (rows : list PairDayData)
    (maxPages : nat) :
  (∀ skip : nat,
     query_PAIR_CHART env pairAddress (Z.of_nat skip) = Resolved (take 1000 (drop skip rows))) →
  fetchPages maxPages env pairAddress 0 []
  = if decide (length rows / 1000 < maxPages)%nat
    then Some (Done (fetched <$> rows)) else None.
Proof. intros Hserve. apply (fetchPages_from env pairAddress rows Hserve maxPages 0 []). Qed.

Lemma pages_gathered_witness :
  fetchPages 1 (pagedServices [sampleRow 10 100; sampleRow 12 200]) "0xabc" 0 []
  = if decide (length [sampleRow 10 100; sampleRow 12 200] / 1000 < 1)%nat
    then Some (Done (fetched <$> [sampleRow 10 100; sampleRow 12 200])) else None.
Proof.
  apply (pages_gathered (pagedServices [sampleRow 10 100; sampleRow 12 200]) "0xabc"
           [sampleRow 10 100; sampleRow 12 200] 1).
  intros skip. unfold pagedServices, query_PAIR_CHART. by rewrite Nat2Z.id.
Defined.

Lemma fetchPages_rejected (env : Services) (pairAddress : string) (error : string) :
  ∀ (pages : list (list PairDayData)) (k maxPages : nat) (data : list DayData),
    Forall (λ page, length page = 1000%nat) pages →
    (∀ (i : nat) (page : list PairDayData),
       pages !! i = Some page →
       query_PAIR_CHART env pairAddress (1000 * Z.of_nat (k + i)) = Resolved page) →
    query_PAIR_CHART env pairAddress (1000 * Z.of_nat (k + length pages)) = Rejected error →
    (length pages < maxPages)%nat →
    fetchPages maxPages env pairAddress (1000 * Z.of_nat k) data
    = Some (Threw (data ++ (fetched <$> concat pages))).
Proof.
  induction pages as [|page pages IH]; intros k maxPages data Hfull Hserve Hreject Hrounds;
    (destruct maxPages as [|maxPages]; [simpl in Hrounds; lia|]); rewrite fetchPages_S.
  - simpl in Hreject. rewrite Nat.add_0_r in Hreject. rewrite Hreject.
    by rewrite app_nil_r.
  - apply Forall_cons in Hfull as [Hpage Hfull].
    pose proof (Hserve 0%nat page eq_refl) as Hfirst. rewrite Nat.add_0_r in Hfirst.
    rewrite Hfirst, Hpage.
    destruct (Z.ltb_spec (Z.of_nat 1000) 1000) as [|_]; [lia|].
    replace (1000 * Z.of_nat k + 1000) with (1000 * Z.of_nat (S k)) by lia.
    rewrite (IH (S k) maxPages); [| done | | |].
    + by rewrite <- app_assoc, <- fmap_app.
    + intros i page' Hi. replace (S k + i)%nat with (k + S i)%nat by lia. by apply Hserve.
    + replace (S k + length pages)%nat with (k + length (page :: pages))%nat
        by (simpl; lia). done.
    + simpl in Hrounds. lia.
Qed.

(** X21.  When a page is rejected after full pages, [getPairChartData] returns
    the rows of the pages before it as they were fetched: no utilization, no
    empty day, no sorting. *)
Theorem rejected_page_keeps_rows_so_far (env : Services) (pairAddress error : string)
    (pages : list (list PairDayData)) (maxPages : nat) :
  Forall (λ page, length page = 1000%nat) pages →
  (∀ (i : nat) (page : list PairDayData),
     pages !! i = Some page →
     query_PAIR_CHART env pairAddress (1000 * Z.of_nat i) = Resolved page) →
  query_PAIR_CHART env pairAddress (1000 * Z.of_nat (length pages)) = Rejected error →
  (length pages < maxPages)%nat →
  getPairChartData maxPages env pairAddress = Some (fetched <$> concat pages).
Proof.
  intros Hfull Hserve Hreject Hrounds. unfold getPairChartData.
  change 0 with (1000 * Z.of_nat 0).
  by rewrite (fetchPages_rejected env pairAddress error pages 0 maxPages []).
Qed.

Lemma rejected_page_keeps_rows_so_far_witness :
  getPairChartData 2 brokenSecondPage "0xabc"
  = Some (fetched <$> concat [replicate 1000 (sampleRow 10 100)]).
Proof.
  apply (rejected_page_keeps_rows_so_far brokenSecondPage "0xabc" "Network error"
           [replicate 1000 (sampleRow 10 100)] 2).
  - constructor; [apply length_replicate | constructor].
  - intros [|i] page Hpage; [|done]. injection Hpage as <-. reflexivity.
  - reflexivity.
  - simpl. lia.
Defined.

(** *** The walk over rows in any order *)

Lemma length_remove_dups_le {A} `{EqDecision A} (l : list A) :
  (length (remove_dups l) ≤ length l)%nat.
Proof.
  induction l as [|x l IH]; simpl; [done|]. case_decide; simpl; lia.
Qed.

Lemma filter_above_absent (i : Z) (l : list Z) :
  i + 1 ∉ l → filter (λ j, i < j) l = filter (λ j, i + 1 < j) l.
Proof.
  induction l as [|y l IH]; intros Hx; [done|].
  apply not_elem_of_cons in Hx as [Hne Hx].
  rewrite !filter_cons, IH by done. repeat case_decide; simpl in *; try done; exfalso; lia.
Qed.

Lemma filter_above_present (i : Z) (l : list Z) :
  NoDup l → i + 1 ∈ l →
  length (filter (λ j, i < j) l) = S (length (filter (λ j, i + 1 < j) l)).
Proof.
  induction 1 as [|y l Hy _ IH]; intros Hx; [by apply elem_of_nil in Hx|].
  rewrite !filter_cons. apply elem_of_cons in Hx as [<-|Hx].
  - rewrite filter_above_absent by done. repeat case_decide; simpl in *; try done; exfalso; lia.
  - specialize (IH Hx). assert (y ≠ i + 1) by (by intros ->).
    repeat case_decide; simpl in *; lia.
Qed.

Section FillAny.

Variable endTime : Z.
Variable arr : list DayData.
Hypothesis arr_positive : Forall (λ d, 0 < date d) arr.

Let dayIndexSet : gset string :=
  list_to_set ((λ dayData, toFixed0 (date dayData) oneDay) <$> arr).

(** The fetched day indices after [i], each counted once. *)
Let ahead (i : Z) : nat := length (filter (λ j, i < j) (remove_dups (idxOf <$> arr))).

Lemma ahead_start (first : DayData) : first ∈ arr → (1 + ahead (idxOf first) ≤ length arr)%nat.
Proof.
  intros Hfirst. unfold ahead.
  pose proof (length_filter_lt (λ j, idxOf first < j) (remove_dups (idxOf <$> arr))
                (idxOf first)) as Hlt.
  pose proof (length_remove_dups_le (idxOf <$> arr)) as Hle. rewrite length_fmap in Hle.
  apply Nat.le_trans with (length (remove_dups (idxOf <$> arr))); [|done].
  apply Hlt; [|lia]. apply elem_of_remove_dups. by apply list_elem_of_fmap_2.
Qed.

Lemma fillDays_any (fuel : nat) :
  ∀ (ts : Z) (latest : float) (index : nat) (data : list DayData),
    0 < ts →
    (Z.to_nat (endTime - oneDay - ts) ≤ fuel)%nat →
    latest ∈ reserveUSD <$> arr →
    (index + ahead (dayIndex ts) ≤ length arr)%nat →
    ∃ filled,
      fillDays fuel endTime dayIndexSet arr ts latest index data = Some (Done (data ++ filled))
      ∧ emptyDaysFrom endTime arr ts filled.
Proof.
  induction fuel as [|fuel IH]; intros ts latest index data Hts Hfuel Hlatest Hcount.
  - exists []. simpl. destruct (Z.ltb_spec ts (endTime - oneDay)); [lia|].
    rewrite app_nil_r. split; [done|]. repeat split; [constructor | | constructor].
    intros m Hm Hend. unfold oneDay in *. lia.
  - simpl. destruct (Z.ltb_spec ts (endTime - oneDay)) as [Hrun|Hstop]; cycle 1.
    { exists []. rewrite app_nil_r. split; [done|]. repeat split; [constructor | | constructor].
      intros m Hm Hend. unfold oneDay in *. lia. }
    pose proof (ChartSpec.dayIndex_add ts 1) as Hnext.
    replace (ts + 1 * oneDay) with (ts + oneDay) in Hnext by lia.
    assert (0 < ts + oneDay) as Hts' by (unfold oneDay; lia).
    assert (Z.to_nat (endTime - oneDay - (ts + oneDay)) ≤ fuel)%nat as Hfuel'
      by (unfold oneDay in *; lia).
    pose proof (ChartSpec.dayIndexSet_elem arr (ts + oneDay) arr_positive ltac:(lia)) as Hset.
    fold dayIndexSet in Hset. rewrite Hnext in Hset.
    change (λ d, dayIndex (date d)) with idxOf in Hset.
    assert (∀ latest' filled,
              emptyDaysFrom endTime arr (ts + oneDay) filled →
              Forall (λ d, ∃ m latest, 1 ≤ m ∧ ts + m * oneDay < endTime
                                       ∧ d = emptyDay (ts + m * oneDay) latest
                                       ∧ latest ∈ reserveUSD <$> arr
                                       ∧ dayIndex ts + m ∉ idxOf <$> arr) filled
              ∧ Forall (dateLt (emptyDay (ts + oneDay) latest')) filled
              ∧ (∀ m, 2 ≤ m → ts + m * oneDay < endTime →
                   dayIndex ts + m ∈ idxOf <$> arr
                   ∨ ∃ d, d ∈ filled ∧ date d = ts + m * oneDay)) as Hshift.
    { intros latest' filled (Hfilled & Hcomplete & _). repeat split.
      - eapply Forall_impl; [exact Hfilled|]. simpl.
        intros d (m & l & Hm & Hend & -> & Hl & Hnotin). exists (m + 1), l.
        rewrite Hnext in Hnotin.
        replace (ts + (m + 1) * oneDay) with (ts + oneDay + m * oneDay) by lia.
        replace (dayIndex ts + (m + 1)) with (dayIndex ts + 1 + m) by lia.
        repeat split; (done || lia).
      - eapply Forall_impl; [exact Hfilled|]. simpl.
        intros d (m & l & Hm & Hend & -> & _). unfold dateLt, oneDay. simpl. lia.
      - intros m Hm Hend.
        destruct (Hcomplete (m - 1)) as [Hin | (d & Hd & Hdate)]; [lia | lia | |].
        + left. rewrite Hnext in Hin.
          by replace (dayIndex ts + m) with (dayIndex ts + 1 + (m - 1)) by lia.
        + right. exists d. split; [done|]. lia. }
    case_bool_decide as Hmissing.
    + (* an empty day *)
      assert (dayIndex ts + 1 ∉ idxOf <$> arr) as Hnotin by (by rewrite <- Hset).
      destruct (IH (ts + oneDay) latest index (data ++ [emptyDay (ts + oneDay) latest]))
        as (filled & -> & Hfrom); try done.
      { rewrite Hnext. unfold ahead in *. rewrite <- filter_above_absent; [done|].
        by rewrite elem_of_remove_dups. }
      exists (emptyDay (ts + oneDay) latest :: filled).
      split; [by rewrite <- app_assoc|].
      destruct (Hshift latest filled Hfrom) as (Hfilled & Hafter & Hcomplete).
      destruct Hfrom as (_ & _ & Hsorted). repeat split.
      * constructor; [|done]. exists 1, latest.
        replace (ts + 1 * oneDay) with (ts + oneDay) by lia. repeat split; (done || lia).
      * intros m Hm Hend. destruct (decide (m = 1)) as [->|Hne].
        -- right. exists (emptyDay (ts + oneDay) latest).
           split; [by left | simpl; lia].
        -- destruct (Hcomplete m) as [Hin | (d & Hd & Hdate)]; [lia | done | by left |].
           right. exists d. split; [by right | done].
      * by constructor.
    + (* a fetched day: the next entry of the array is read *)
      apply Hset in Hmissing.
      assert (index < length arr)%nat as Hindex.
      { unfold ahead in Hcount.
        rewrite (filter_above_present (dayIndex ts)) in Hcount;
          [lia | apply NoDup_remove_dups | by rewrite elem_of_remove_dups]. }
      destruct (lookup_lt_is_Some_2 arr index Hindex) as [known Hknown].
      rewrite Hknown.
      destruct (IH (ts + oneDay) (reserveUSD known) (S index) data)
        as (filled & -> & Hfrom); try done.
      { apply list_elem_of_fmap_2. by eapply list_elem_of_lookup_2. }
      { rewrite Hnext. unfold ahead in *.
        rewrite (filter_above_present (dayIndex ts)) in Hcount;
          [lia | apply NoDup_remove_dups | by rewrite elem_of_remove_dups]. }
      exists filled. split; [done|].
      destruct (Hshift latest filled Hfrom) as (Hfilled & _ & Hcomplete).
      destruct Hfrom as (_ & _ & Hsorted). repeat split; [done | | done].
      intros m Hm Hend. destruct (decide (m = 1)) as [->|Hne]; [by left|].
      apply Hcomplete; [lia | done].
Qed.

End FillAny.

Lemma dateLt_dates_NoDup (l : list DayData) : StronglySorted dateLt l → NoDup (date <$> l).
Proof.
  induction 1 as [|x l _ IH Hx]; csimpl; constructor; [|done].
  intros Hin. apply list_elem_of_fmap in Hin as (y & Heq & Hy).
  rewrite Forall_forall in Hx. specialize (Hx y Hy). unfold dateLt in Hx. lia.
Qed.

Lemma sort_byDate_strict (l : list DayData) :
  NoDup (date <$> l) → StronglySorted dateLt (sort byDate l).
Proof.
  intros Hnodup. apply ChartSpec.sorted_nodup_strict; [apply ChartSpec.sort_byDate_sorted|].
  by rewrite ChartSpec.sort_perm.
Qed.

(** X22.  Rows with positive dates in any order, several a day or not: the
    walk reads no entry beyond the array, so nothing is thrown and the series
    is the rows and the empty days of the walk, sorted; the walk starts at the
    first row as fetched, and pushes an empty day, with the reserve of some
    row, for each later day before now that has no row; with distinct row
    dates the series is strictly ascending by date. *)
Theorem walk_over_rows_in_any_order (maxPages : nat) (env : Services) (pairAddress : string)
    (row0 : PairDayData) (rows : list PairDayData) :
  fetchPages maxPages env pairAddress 0 [] = Some (Done (fetched <$> row0 :: rows)) →
  Forall (λ row, 0 < rowDate row) (row0 :: rows) →
  ∃ out filled,
    getPairChartData maxPages env pairAddress = Some out
    ∧ out ≡ₚ (dayOf <$> row0 :: rows) ++ filled
    ∧ emptyDaysFrom (utcEndTime env) (dayOf <$> row0 :: rows) (rowDate row0) filled
    ∧ (NoDup (rowDate <$> row0 :: rows) → StronglySorted dateLt out).
Proof.
  intros Hpages Hpositive.
  assert (Forall (λ d, 0 < date d) (dayOf <$> row0 :: rows)) as Hpositive'.
  { apply Forall_fmap. eapply Forall_impl; [exact Hpositive|]. done. }
  apply Forall_cons in Hpositive as Hrow0. destruct Hrow0 as [Hrow0 _].
  destruct (fillDays_any (utcEndTime env) (dayOf <$> row0 :: rows) Hpositive'
              (Z.to_nat (utcEndTime env - oneDay - rowDate row0))
              (rowDate row0) (reserveUSD (dayOf row0)) 1 (dayOf <$> row0 :: rows))
    as (filled & Hfill & Hfrom); [lia | lia | by left | |].
  { apply (ahead_start (dayOf <$> row0 :: rows) (dayOf row0)). by left. }
  exists (sort byDate ((dayOf <$> row0 :: rows) ++ filled)), filled.
  split; [|split; [apply ChartSpec.sort_perm|split; [done|]]].
  - assert (normalizeDays env (fetched <$> row0 :: rows)
            = Some (sort byDate ((dayOf <$> row0 :: rows) ++ filled))) as Hout.
    { unfold normalizeDays.
      rewrite ChartSpec.dayIndexSet_dayOf, <- list_fmap_compose.
      change (withUtilization ∘ fetched) with dayOf. rewrite fmap_cons.
      change (date (dayOf row0)) with (rowDate row0).
      destruct (Z.eqb_spec (rowDate row0) 0) as [|_]; [lia|].
      rewrite <- fmap_cons. by rewrite Hfill. }
    unfold getPairChartData. rewrite Hpages. exact Hout.
  - intros Hnodup. apply sort_byDate_strict. rewrite fmap_app. apply NoDup_app.
    destruct Hfrom as (Hfilled & _ & Hsorted). split; [|split].
    + by rewrite <- list_fmap_compose.
    + intros t Hrow Hempty.
      apply list_elem_of_fmap in Hempty as (d & -> & Hd).
      rewrite Forall_forall in Hfilled.
      destruct (Hfilled d Hd) as (m & latest & _ & _ & -> & _ & Hnotin).
      apply Hnotin. apply list_elem_of_fmap in Hrow as (q & Hdate & Hq).
      apply list_elem_of_fmap. exists q. split; [|done].
      unfold idxOf. rewrite <- Hdate. simpl. by rewrite ChartSpec.dayIndex_add.
    + by apply dateLt_dates_NoDup.
Qed.

Lemma walk_over_rows_in_any_order_witness :
  ∃ out filled,
    getPairChartData 5 (sampleServices [sampleRow 14 200; sampleRow 10 100]) "0xabc" = Some out
    ∧ out ≡ₚ (dayOf <$> [sampleRow 14 200; sampleRow 10 100]) ++ filled
    ∧ emptyDaysFrom (utcEndTime (sampleServices [sampleRow 14 200; sampleRow 10 100]))
        (dayOf <$> [sampleRow 14 200; sampleRow 10 100]) (rowDate (sampleRow 14 200)) filled
    ∧ (NoDup (rowDate <$> [sampleRow 14 200; sampleRow 10 100]) → StronglySorted dateLt out).
Proof.
  apply (walk_over_rows_in_any_order 5 (sampleServices [sampleRow 14 200; sampleRow 10 100])
           "0xabc" (sampleRow 14 200) [sampleRow 10 100]).
  - reflexivity.
  - repeat constructor; vm_compute; done.
Defined.

(** X23.  With distinct dates the sort gives the one arrangement of the days
    that ascends by date: it does not depend on the order the days came in,
    and sorting a sorted series changes nothing. *)
Theorem sort_by_date_canonical (l l' : list DayData) :
  NoDup (date <$> l) →
  l ≡ₚ l' →
  sort byDate l = sort byDate l'
  ∧ StronglySorted dateLt (sort byDate l)
  ∧ sort byDate l ≡ₚ l
  ∧ sort byDate (sort byDate l) = sort byDate l.
Proof.
  intros Hnodup Hperm.
  assert (∀ k, l ≡ₚ k → sort byDate l = sort byDate k) as Hcanonical.
  { intros k Hk. apply (StronglySorted_unique_strong dateLt).
    - unfold dateLt. intros x1 x2 _ _ H12 H21. lia.
    - by apply sort_byDate_strict.
    - apply sort_byDate_strict. by rewrite <- Hk.
    - by rewrite !ChartSpec.sort_perm. }
  split; [by apply Hcanonical|]. split; [by apply sort_byDate_strict|].
  split; [apply ChartSpec.sort_perm|].
  symmetry. apply Hcanonical. by rewrite ChartSpec.sort_perm.
Qed.

Lemma sort_by_date_canonical_witness :
  sort byDate [dayOf (sampleRow 14 200); dayOf (sampleRow 10 100)]
  = sort byDate [dayOf (sampleRow 10 100); dayOf (sampleRow 14 200)]
  ∧ StronglySorted dateLt (sort byDate [dayOf (sampleRow 14 200); dayOf (sampleRow 10 100)])
  ∧ sort byDate [dayOf (sampleRow 14 200); dayOf (sampleRow 10 100)]
    ≡ₚ [dayOf (sampleRow 14 200); dayOf (sampleRow 10 100)]
  ∧ sort byDate (sort byDate [dayOf (sampleRow 14 200); dayOf (sampleRow 10 100)])
    = sort byDate [dayOf (sampleRow 14 200); dayOf (sampleRow 10 100)].
Proof.
  apply (sort_by_date_canonical [dayOf (sampleRow 14 200); dayOf (sampleRow 10 100)]
           [dayOf (sampleRow 10 100); dayOf (sampleRow 14 200)]).
  - apply NoDup_cons. split; [|apply NoDup_singleton].
    intros Hin. apply list_elem_of_singleton in Hin. vm_compute in Hin. discriminate.
  - apply Permutation_swap.
Defined.

End ChartMore.

(** ** The cache store of the later revision *)

Module CacheV2More.
Import Cache Hooks.

Lemma indexKeys_keys {A} (f : A → JsVal) (l : list A) :
  ∀ g : nat → nat,
    (imap (λ i x, (pretty (g i), f x)) l).*1 = (λ i, pretty (g i)) <$> seq 0 (length l).
Proof.
  induction l as [|x l IH]; intros g; [done|]. csimpl. f_equal.
  rewrite <- fmap_S_seq, <- list_fmap_compose. exact (IH (g ∘ S)).
Qed.

Lemma indexKeys_lookup {A} (f : A → JsVal) (l : list A) (i : nat) :
  indexKeys f l !! pretty i = f <$> l !! i.
Proof.
  unfold indexKeys. destruct (l !! i) as [x|] eqn:Hi; simpl.
  - apply elem_of_list_to_map.
    + rewrite (indexKeys_keys f l (λ i, i)).
      apply (NoDup_fmap_2 _), NoDup_seq.
    + apply list_elem_of_lookup. exists i. by rewrite list_lookup_imap, Hi.
  - apply not_elem_of_list_to_map. rewrite (indexKeys_keys f l (λ i, i)).
    intros Hin. apply list_elem_of_fmap in Hin as (j & Heq & Hj).
    apply (inj pretty) in Heq as <-. apply elem_of_seq in Hj.
    apply lookup_ge_None in Hi. lia.
Qed.

(** X24.  In the later revision [UPDATE_TOP_PAIRS] replaces the whole state:
    a key reads the last listed pair with this id and nothing else, so every
    record, series and campaign list stored before is gone; without a list,
    and after [RESET], every key reads [undefined]. *)
Theorem top_pairs_replace_the_state (state : State) :
  (∀ pairs : list JsVal,
     ∃ state',
       CacheV2.reducer state (CacheV2.UPDATE_TOP_PAIRS (Some pairs)) = Some state'
       ∧ ∀ key : string, read state' key = lastFiled pairs key)
  ∧ ∀ action, action = CacheV2.UPDATE_TOP_PAIRS None ∨ action = CacheV2.RESET →
      ∃ state', CacheV2.reducer state action = Some state'
                ∧ ∀ key : string, read state' key = JUndef.
Proof.
  split.
  - intros pairs. eexists. split; [reflexivity|]. intros key.
    unfold read. rewrite CacheSpec.getProp_obj, CacheMore.foldl_filed.
    unfold lastFiled. by destruct (last _).
  - intros action [-> | ->]; (eexists; split; [reflexivity|]); intros key;
      unfold read; by rewrite CacheSpec.getProp_obj.
Qed.

(** X25.  [UPDATE_HOURLY_DATA] of the later revision: the series reads back
    under [hourlyData] and its window and is not missing for the hook; the
    other windows and the other fields of the record stay. *)
Theorem hourly_data_round_trip (state : State) (address : string) (hourlyData : list JsVal)
    (timeWindow : string) :
  ∃ state',
    CacheV2.reducer state (CacheV2.UPDATE_HOURLY_DATA address (JArr hourlyData) timeWindow)
    = Some state'
    ∧ getProp (getProp (read state' address) "hourlyData") timeWindow = JArr hourlyData
    ∧ CacheV2.hourlyDataMissing state' address timeWindow = false
    ∧ (∀ window : string, window ≠ timeWindow →
         getProp (getProp (read state' address) "hourlyData") window
         = ownProp (getProp (read state address) "hourlyData") window)
    ∧ (∀ field : string, field ≠ "hourlyData"%string →
         getProp (read state' address) field = ownProp (read state address) field).
Proof.
  eexists. split; [reflexivity|]. unfold CacheV2.hourlyDataMissing, read.
  set (windows := <[timeWindow := JArr hourlyData]>
                    (ownProps (getProp (getProp (JObj state) address) "hourlyData"))).
  set (entry := <["hourlyData"%string := JObj windows]>
                  (ownProps (getProp (JObj state) address))).
  assert (getProp (JObj (<[address := JObj entry]> state)) address = JObj entry) as ->.
  { by rewrite CacheSpec.getProp_obj, lookup_insert_eq. }
  assert (getProp (JObj entry) "hourlyData" = JObj windows) as Hread.
  { unfold entry. by rewrite CacheSpec.getProp_obj, lookup_insert_eq. }
  rewrite Hread. repeat split.
  - unfold windows. by rewrite CacheSpec.getProp_obj, lookup_insert_eq.
  - unfold windows. by rewrite CacheSpec.getProp_obj, lookup_insert_eq.
  - intros window Hne. unfold windows. by rewrite CacheSpec.getProp_obj, lookup_insert_ne.
  - intros field Hne. unfold entry. by rewrite CacheSpec.getProp_obj, lookup_insert_ne.
Qed.

(** X26.  [UPDATE_MINING_DATA] round trip, in both revisions: the campaign at
    index [i] of the stored list reads back under its status at index [i], and
    the other keys of the state stay.  The first revision stores the list, the
    later one a copy of its entries. *)
Theorem mining_data_round_trip (state : State) (status : string) (campaigns : list JsVal) :
  ∃ state1 state2,
    Cache.reducer state (Cache.UPDATE_MINING_DATA status (JArr campaigns)) = Some state1
    ∧ CacheV2.reducer state (CacheV2.UPDATE_MINING_DATA status (JArr campaigns)) = Some state2
    ∧ read state1 status = JArr campaigns
    ∧ (∀ (i : nat) (campaign : JsVal),
         campaigns !! i = Some campaign →
         getProp (read state1 status) (pretty i) = campaign
         ∧ getProp (read state2 status) (pretty i) = campaign)
    ∧ ∀ key : string, key ≠ status →
        state1 !! key = state !! key ∧ state2 !! key = state !! key.
Proof.
  do 2 eexists. split; [reflexivity|]. split; [reflexivity|].
  split; [unfold read; by rewrite CacheSpec.getProp_obj, lookup_insert_eq|]. split.
  - intros i campaign Hi. unfold read. rewrite !CacheSpec.getProp_obj, !lookup_insert_eq.
    simpl. unfold getProp. simpl. by rewrite !indexKeys_lookup, Hi.
  - intros key Hne. by rewrite !lookup_insert_ne.
Qed.

End CacheV2More.

(** ** Token logos *)

Module TokenIconSpec.
Import TokenIcon.

Lemma foldl_cacheToken (env : Services) (selectedNetworkChainId : Z) (key : string)
    (tokens : list TokenInfo) :
  ∀ cache : gmap string string,
    foldl (cacheToken env selectedNetworkChainId) cache tokens !! key
    = match last (filter (λ token, chainId token = selectedNetworkChainId
                                   ∧ toLowerCase env (address token) = key) tokens) with
      | Some token => Some (logoURI token)
      | None => cache !! key
      end.
Proof.
  induction tokens as [|token tokens IH]; intros cache; simpl; [done|].
  rewrite IH, filter_cons. unfold cacheToken.
  case_bool_decide as Hchain; case_decide as Hkey.
  - by destruct Hkey.
  - done.
  - rewrite last_cons. destruct (last (filter _ tokens)); [done|].
    destruct Hkey as [_ <-]. by rewrite lookup_insert_eq.
  - destruct (last (filter _ tokens)); [done|].
    rewrite lookup_insert_ne; [done|]. intros Heq. apply Hkey. split; [|done].
    by destruct (decide (chainId token = selectedNetworkChainId)).
Qed.

(** X27.  On a network whose cache is empty and whose token list is fetched,
    the hook is given the logo of the last token of the list that is on the
    chain of the network and has the address, whatever the case of the hex
    digits on either side; a token of another chain is never given. *)
Theorem logo_of_the_fetched_list (env : Services) (CACHE : Cache) (address : string)
    (selectedNetwork : Network) (tokens : list TokenInfo) :
  address ≠ ""%string →
  CACHE selectedNetwork = ∅ →
  fetch env (tokenListURL selectedNetwork) = Resolved {| ok := true; json := Resolved tokens |} →
  ∃ CACHE',
    fetchTokenLogo env CACHE address selectedNetwork false
    = (CACHE', SetUri (lastLogo env (chainIdFor env selectedNetwork) tokens address))
    ∧ (∀ other : string,
         CACHE' selectedNetwork !! toLowerCase env other
         = lastLogo env (chainIdFor env selectedNetwork) tokens other)
    ∧ ∀ network, network ≠ selectedNetwork → CACHE' network = CACHE network.
Proof.
  intros Haddress Hempty Hfetch. unfold fetchTokenLogo.
  rewrite bool_decide_eq_false_2 by done. rewrite bool_decide_eq_true_2 by done.
  rewrite Hfetch. simpl. eexists. split; [|split].
  - unfold lookUp, store. rewrite bool_decide_eq_true_2 by done.
    rewrite foldl_cacheToken. unfold lastLogo. by destruct (last _).
  - intros other. unfold store. rewrite bool_decide_eq_true_2 by done.
    rewrite foldl_cacheToken. unfold lastLogo. by destruct (last _).
  - intros network Hne. unfold store. by rewrite bool_decide_eq_false_2.
Qed.

Lemma logo_of_the_fetched_list_witness :
  ∃ CACHE',
    fetchTokenLogo sampleServices (λ _, ∅) "0xab" XDAI false
    = (CACHE', SetUri (lastLogo sampleServices (chainIdFor sampleServices XDAI)
                         sampleTokens "0xab"))
    ∧ (∀ other : string,
         CACHE' XDAI !! toLowerCase sampleServices other
         = lastLogo sampleServices (chainIdFor sampleServices XDAI) sampleTokens other)
    ∧ ∀ network, network ≠ XDAI → CACHE' network = (λ _, ∅) network.
Proof.
  apply (logo_of_the_fetched_list sampleServices (λ _, ∅) "0xab" XDAI sampleTokens);
    [discriminate | reflexivity | reflexivity].
Defined.

Example fetchTokenLogo_sample :
  (fetchTokenLogo sampleServices (λ _, ∅) "0xab" XDAI false).2
  = SetUri (Some "https://logos/ab-xdai.png"%string).
Proof. vm_compute. reflexivity. Qed.

(** X28.  The cache of a network is written only by a fetched list on an empty
    cache: a filled cache is kept and answers without a look at the fetch, and
    a rejected fetch, a response that is not ok and a rejected body leave
    every cache as it was, with no URI set. *)
Theorem token_cache_written_once (env : Services) (CACHE : Cache) (address : string)
    (selectedNetwork : Network) (cancelled : bool) :
  (CACHE selectedNetwork ≠ ∅ → address ≠ ""%string →
   fetchTokenLogo env CACHE address selectedNetwork cancelled
   = (CACHE, if cancelled then Returned
             else SetUri (CACHE selectedNetwork !! toLowerCase env address)))
  ∧ (match fetch env (tokenListURL selectedNetwork) with
     | Rejected _ => True
     | Resolved response => ok response = false ∨ ∃ error, json response = Rejected error
     end →
     ∃ outcome,
       fetchTokenLogo env CACHE address selectedNetwork cancelled = (CACHE, outcome)
       ∧ (CACHE selectedNetwork = ∅ → ∀ uri, outcome ≠ SetUri uri)).
Proof.
  split.
  - intros Hfilled Haddress. unfold fetchTokenLogo.
    rewrite bool_decide_eq_false_2 by done. by rewrite bool_decide_eq_false_2 by done.
  - intros Hfailed. unfold fetchTokenLogo.
    case_bool_decide as Haddress; [by eexists|].
    case_bool_decide as Hempty; [|by eexists; split; [done|]].
    destruct (fetch env _) as [[responseOk body]|]; [|by eexists].
    simpl in *. destruct responseOk; simpl; [|by eexists].
    destruct Hfailed as [?|[error ->]]; [done|]. by eexists.
Qed.

Lemma token_cache_written_once_witness :
  fetchTokenLogo sampleServices (λ _, {[ "0xab"%string := "https://logos/ab.png"%string ]})
    "0xAB" MAINNET false
  = ((λ _, {[ "0xab"%string := "https://logos/ab.png"%string ]}),
     SetUri ((λ _ : Network, ({[ "0xab"%string := "https://logos/ab.png"%string ]}
                              : gmap string string)) MAINNET
             !! toLowerCase sampleServices "0xAB")).
Proof.
  apply (proj1 (token_cache_written_once sampleServices
                  (λ _, {[ "0xab"%string := "https://logos/ab.png"%string ]})
                  "0xAB" MAINNET false)); [|discriminate].
  intros Heq. apply (f_equal (λ m, m !! "0xab"%string)) in Heq. discriminate.
Defined.

End TokenIconSpec.

(** ** The list hook *)

Module ListDataSpec.
Import Cache Bulk ListData.

Lemma formattedFetch_last (fetched : list Entry) (key : string) :
  ∀ obj : gmap string Entry,
    foldl (λ obj cur, <[entryKey cur := cur]> obj) obj fetched !! key
    = match last (filter (λ cur, entryKey cur = key) fetched) with
      | Some cur => Some cur
      | None => obj !! key
      end.
Proof.
  induction fetched as [|cur fetched IH]; intros obj; simpl; [done|].
  rewrite IH, filter_cons. case_decide as Hkey.
  - rewrite last_cons. destruct (last (filter _ fetched)); [done|].
    by rewrite <- Hkey, lookup_insert_eq.
  - destruct (last (filter _ fetched)); [done|]. by rewrite lookup_insert_ne.
Qed.

(** X29.  The list hook asks [getBulkPairData] for the ids of the pairs that
    have no truthy entry in the state, in the order of the list, and keeps
    the entries of the others; when the fetcher resolves to [undefined] the
    result has these entries and an [undefined] under the key ["undefined"];
    when the fetcher is rejected, so is the fetch of the hook. *)
Theorem list_fetch_outcomes (env : Services) (state : State) (pairList : list JsVal)
    (nativeCurrencyPrice : float) :
  (∀ pair, pair ∈ pairList →
     pairKey pair ∈ unfetched state pairList
     ∨ (truthy (read state (pairKey pair)) = true
        ∧ Cached (read state (pairKey pair)) ∈ newFetched state pairList))
  ∧ (∀ records,
       getBulkPairData env (unfetched state pairList) nativeCurrencyPrice None
       = Resolved (Some records) →
       fetchNewPairData env state pairList nativeCurrencyPrice
       = Resolved (newFetched state pairList ++ (Fetched <$> records)))
  ∧ (getBulkPairData env (unfetched state pairList) nativeCurrencyPrice None = Resolved None →
     ∃ fetched,
       fetchNewPairData env state pairList nativeCurrencyPrice = Resolved fetched
       ∧ formattedFetch fetched !! "undefined"%string = Some Missing)
  ∧ (∀ error,
       getBulkPairData env (unfetched state pairList) nativeCurrencyPrice None = Rejected error →
       fetchNewPairData env state pairList nativeCurrencyPrice = Rejected error).
Proof.
  split; [|split; [|split]].
  - intros pair Hpair. destruct (truthy (read state (pairKey pair))) eqn:Hentry.
    + right. split; [done|]. unfold newFetched. apply list_elem_of_omap.
      exists pair. split; [done|]. simpl. by rewrite Hentry.
    + left. unfold unfetched. apply list_elem_of_fmap_2. by apply list_elem_of_filter.
  - intros records Hrun. unfold fetchNewPairData. by rewrite Hrun.
  - intros Hrun. unfold fetchNewPairData. rewrite Hrun. eexists. split; [reflexivity|].
    unfold formattedFetch. rewrite formattedFetch_last, filter_app.
    assert (filter (λ cur, entryKey cur = "undefined"%string) [Missing] = [Missing]) as ->
      by done.
    by rewrite last_snoc.
  - intros error Hrun. unfold fetchNewPairData. by rewrite Hrun.
Qed.

Lemma list_fetch_outcomes_witness :
  fetchNewPairData sampleServices ∅ [JObj {[ "id"%string := JStr "0xabc" ]}] 2000%float
  = Resolved (newFetched ∅ [JObj {[ "id"%string := JStr "0xabc" ]}]
                ++ (Fetched <$> [set_swapFee 30 (parseData sampleServices samplePair
                                                   (Some sampleDayAgo) None None 2000%float 100)])).
Proof.
  apply (proj1 (proj2 (list_fetch_outcomes sampleServices ∅
                         [JObj {[ "id"%string := JStr "0xabc" ]}] 2000%float))).
  reflexivity.
Defined.

End ListDataSpec.
